(** * Subscription lifecycle and notification dispatch (openstatus)

    A shallow embedding of
      - packages/subscriptions/src/service.ts      (lifecycle manager),
      - packages/subscriptions/src/dispatcher.ts   (fan-out),
      - packages/subscriptions/src/channels/email.ts and channels/webhook.ts,
      - packages/db/src/schema/page_subscribers    (tables and indexes),
    together with the properties the specification states about them.

    Modelling conventions.
      - The relational store is a record of tables, each table a list of
        rows in rowid order; [findFirst] returns the first matching row.
      - Service functions run in a state-and-error monad over the store: a
        [throw] keeps the writes made so far, [transaction] rolls them back.
      - [Date.now()] and [crypto.randomUUID()] are arguments of the
        operation that calls them; a [Date] is its millisecond count.  A
        timestamp column keeps whole seconds: it gives back the [Date]
        written to it rounded down to the second ([timestamp_column]).
      - Strings are byte strings; [toLowerCase] (and SQL [LOWER]) act on the
        ASCII letters.
      - A JS object used as a map ([Record<string, _>]) is the association
        list of its own properties in insertion order.  A name that every
        JS object inherits from [Object.prototype] is not an own property
        of [{}]: reading it finds the inherited value, and writing
        "__proto__" creates no property ([group_push], [set_header]).
      - Reads of the store always answer; promises that run concurrently
        are tasks whose effects are listed one after the other. *)

From Stdlib Require Import ZArith List String Ascii Bool Lia Permutation.
Import ListNotations.
Open Scope Z_scope.

Set Implicit Arguments.

(** ** Strings *)

Definition lower_ascii (c : ascii) : ascii :=
  let n := nat_of_ascii c in
  if ((65 <=? n) && (n <=? 90))%nat then ascii_of_nat (n + 32) else c.

Fixpoint toLowerCase (s : string) : string :=
  match s with
  | EmptyString => EmptyString
  | String c r => String (lower_ascii c) (toLowerCase r)
  end.

(** JS truthiness of a string: the empty string is falsy. *)
Definition truthy (s : string) : bool :=
  match s with EmptyString => false | _ => true end.

(** ** Small list helpers mirroring the Array methods the code uses *)

Definition includes (l : list Z) (x : Z) : bool := existsb (Z.eqb x) l.

(** [[...new Set(l)]]: the distinct elements of [l], first occurrences kept
    in order. *)
Fixpoint uniq_from (seen l : list Z) : list Z :=
  match l with
  | [] => []
  | x :: r => if includes seen x then uniq_from seen r
              else x :: uniq_from (x :: seen) r
  end.

Definition Set_spread (l : list Z) : list Z := uniq_from [] l.

Definition is_some {A} (o : option A) : bool :=
  match o with Some _ => true | None => false end.

Definition is_null {A} (o : option A) : bool := negb (is_some o).

(** SQL [col = v] on a nullable text column. *)
Definition col_eq_str (c : option string) (v : string) : bool :=
  match c with Some s => String.eqb s v | None => false end.

(** ** Tables (packages/db/src/schema) *)

Module Page.
Record t := mk
  { id : Z; title : string; slug : string; customDomain : option string }.
End Page.

Module PageComponent.
Record t := mk { id : Z; pageId : Z; name : string }.
End PageComponent.

Module PageSubscriber.
Record t := mk
  { id : Z;
    email : option string;
    pageId : Z;
    channelType : string;
    webhookUrl : option string;
    channelConfig : option string;
    token : option string;
    acceptedAt : option Z;
    expiresAt : option Z;
    unsubscribedAt : option Z;
    createdAt : option Z;
    updatedAt : option Z }.
End PageSubscriber.

Module PageSubscriberToPageComponent.
Record t := mk { pageSubscriberId : Z; pageComponentId : Z }.
End PageSubscriberToPageComponent.

Module PS := PageSubscriber.
Module PSC := PageSubscriberToPageComponent.

Record DB := mkDB
  { page : list Page.t;
    pageComponent : list PageComponent.t;
    pageSubscriber : list PS.t;
    pageSubscriberToPageComponent : list PSC.t }.

Definition set_pageSubscriber (d : DB) (l : list PS.t) : DB :=
  mkDB (page d) (pageComponent d) l (pageSubscriberToPageComponent d).

Definition set_links (d : DB) (l : list PSC.t) : DB :=
  mkDB (page d) (pageComponent d) (pageSubscriber d) l.

(** ** Errors and the service monad *)

Inductive Error :=
| PageNotFound (pageId : Z)            (* "Page ${pageId} not found" *)
| InvalidComponents (ids : list Z)     (* "Invalid components: ..." *)
| SubscriptionNotFound                 (* "Subscription not found" *)
| NotVerified                          (* "Subscription not yet verified" *)
| Unsubscribed                         (* "Subscription is unsubscribed" *)
| ComponentsNotOnPage     (* "Some components do not belong to this page" *)
| TokenExpired                         (* "Verification token expired" *)
| ConstraintViolation (constraint : string)  (* raised by the store *)
| TypeError.                           (* property read on undefined *)

Definition M (A : Type) : Type := DB -> (Error + A) * DB.

Definition ret {A} (a : A) : M A := fun d => (inr a, d).

Definition bind {A B} (m : M A) (k : A -> M B) : M B :=
  fun d => match m d with
           | (inl e, d') => (inl e, d')
           | (inr a, d') => k a d'
           end.

Definition throw {A} (e : Error) : M A := fun d => (inl e, d).

Definition query {A} (f : DB -> A) : M A := fun d => (inr (f d), d).

Definition write (f : DB -> DB) : M unit := fun d => (inr tt, f d).

(** [db.transaction]: the writes of a body that throws are rolled back. *)
Definition transaction {A} (body : M A) : M A :=
  fun d => match body d with
           | (inl e, _) => (inl e, d)
           | r => r
           end.

Definition when (b : bool) (m : M unit) : M unit := if b then m else ret tt.

Declare Scope svc_scope.
Delimit Scope svc_scope with svc.
Notation "x <- m ;; k" := (bind m (fun x => k))
  (at level 61, m at next level, right associativity) : svc_scope.
Notation "m ;;; k" := (bind m (fun _ => k))
  (at level 61, right associativity) : svc_scope.
Open Scope svc_scope.

(** ** Store primitives *)

Definition nonempty {A} (l : list A) : bool :=
  match l with [] => false | _ => true end.

(** Rowid of the next inserted subscriber: one more than the largest. *)
Definition next_id (rows : list PS.t) : Z :=
  1 + fold_right (fun r m => Z.max (PS.id r) m) 0 rows.

(** Partial unique index [idx_page_subscriber_email_page_active]:
    on (LOWER(email), page_id) where unsubscribed_at is null and
    channel_type = 'email'. *)
Definition email_idx_member (r : PS.t) : bool :=
  is_null (PS.unsubscribedAt r) && String.eqb (PS.channelType r) "email".

Definition email_idx_clash (r n : PS.t) : bool :=
  email_idx_member r && email_idx_member n &&
  (PS.pageId r =? PS.pageId n) &&
  match PS.email r, PS.email n with
  | Some a, Some b => String.eqb (toLowerCase a) (toLowerCase b)
  | _, _ => false
  end.

(** Partial unique index [idx_page_subscriber_webhook_page_active]:
    on (webhook_url, page_id) where unsubscribed_at is null and
    channel_type = 'webhook'. *)
Definition webhook_idx_member (r : PS.t) : bool :=
  is_null (PS.unsubscribedAt r) && String.eqb (PS.channelType r) "webhook".

Definition webhook_idx_clash (r n : PS.t) : bool :=
  webhook_idx_member r && webhook_idx_member n &&
  (PS.pageId r =? PS.pageId n) &&
  match PS.webhookUrl r, PS.webhookUrl n with
  | Some a, Some b => String.eqb a b
  | _, _ => false
  end.

(** CHECK constraint [page_subscriber_channel_check]. *)
Definition channelCheck (r : PS.t) : bool :=
  (String.eqb (PS.channelType r) "email" &&
   is_some (PS.email r) && is_null (PS.webhookUrl r))
  || (String.eqb (PS.channelType r) "webhook" &&
      is_some (PS.webhookUrl r) && is_null (PS.email r)).

(** A column [integer(..., { mode: "timestamp" })]: the driver stores a
    Date as whole seconds ([Math.floor(date.getTime() / 1000)]) and reads it
    back as [new Date(seconds * 1000)].  [timestamp_column ms] is the Date
    that is read back once the Date [ms] has been written: [ms] rounded
    down to the second.  Every Date the store hands out, also through
    [.returning()], has gone through it. *)
Definition timestamp_column (ms : Z) : Z := ms / 1000 * 1000.

(** [insert(pageSubscriber).values(v).returning().get()]: the store assigns
    the id, keeps the Dates at the precision of their columns and enforces
    the column and table constraints.  [createdAt] and [updatedAt] of [v]
    stand for the column default [strftime('%s', 'now')]. *)
Definition insert_pageSubscriber (v : PS.t) : M PS.t :=
  fun d =>
    let n := PS.mk (next_id (pageSubscriber d)) (PS.email v) (PS.pageId v)
               (PS.channelType v) (PS.webhookUrl v) (PS.channelConfig v)
               (PS.token v)
               (option_map timestamp_column (PS.acceptedAt v))
               (option_map timestamp_column (PS.expiresAt v))
               (option_map timestamp_column (PS.unsubscribedAt v))
               (option_map timestamp_column (PS.createdAt v))
               (option_map timestamp_column (PS.updatedAt v)) in
    if is_null (PS.email n) then
      (inl (ConstraintViolation "NOT NULL page_subscriber.email"), d)
    else if negb (channelCheck n) then
      (inl (ConstraintViolation "page_subscriber_channel_check"), d)
    else if existsb (fun r => email_idx_clash r n) (pageSubscriber d) then
      (inl (ConstraintViolation "idx_page_subscriber_email_page_active"), d)
    else if existsb (fun r => webhook_idx_clash r n) (pageSubscriber d) then
      (inl (ConstraintViolation "idx_page_subscriber_webhook_page_active"), d)
    else (inr n, set_pageSubscriber d (pageSubscriber d ++ [n])).

(** [update(pageSubscriber).set(f).where(eq(id, i))], with the rows that
    were updated ([.returning()]).  [f] is what the [.set({...})] payload
    does to a stored row: the payloads of the lifecycle manager
    ([set_expiresAt] and the like) write their Dates through
    [timestamp_column], so the rows stored and the rows returned carry
    whole seconds. *)
Definition update_rows (f : PS.t -> PS.t) (i : Z) (rows : list PS.t)
  : list PS.t :=
  map (fun r => if PS.id r =? i then f r else r) rows.

Definition update_pageSubscriber (f : PS.t -> PS.t) (i : Z) : M (list PS.t) :=
  fun d =>
    (inr (map f (filter (fun r => PS.id r =? i) (pageSubscriber d))),
     set_pageSubscriber d (update_rows f i (pageSubscriber d))).

Definition link_eqb (a b : PSC.t) : bool :=
  (PSC.pageSubscriberId a =? PSC.pageSubscriberId b) &&
  (PSC.pageComponentId a =? PSC.pageComponentId b).

(** [insert(pageSubscriberToPageComponent).values(vs)]: the composite
    primary key rejects a pair that is already stored. *)
Fixpoint insert_links_into (tbl : list PSC.t) (vs : list PSC.t)
  : option (list PSC.t) :=
  match vs with
  | [] => Some tbl
  | v :: r => if existsb (link_eqb v) tbl then None
              else insert_links_into (tbl ++ [v]) r
  end.

Definition insert_links (vs : list PSC.t) : M unit :=
  fun d => match insert_links_into (pageSubscriberToPageComponent d) vs with
           | Some t => (inr tt, set_links d t)
           | None =>
               (inl (ConstraintViolation
                       "PRIMARY KEY page_subscriber_to_page_component"), d)
           end.

(** The same with [.onConflictDoNothing()]. *)
Fixpoint insert_links_skip (tbl : list PSC.t) (vs : list PSC.t)
  : list PSC.t :=
  match vs with
  | [] => tbl
  | v :: r => if existsb (link_eqb v) tbl then insert_links_skip tbl r
              else insert_links_skip (tbl ++ [v]) r
  end.

Definition insert_links_onConflictDoNothing (vs : list PSC.t) : M unit :=
  write (fun d => set_links d
                    (insert_links_skip (pageSubscriberToPageComponent d) vs)).

Definition delete_links (sub : Z) : M unit :=
  write (fun d => set_links d
           (filter (fun l => negb (PSC.pageSubscriberId l =? sub))
                   (pageSubscriberToPageComponent d))).

(** The relation [components] of a subscriber row ([with: components]),
    read as [components.map(c => c.pageComponentId)]. *)
Definition components_of (d : DB) (sub : Z) : list Z :=
  map PSC.pageComponentId
    (filter (fun l => PSC.pageSubscriberId l =? sub)
            (pageSubscriberToPageComponent d)).

Definition find_page (d : DB) (pid : Z) : option Page.t :=
  find (fun p => Page.id p =? pid) (page d).

(** [select id from pageComponent where pageId = pid and id in ids]. *)
Definition valid_components (d : DB) (pid : Z) (ids : list Z) : list Z :=
  map PageComponent.id
    (filter (fun c => (PageComponent.pageId c =? pid) &&
                      includes ids (PageComponent.id c))
            (pageComponent d)).

Definition find_by_token (d : DB) (tok : string) : option PS.t :=
  find (fun r => col_eq_str (PS.token r) tok) (pageSubscriber d).

(** The [where] clause of the active-subscription lookup of upsert. *)
Definition is_active_email (mail : string) (pid : Z) (r : PS.t) : bool :=
  col_eq_str (PS.email r) mail &&
  (PS.pageId r =? pid) &&
  String.eqb (PS.channelType r) "email" &&
  is_null (PS.unsubscribedAt r).

Definition find_active_email (d : DB) (mail : string) (pid : Z)
  : option PS.t :=
  find (is_active_email mail pid) (pageSubscriber d).

(** ** Subscriber projection (types.ts, [Subscription]) *)

Module Subscription.
Record t := mk
  { id : Z;
    pageId : Z;
    pageName : string;
    pageSlug : string;
    customDomain : option string;
    channelType : string;
    email : option string;
    webhookUrl : option string;
    channelConfig : option string;
    token : option string;
    acceptedAt : option Z;
    unsubscribedAt : option Z;
    componentIds : list Z }.
End Subscription.

Module PageUpdate.
Record t := mk
  { id : Z;
    pageId : Z;
    title : string;
    status : string;
    message : string;
    pageComponentIds : list Z;
    pageComponents : list string;
    date : string }.
End PageUpdate.

(** ** Lifecycle manager (service.ts) *)

Definition VERIFICATION_EXPIRY_DAYS : Z := 7.
Definition VERIFICATION_EXPIRY_MS : Z :=
  VERIFICATION_EXPIRY_DAYS * 24 * 60 * 60 * 1000.

Record UpsertEmailSubscriptionInput := mkUpsert
  { in_email : string;
    in_pageId : Z;
    in_componentIds : option (list Z) }.

Record UpdateSubscriptionScopeInput := mkScope
  { sc_token : string;
    sc_componentIds : list Z;
    sc_domain : option string }.

(** The [.set({...})] payloads of the updates, as they reach a stored row:
    the arguments are the Dates the code passes (ms), the columns receive
    them at their precision of one second. *)
Definition set_expiresAt (expiresAt updatedAt : Z) (r : PS.t) : PS.t :=
  PS.mk (PS.id r) (PS.email r) (PS.pageId r) (PS.channelType r)
    (PS.webhookUrl r) (PS.channelConfig r) (PS.token r) (PS.acceptedAt r)
    (Some (timestamp_column expiresAt)) (PS.unsubscribedAt r)
    (PS.createdAt r) (Some (timestamp_column updatedAt)).

Definition set_acceptedAt (acceptedAt updatedAt : Z) (r : PS.t) : PS.t :=
  PS.mk (PS.id r) (PS.email r) (PS.pageId r) (PS.channelType r)
    (PS.webhookUrl r) (PS.channelConfig r) (PS.token r)
    (Some (timestamp_column acceptedAt))
    (PS.expiresAt r) (PS.unsubscribedAt r) (PS.createdAt r)
    (Some (timestamp_column updatedAt)).

Definition set_updatedAt (updatedAt : Z) (r : PS.t) : PS.t :=
  PS.mk (PS.id r) (PS.email r) (PS.pageId r) (PS.channelType r)
    (PS.webhookUrl r) (PS.channelConfig r) (PS.token r) (PS.acceptedAt r)
    (PS.expiresAt r) (PS.unsubscribedAt r) (PS.createdAt r)
    (Some (timestamp_column updatedAt)).

Definition set_unsubscribedAt (unsubscribedAt updatedAt : Z) (r : PS.t)
  : PS.t :=
  PS.mk (PS.id r) (PS.email r) (PS.pageId r) (PS.channelType r)
    (PS.webhookUrl r) (PS.channelConfig r) (PS.token r) (PS.acceptedAt r)
    (PS.expiresAt r) (Some (timestamp_column unsubscribedAt))
    (PS.createdAt r) (Some (timestamp_column updatedAt)).

Definition links_for (sub : Z) (ids : list Z) : list PSC.t :=
  map (fun c => PSC.mk sub c) ids.

(** The domain guard shared by verify, getByToken, updateScope and
    unsubscribe: [if (domain) { ... domainLower !== pageSlugLower &&
    domainLower !== customDomainLower }]. *)
Definition domain_differs (d : string) (p : Page.t) : bool :=
  negb (String.eqb (toLowerCase d) (toLowerCase (Page.slug p))) &&
  negb (match Page.customDomain p with
        | Some c => String.eqb (toLowerCase d) (toLowerCase c)
        | None => false
        end).

(** Reading a property of a relation that may be missing. *)
Definition deref {A} (o : option A) : M A :=
  match o with Some a => ret a | None => throw TypeError end.

Definition domain_rejected (domain : option string) (pg : option Page.t)
  : M bool :=
  match domain with
  | Some d => if truthy d then p <- deref pg ;; ret (domain_differs d p)
              else ret false
  | None => ret false
  end.

Definition upsertEmailSubscription (Date_now : Z) (randomUUID : string)
    (input : UpsertEmailSubscriptionInput) : M Subscription.t :=
  let email := in_email input in
  let pageId := in_pageId input in
  let componentIds :=
    match in_componentIds input with Some l => l | None => [] end in
  pageData <- query (fun d => find_page d pageId) ;;
  match pageData with
  | None => throw (PageNotFound pageId)
  | Some pageData =>
    (if nonempty componentIds then
       validIds <- query (fun d => valid_components d pageId componentIds) ;;
       if negb (Nat.eqb (List.length validIds) (List.length componentIds)) then
         throw (InvalidComponents
                  (filter (fun i => negb (includes validIds i)) componentIds))
       else ret tt
     else ret tt) ;;;
    existing <- query (fun d =>
                  match find_active_email d (toLowerCase email) pageId with
                  | Some r => Some (r, components_of d (PS.id r))
                  | None => None
                  end) ;;
    match existing with
    | Some (existing, currentIds) =>
      match PS.acceptedAt existing with
      | Some acc =>
        ret (Subscription.mk (PS.id existing) (PS.pageId existing)
               (Page.title pageData) (Page.slug pageData)
               (Page.customDomain pageData) (PS.channelType existing)
               (PS.email existing) None None (PS.token existing)
               (Some acc) None currentIds)
      | None =>
        let mergedIds := Set_spread (currentIds ++ componentIds) in
        let newIds :=
          filter (fun i => negb (includes currentIds i)) mergedIds in
        when (nonempty newIds)
          (insert_links_onConflictDoNothing
             (links_for (PS.id existing) newIds)) ;;;
        let newExpiresAt := Date_now + VERIFICATION_EXPIRY_MS in
        update_pageSubscriber
          (set_expiresAt newExpiresAt Date_now)
          (PS.id existing) ;;;
        ret (Subscription.mk (PS.id existing) (PS.pageId existing)
               (Page.title pageData) (Page.slug pageData)
               (Page.customDomain pageData) (PS.channelType existing)
               (PS.email existing) None None (PS.token existing)
               None None mergedIds)
      end
    | None =>
      let token := randomUUID in
      let expiresAt := Date_now + VERIFICATION_EXPIRY_MS in
      subscription <-
        transaction
          (sub <- insert_pageSubscriber
                    (PS.mk 0 (Some (toLowerCase email)) pageId "email" None
                       None (Some token) None (Some expiresAt) None
                       (Some Date_now) (Some Date_now)) ;;
           when (nonempty componentIds)
             (insert_links (links_for (PS.id sub) componentIds)) ;;;
           ret sub) ;;
      ret (Subscription.mk (PS.id subscription) (PS.pageId subscription)
             (Page.title pageData) (Page.slug pageData)
             (Page.customDomain pageData) "email"
             (PS.email subscription) None None (PS.token subscription)
             (PS.acceptedAt subscription) (PS.unsubscribedAt subscription)
             componentIds)
    end
  end.

Definition with_page_components (d : DB) (r : PS.t)
  : PS.t * option Page.t * list Z :=
  (r, find_page d (PS.pageId r), components_of d (PS.id r)).

Definition verifySubscription (Date_now : Z) (token : string)
    (domain : option string) : M (option Subscription.t) :=
  subscription <- query (fun d => option_map (with_page_components d)
                                    (find_by_token d token)) ;;
  match subscription with
  | None => ret None
  | Some (subscription, pg, comps) =>
    rejected <- domain_rejected domain pg ;;
    if rejected then ret None
    else
      match PS.acceptedAt subscription with
      | Some acc =>
        p <- deref pg ;;
        ret (Some (Subscription.mk (PS.id subscription)
               (PS.pageId subscription) (Page.title p) (Page.slug p)
               (Page.customDomain p) (PS.channelType subscription)
               (PS.email subscription) (PS.webhookUrl subscription) None
               (PS.token subscription) (Some acc)
               (PS.unsubscribedAt subscription) comps))
      | None =>
        if match PS.expiresAt subscription with
           | Some e => e <? Date_now
           | None => false
           end
        then throw TokenExpired
        else
          updated <- update_pageSubscriber
            (set_acceptedAt Date_now Date_now)
            (PS.id subscription) ;;
          match updated with
          | [] => throw TypeError
          | updated :: _ =>
            p <- deref pg ;;
            ret (Some (Subscription.mk (PS.id updated) (PS.pageId updated)
                   (Page.title p) (Page.slug p) (Page.customDomain p)
                   (PS.channelType updated) (PS.email updated)
                   (PS.webhookUrl updated) None (PS.token updated)
                   (PS.acceptedAt updated) None comps))
          end
      end
  end.

Definition updateSubscriptionScope (Date_now : Z)
    (input : UpdateSubscriptionScopeInput) : M Subscription.t :=
  let token := sc_token input in
  let componentIds := sc_componentIds input in
  let domain := sc_domain input in
  subscription <- query (fun d => option_map (with_page_components d)
                                    (find_by_token d token)) ;;
  match subscription with
  | None => throw SubscriptionNotFound
  | Some (subscription, pg, _) =>
    rejected <- domain_rejected domain pg ;;
    if rejected then throw SubscriptionNotFound
    else
      match PS.acceptedAt subscription with
      | None => throw NotVerified
      | Some acc =>
        if is_some (PS.unsubscribedAt subscription) then throw Unsubscribed
        else
          (if nonempty componentIds then
             validIds <- query (fun d => valid_components d
                                  (PS.pageId subscription) componentIds) ;;
             if negb (Nat.eqb (List.length validIds) (List.length componentIds))
             then throw ComponentsNotOnPage
             else ret tt
           else ret tt) ;;;
          transaction
            (delete_links (PS.id subscription) ;;;
             when (nonempty componentIds)
               (insert_links
                  (links_for (PS.id subscription) componentIds)) ;;;
             update_pageSubscriber
               (set_updatedAt Date_now)
               (PS.id subscription) ;;;
             ret tt) ;;;
          p <- deref pg ;;
          ret (Subscription.mk (PS.id subscription)
                 (PS.pageId subscription) (Page.title p) (Page.slug p)
                 (Page.customDomain p) (PS.channelType subscription)
                 (PS.email subscription) None None
                 (PS.token subscription) (Some acc) None componentIds)
      end
  end.

Definition unsubscribe (Date_now : Z) (token : string)
    (domain : option string) : M unit :=
  subscription <- query (fun d => option_map (with_page_components d)
                                    (find_by_token d token)) ;;
  match subscription with
  | None => throw SubscriptionNotFound
  | Some (subscription, pg, _) =>
    rejected <- domain_rejected domain pg ;;
    if rejected then throw SubscriptionNotFound
    else if is_some (PS.unsubscribedAt subscription) then ret tt
    else
      update_pageSubscriber
        (set_unsubscribedAt Date_now Date_now)
        (PS.id subscription) ;;;
      ret tt
  end.

(** ** Outside world of the channels *)

Inductive Outcome := Resolved | Rejected.

Inductive FetchResult :=
| FetchOk                      (* response.ok *)
| FetchStatus (status : Z)     (* a response that is not ok *)
| FetchError.                  (* fetch rejects: network error, timeout *)

(** What [config.headers] turns out to be once [channelConfig] is parsed:
    falsy, a sequence of key/value pairs, or something whose read or
    iteration throws. *)
Inductive ConfigHeaders :=
| HeadersFalsy
| HeadersPairs (hs : list (string * string))
| HeadersThrow.

Record WebhookPayload := mkPayload
  { pl_type : string;
    pl_page_id : Z;
    pl_page_name : string;
    pl_update_id : Z;
    pl_update_title : string;
    pl_update_status : string;
    pl_update_message : string;
    pl_update_pageComponents : list string;
    pl_update_date : string }.

Record Request := mkRequest
  { rq_url : string;
    rq_method : string;
    rq_headers : list (string * string);
    rq_body : WebhookPayload;
    rq_timeout : Z }.

Record StatusReportUpdateProps := mkProps
  { subscribers : list (string * string);   (* email, token *)
    pageTitle : string;
    pageSlug : string;
    customDomain : option string;
    reportTitle : string;
    status : string;
    message : string;
    date : string;
    pageComponents : list string }.

Record World := mkWorld
  { (* outcome of the n-th POST of a webhook batch *)
    fetch : nat -> Request -> FetchResult;
    (* outcome of EmailClient.sendStatusReportUpdate *)
    sendStatusReportUpdate : StatusReportUpdateProps -> Outcome;
    RESEND_API_KEY : option string;
    emailClient : bool;            (* the lazily built client exists *)
    JSON_parse : string -> option ConfigHeaders }.

Inductive Effect :=
| HttpPost (n : nat) (r : Request)
| EmailBatch (p : StatusReportUpdateProps)
| ConsoleLog (msg : string)
| ConsoleError (msg : string).

Definition Task : Type := list Effect * Outcome.

(** [Promise.allSettled]: every task runs to its end; the combined promise
    resolves whatever the tasks did. *)
Definition allSettled (tasks : list Task) : Task :=
  (List.concat (map fst tasks), Resolved).

(** ** Email channel (channels/email.ts) *)

Definition hasEmailAndToken (sub : Subscription.t) : bool :=
  is_some (Subscription.email sub) && is_some (Subscription.token sub).

Definition getEmailClient (w : World) : Outcome :=
  if emailClient w then Resolved
  else match RESEND_API_KEY w with
       | Some k => if truthy k then Resolved else Rejected
       | None => Rejected
       end.

Definition email_recipient (sub : Subscription.t) : string * string :=
  (match Subscription.email sub with Some e => e | None => EmptyString end,
   match Subscription.token sub with Some t => t | None => EmptyString end).

Definition sendEmailNotifications (subscriptions : list Subscription.t)
    (pageUpdate : PageUpdate.t) (w : World) : Task :=
  if negb (nonempty subscriptions) then ([], Resolved)
  else
    let validSubscriptions := filter hasEmailAndToken subscriptions in
    match validSubscriptions with
    | [] => ([], Resolved)
    | firstSub :: _ =>
      match getEmailClient w with
      | Rejected => ([], Rejected)
      | Resolved =>
        let props :=
          mkProps (map email_recipient validSubscriptions)
            (Subscription.pageName firstSub)
            (Subscription.pageSlug firstSub)
            (Subscription.customDomain firstSub)
            (PageUpdate.title pageUpdate)
            (PageUpdate.status pageUpdate)
            (PageUpdate.message pageUpdate)
            (PageUpdate.date pageUpdate)
            (PageUpdate.pageComponents pageUpdate) in
        ([EmailBatch props], sendStatusReportUpdate w props)
      end
    end.

(** ** Webhook channel (channels/webhook.ts) *)

Definition hasWebhookUrl (sub : Subscription.t) : bool :=
  is_some (Subscription.webhookUrl sub).

(** Writing the own property [k] of an object: its value is replaced when
    the object has it, and it is added otherwise.  The list holds the own
    properties of the object; no statement depends on its order. *)
Fixpoint assign_own (hs : list (string * string)) (k v : string)
  : list (string * string) :=
  match hs with
  | [] => [(k, v)]
  | (k', v') :: r => if String.eqb k' k then (k', v) :: r
                     else (k', v') :: assign_own r k v
  end.

(** [headers[key] = value] on a plain object, for a string [value].  The
    key "__proto__" reaches the setter inherited from [Object.prototype],
    which ignores a value that is neither an object nor null: the
    assignment creates no own property, and the request carries no such
    header.  Any other key, "constructor" and the like included, becomes
    an own property. *)
Definition set_header (hs : list (string * string)) (k v : string)
  : list (string * string) :=
  if String.eqb k "__proto__" then hs else assign_own hs k v.

Definition default_headers : list (string * string) :=
  [("Content-Type", "application/json");
   ("User-Agent", "OpenStatus-Webhooks/1.0")]%string.

Definition webhook_payload (sub : Subscription.t) (pu : PageUpdate.t)
  : WebhookPayload :=
  mkPayload "page_update" (Subscription.pageId sub)
    (Subscription.pageName sub) (PageUpdate.id pu) (PageUpdate.title pu)
    (PageUpdate.status pu) (PageUpdate.message pu)
    (PageUpdate.pageComponents pu) (PageUpdate.date pu).

(** [config = subscription.channelConfig ? JSON.parse(...) : {}] inside
    its [try]: malformed JSON is logged and read as the empty object. *)
Definition parse_channelConfig (w : World) (subscription : Subscription.t)
  : list Effect * ConfigHeaders :=
  match Subscription.channelConfig subscription with
  | Some c => if truthy c then
                match JSON_parse w c with
                | Some cfg => ([], cfg)
                | None => ([ConsoleError "Invalid channelConfig JSON"],
                           HeadersFalsy)
                end
              else ([], HeadersFalsy)
  | None => ([], HeadersFalsy)
  end.

Definition webhook_request (subscription : Subscription.t)
    (pu : PageUpdate.t) (headers : list (string * string)) : Request :=
  mkRequest
    (match Subscription.webhookUrl subscription with
     | Some u => u | None => EmptyString end)
    "POST" headers (webhook_payload subscription pu) 10000.

(** The body of the callback given to [validSubscriptions.map]. *)
Definition webhook_task (w : World) (pu : PageUpdate.t)
    (n : nat) (subscription : Subscription.t) : Task :=
  let parsed := parse_channelConfig w subscription in
  let post (headers : list (string * string)) : Task :=
    let req := webhook_request subscription pu headers in
    match fetch w n req with
    | FetchOk => (fst parsed ++ [HttpPost n req], Resolved)
    | FetchStatus _ =>
        (fst parsed ++ [HttpPost n req;
                        ConsoleError "Webhook notification failed";
                        ConsoleError "Failed to send webhook notification"],
         Rejected)
    | FetchError =>
        (fst parsed ++ [HttpPost n req;
                        ConsoleError "Failed to send webhook notification"],
         Rejected)
    end in
  match snd parsed with
  | HeadersFalsy => post default_headers
  | HeadersPairs hs =>
      post (fold_left (fun acc h => set_header acc (fst h) (snd h)) hs
              default_headers)
  | HeadersThrow => (fst parsed, Rejected)
  end.

Fixpoint mapi_from {A B} (f : nat -> A -> B) (n : nat) (l : list A)
  : list B :=
  match l with
  | [] => []
  | x :: r => f n x :: mapi_from f (S n) r
  end.

Definition sendWebhookNotifications (subscriptions : list Subscription.t)
    (pageUpdate : PageUpdate.t) (w : World) : Task :=
  let validSubscriptions := filter hasWebhookUrl subscriptions in
  if negb (nonempty validSubscriptions) then ([], Resolved)
  else allSettled (mapi_from (webhook_task w pageUpdate) 0
                     validSubscriptions).

(** ** Channel registry *)

Module SubscriptionChannel.
Record t := mk
  { id : string;
    sendNotifications :
      list Subscription.t -> PageUpdate.t -> World -> Task }.
End SubscriptionChannel.

Definition emailChannel : SubscriptionChannel.t :=
  SubscriptionChannel.mk "email" sendEmailNotifications.

Definition webhookChannel : SubscriptionChannel.t :=
  SubscriptionChannel.mk "webhook" sendWebhookNotifications.

(** Modelled from the spec: channels/index.ts ([getChannel]) is not among
    the sources; the registry maps "email" to the email channel, "webhook"
    to the webhook channel and anything else to none. *)
Definition getChannel (channelType : string)
  : option SubscriptionChannel.t :=
  if String.eqb channelType "email" then Some emailChannel
  else if String.eqb channelType "webhook" then Some webhookChannel
  else None.

(** ** Dispatcher (dispatcher.ts) *)

Definition to_subscription (d : DB) (pageData : Page.t) (sub : PS.t)
  : Subscription.t :=
  Subscription.mk (PS.id sub) (PS.pageId sub) (Page.title pageData)
    (Page.slug pageData) (Page.customDomain pageData) (PS.channelType sub)
    (PS.email sub) (PS.webhookUrl sub) (PS.channelConfig sub)
    (PS.token sub) (PS.acceptedAt sub) None (components_of d (PS.id sub)).

(** The [where] clause of the subscriber query. *)
Definition accepted_active_on (pid : Z) (r : PS.t) : bool :=
  (PS.pageId r =? pid) && is_some (PS.acceptedAt r) &&
  is_null (PS.unsubscribedAt r).

(** The [filter] callback. *)
Definition scope_matches (affectedComponentIds : list Z)
    (sub : Subscription.t) : bool :=
  if Nat.eqb (List.length (Subscription.componentIds sub)) 0 then true
  else existsb (fun i => includes (Subscription.componentIds sub) i)
               affectedComponentIds.

Definition matchingSubscriptions (d : DB) (pageData : Page.t)
    (pageUpdate : PageUpdate.t) : list Subscription.t :=
  filter (scope_matches (PageUpdate.pageComponentIds pageUpdate))
    (map (to_subscription d pageData)
       (filter (accepted_active_on (PageUpdate.pageId pageUpdate))
          (pageSubscriber d))).

(** The property names every JS object inherits from [Object.prototype].
    The accumulator of the reduce is the plain object [{}]: for such a
    name [k], [acc[k]] is a function (for "__proto__", the prototype
    object) although nothing was ever assigned to it. *)
Definition Object_prototype_names : list string :=
  ["constructor"; "hasOwnProperty"; "isPrototypeOf"; "propertyIsEnumerable";
   "toLocaleString"; "toString"; "valueOf"; "__defineGetter__";
   "__defineSetter__"; "__lookupGetter__"; "__lookupSetter__";
   "__proto__"]%string.

Definition inherited (k : string) : bool :=
  existsb (String.eqb k) Object_prototype_names.

(** [if (!acc[k]) acc[k] = []; acc[k].push(sub)] for a key [k] that is the
    accumulator's own or absent from it: the own properties of the
    accumulator, in the order of their creation (which is the order of
    [Object.entries], names that are array indices aside). *)
Fixpoint push_own (acc : list (string * list Subscription.t))
    (sub : Subscription.t) : list (string * list Subscription.t) :=
  match acc with
  | [] => [(Subscription.channelType sub, [sub])]
  | (k, v) :: r =>
      if String.eqb k (Subscription.channelType sub)
      then (k, v ++ [sub]) :: r
      else (k, v) :: push_own r sub
  end.

(** The [reduce] callback building [byChannel].  For an inherited name
    [!acc[k]] is false, nothing is assigned, and [acc[k].push] is not a
    function: the callback throws a TypeError. *)
Definition group_push (acc : list (string * list Subscription.t))
    (sub : Subscription.t) : Error + list (string * list Subscription.t) :=
  if inherited (Subscription.channelType sub) then inl TypeError
  else inr (push_own acc sub).

(** [matchingSubscriptions.reduce(callback, {})]: the first throw of the
    callback ends the reduce. *)
Definition byChannel (subs : list Subscription.t)
  : Error + list (string * list Subscription.t) :=
  fold_left (fun acc sub => match acc with
                            | inr a => group_push a sub
                            | inl e => inl e
                            end)
            subs (inr []).

(** The callback given to [Object.entries(byChannel).map]. *)
Definition channel_task (w : World) (pageUpdate : PageUpdate.t)
    (entry : string * list Subscription.t) : Task :=
  let (channelType, subs) := entry in
  match getChannel channelType with
  | None => ([ConsoleError "Unknown channel type"], Resolved)
  | Some channel =>
      match SubscriptionChannel.sendNotifications channel subs pageUpdate w
      with
      | (eff, Resolved) => (eff ++ [ConsoleLog "Sent notifications"], Resolved)
      | (eff, Rejected) =>
          (eff ++ [ConsoleError "Failed to send notifications"], Resolved)
      end
  end.

(** The groups handed to the channels by a dispatch: none when the page is
    missing, nobody matches or the reduce throws. *)
Definition dispatch_groups (d : DB) (pageUpdate : PageUpdate.t)
  : list (string * list Subscription.t) :=
  match find_page d (PageUpdate.pageId pageUpdate) with
  | None => []
  | Some pageData =>
      match byChannel (matchingSubscriptions d pageData pageUpdate) with
      | inr groups => groups
      | inl _ => []
      end
  end.

(** The reduce stands outside every [try]: when it throws, the promise of
    the dispatch rejects and no channel has been called. *)
Definition dispatchPageUpdate (d : DB) (w : World)
    (pageUpdate : PageUpdate.t) : Task :=
  match find_page d (PageUpdate.pageId pageUpdate) with
  | None => ([ConsoleError "Page not found"], Resolved)
  | Some pageData =>
      let matching := matchingSubscriptions d pageData pageUpdate in
      if Nat.eqb (List.length matching) 0
      then ([ConsoleLog "No matching subscriptions"], Resolved)
      else match byChannel matching with
           | inr groups =>
               allSettled (map (channel_task w pageUpdate) groups)
           | inl _ => ([], Rejected)
           end
  end.

(** ** Statements of the specification, in its own words *)

(** Matching rule of the dispatcher: the row is on the event's page, is
    accepted, is not unsubscribed, and its scope is empty or shares a
    component with the event. *)
Definition spec_matches (d : DB) (pu : PageUpdate.t) (r : PS.t) : Prop :=
  PS.pageId r = PageUpdate.pageId pu /\
  PS.acceptedAt r <> None /\
  PS.unsubscribedAt r = None /\
  (components_of d (PS.id r) = [] \/
   exists c, In c (components_of d (PS.id r)) /\
             In c (PageUpdate.pageComponentIds pu)).

(** The sends a run has issued. *)
Definition is_send (e : Effect) : bool :=
  match e with
  | HttpPost _ _ | EmailBatch _ => true
  | _ => false
  end.

Definition sends_of (t : Task) : list Effect := filter is_send (fst t).

(** The same world with other outcomes for the POSTs and the email call. *)
Definition with_outcomes (w : World)
    (f : nat -> Request -> FetchResult)
    (s : StatusReportUpdateProps -> Outcome) : World :=
  mkWorld f s (RESEND_API_KEY w) (emailClient w) (JSON_parse w).

(** Identity of a subscriber row: the email of an email subscriber, the
    URL of a webhook subscriber. *)
Definition identity (r : PS.t) : option string :=
  if String.eqb (PS.channelType r) "email" then PS.email r
  else if String.eqb (PS.channelType r) "webhook" then PS.webhookUrl r
  else None.

(** At most one row with [unsubscribedAt = null] per (case-insensitive
    identity, pageId, channelType): two positions of the table holding such
    rows are the same position. *)
Definition active_unique (rows : list PS.t) : Prop :=
  forall n1 n2 r1 r2 i1 i2,
    nth_error rows n1 = Some r1 -> nth_error rows n2 = Some r2 ->
    PS.unsubscribedAt r1 = None -> PS.unsubscribedAt r2 = None ->
    PS.pageId r1 = PS.pageId r2 ->
    PS.channelType r1 = PS.channelType r2 ->
    identity r1 = Some i1 -> identity r2 = Some i2 ->
    toLowerCase i1 = toLowerCase i2 ->
    n1 = n2.

(** The email rows of a page whose address is [mail] up to letter case. *)
Definition same_email (mail : string) (pid : Z) (r : PS.t) : bool :=
  String.eqb (PS.channelType r) "email" && (PS.pageId r =? pid) &&
  match PS.email r with
  | Some a => String.eqb (toLowerCase a) (toLowerCase mail)
  | None => false
  end.

(** The component validation shared by upsert and updateScope. *)
Definition components_accepted (d : DB) (pid : Z) (ids : list Z) : bool :=
  negb (nonempty ids) ||
  Nat.eqb (List.length (valid_components d pid ids)) (List.length ids).

(** A component id belongs to a page. *)
Definition on_page (d : DB) (pid : Z) (c : Z) : Prop :=
  exists pc, In pc (pageComponent d) /\
             PageComponent.id pc = c /\ PageComponent.pageId pc = pid.

(** Primary keys and references of the schema. *)
Definition pk_subscriber (d : DB) : Prop :=
  NoDup (map PS.id (pageSubscriber d)).

Definition pk_component (d : DB) : Prop :=
  NoDup (map PageComponent.id (pageComponent d)).

Definition fk_link_subscriber (d : DB) : Prop :=
  forall l, In l (pageSubscriberToPageComponent d) ->
            exists r, In r (pageSubscriber d) /\
                      PS.id r = PSC.pageSubscriberId l.

Definition fk_subscriber_page (d : DB) : Prop :=
  forall r, In r (pageSubscriber d) -> find_page d (PS.pageId r) <> None.

(** The domain argument passes the guard of a page. *)
Definition domain_passes (domain : option string) (p : Page.t) : bool :=
  match domain with
  | Some dom => negb (truthy dom) || negb (domain_differs dom p)
  | None => true
  end.

(** The dispatcher's [matchingSubscriptions] holds [s]: the page of the
    update is stored and [s] has passed the query and the filter. *)
Definition selected (d : DB) (pu : PageUpdate.t) (s : Subscription.t)
  : Prop :=
  exists pageData,
    find_page d (PageUpdate.pageId pu) = Some pageData /\
    In s (matchingSubscriptions d pageData pu).

(** No subscription selected for the update has a channel type that is an
    inherited property name.  The CHECK constraint of the table, which
    admits the channel types "email" and "webhook" only, makes this true
    of every stored table. *)
Definition own_channel_types (d : DB) (pu : PageUpdate.t) : Prop :=
  forall s, selected d pu s ->
            inherited (Subscription.channelType s) = false.

(** Every row passes the CHECK constraint of the table. *)
Definition channel_checked (d : DB) : Prop :=
  forall r, In r (pageSubscriber d) -> channelCheck r = true.

(** Every row satisfies the column constraint NOT NULL on email and the
    CHECK constraint of the table: what [insert_pageSubscriber] enforces. *)
Definition schema_rows (d : DB) : Prop :=
  forall r, In r (pageSubscriber d) ->
            is_null (PS.email r) = false /\ channelCheck r = true.

(** What the reduce builds when it does not throw. *)
Definition grouped (subs : list Subscription.t)
  : list (string * list Subscription.t) :=
  fold_left push_own subs [].

(** A subscription sits in one of the channel groups. *)
Definition in_groups (acc : list (string * list Subscription.t))
    (s : Subscription.t) : Prop :=
  exists ct g, In (ct, g) acc /\ In s g.

(** ** Derived notions used by the statements *)

(** [r] is the stored active email subscription of an address on a page,
    kept under the lowercased address as upsert writes it. *)
Definition active_subscription (d : DB) (mail : string) (pid : Z)
    (r : PS.t) : Prop :=
  In r (pageSubscriber d) /\
  PS.email r = Some (toLowerCase mail) /\
  PS.pageId r = pid /\
  PS.channelType r = "email"%string /\
  PS.unsubscribedAt r = None.

(** The row a creating upsert stores, with the id the store gives it and
    its Dates at the precision of their columns. *)
Definition new_subscriber (now : Z) (uuid mail : string) (pid : Z)
    (rows : list PS.t) : PS.t :=
  PS.mk (next_id rows) (Some (toLowerCase mail)) pid "email" None None
    (Some uuid) None
    (Some (timestamp_column (now + VERIFICATION_EXPIRY_MS))) None
    (Some (timestamp_column now)) (Some (timestamp_column now)).

(** The default of the optional [componentIds] of an upsert. *)
Definition upsert_ids (input : UpsertEmailSubscriptionInput) : list Z :=
  match in_componentIds input with Some l => l | None => [] end.

(** Projection returned by upsert for a row it found. *)
Definition upsert_projection (pg : Page.t) (r : PS.t)
    (acc : option Z) (ids : list Z) : Subscription.t :=
  Subscription.mk (PS.id r) (PS.pageId r) (Page.title pg) (Page.slug pg)
    (Page.customDomain pg) (PS.channelType r) (PS.email r) None None
    (PS.token r) acc None ids.

(** Components a pending upsert adds to the current ones. *)
Definition merged_ids (current ids : list Z) : list Z :=
  Set_spread (current ++ ids).

Definition added_ids (current ids : list Z) : list Z :=
  filter (fun i => negb (includes current i)) (merged_ids current ids).

(** A decision procedure for [active_unique]. *)
Definition identity_clash (r x : PS.t) : bool :=
  is_null (PS.unsubscribedAt r) && is_null (PS.unsubscribedAt x) &&
  (PS.pageId r =? PS.pageId x) &&
  String.eqb (PS.channelType r) (PS.channelType x) &&
  match identity r, identity x with
  | Some a, Some b => String.eqb (toLowerCase a) (toLowerCase b)
  | _, _ => false
  end.

Fixpoint active_unique_b (rows : list PS.t) : bool :=
  match rows with
  | [] => true
  | r :: rs => forallb (fun x => negb (identity_clash r x)) rs &&
               active_unique_b rs
  end.

(** The store a merging upsert leaves: the expiry of the pending row
    refreshed, the missing component associations added. *)
Definition pending_state (now : Z) (d : DB) (sub : Z) (ids : list Z) : DB :=
  mkDB (page d) (pageComponent d)
    (update_rows (set_expiresAt (now + VERIFICATION_EXPIRY_MS) now) sub
       (pageSubscriber d))
    (insert_links_skip (pageSubscriberToPageComponent d)
       (links_for sub (added_ids (components_of d sub) ids))).

(** Deciding [on_page]. *)
Definition on_page_b (d : DB) (pid : Z) (c : Z) : bool :=
  existsb (fun pc => (PageComponent.id pc =? c) &&
                     (PageComponent.pageId pc =? pid))
          (pageComponent d).

(** The association table after a scope replacement. *)
Definition replaced_links (d : DB) (sub : Z) (ids : list Z) : list PSC.t :=
  filter (fun l => negb (PSC.pageSubscriberId l =? sub))
         (pageSubscriberToPageComponent d) ++ links_for sub ids.

(** ** A sample store

    Page 1 ("status") with components 1 and 2; subscribers A (entire page),
    B (component 1) and C (component 2), all accepted. *)

Definition ex_page : Page.t :=
  Page.mk 1 "Status" "status" (Some "status.example.com")%string.

Definition ex_row (i : Z) (mail tok : string) (acc unsub : option Z)
  : PS.t :=
  PS.mk i (Some mail) 1 "email" None None (Some tok) acc (Some 700000)
    unsub (Some 0) (Some 0).

Definition ex_rowA : PS.t := ex_row 1 "a@example.com" "tok-a" (Some 1000) None.
Definition ex_rowB : PS.t := ex_row 2 "b@example.com" "tok-b" (Some 1000) None.
Definition ex_rowC : PS.t := ex_row 3 "c@example.com" "tok-c" (Some 1000) None.

Definition ex_components : list PageComponent.t :=
  [PageComponent.mk 1 1 "API"; PageComponent.mk 2 1 "Web";
   PageComponent.mk 3 2 "Elsewhere"]%string.

Definition ex_db : DB :=
  mkDB [ex_page; Page.mk 2 "Other" "other" None] ex_components
       [ex_rowA; ex_rowB; ex_rowC]
       [PSC.mk 2 1; PSC.mk 3 2].

Definition ex_update (affected : list Z) : PageUpdate.t :=
  PageUpdate.mk 7 1 "Incident" "investigating" "We are investigating."
    affected ["API"]%string "2026-01-01T00:00:00.000Z".

(** A world in which the first POST of a batch times out and the email
    provider rejects the call. *)
Definition ex_world : World :=
  mkWorld (fun n _ => match n with O => FetchError | _ => FetchOk end)
          (fun _ => Rejected) (Some "key"%string) false (fun _ => None).

Definition ex_hook (i : Z) (url : string) : Subscription.t :=
  Subscription.mk i 1 "Status" "status" None "webhook" None (Some url)
    None (Some "tok"%string) (Some 1000) None [].

Definition ex_hook1 : Subscription.t := ex_hook 11 "https://one.example/hook".
Definition ex_hook2 : Subscription.t := ex_hook 12 "https://two.example/hook".

(** The sample page without subscribers, and two upserts of one address
    in different letter case. *)
Definition ex_db0 : DB := mkDB [ex_page] ex_components [] [].

Definition ex_first : (Error + Subscription.t) * DB :=
  upsertEmailSubscription 1000 "uuid-1"
    (mkUpsert "User@Example.com" 1 None) ex_db0.

Definition ex_second : (Error + Subscription.t) * DB :=
  upsertEmailSubscription 2000 "uuid-2"
    (mkUpsert "user@example.com" 1 (Some [1])) (snd ex_first).

Definition the_value {A} (r : Error + A) (default : A) : A :=
  match r with inr a => a | inl _ => default end.

Definition no_subscription : Subscription.t :=
  Subscription.mk 0 0 "" "" None "" None None None None None None [].

(** A store whose only subscriber has unsubscribed. *)
Definition ex_rowGone : PS.t :=
  ex_row 1 "gone@example.com" "tok-old" (Some 1000) (Some 2000).

Definition ex_db_gone : DB :=
  mkDB [ex_page] ex_components [ex_rowGone] [PSC.mk 1 1].

(** The pending row the first sample upsert has stored. *)
Definition ex_pending : PS.t :=
  new_subscriber 1000 "uuid-1" "User@Example.com" 1 [].

(** A store whose only subscriber unsubscribed before verifying; its
    verification deadline (700000) has not passed at 5000. *)
Definition ex_rowLeft : PS.t :=
  ex_row 1 "left@example.com" "tok-left" None (Some 2000).

Definition ex_db_left : DB :=
  mkDB [ex_page] ex_components [ex_rowLeft] [].

(** ** Further code of service.ts *)

(** [s.split(sep)] for a one-character separator. *)
Fixpoint split_on (sep : ascii) (s : string) : list string :=
  match s with
  | EmptyString => [EmptyString]
  | String c r =>
      if Ascii.eqb c sep then EmptyString :: split_on sep r
      else match split_on sep r with
           | p :: ps => String c p :: ps
           | [] => [String c EmptyString]
           end
  end.

Definition maskEmail (email : string) : string :=
  match split_on "@" email with
  | localPart :: domain :: _ =>
      if negb (truthy domain) then email
      else
        let masked := match localPart with
                      | String c _ => String c "***"
                      | EmptyString => "***"%string
                      end in
        (masked ++ "@" ++ domain)%string
  | _ => email
  end.

Definition getSubscriptionByToken (token : string) (domain : option string)
  : M (option Subscription.t) :=
  subscription <- query (fun d => option_map (with_page_components d)
                                    (find_by_token d token)) ;;
  match subscription with
  | None => ret None
  | Some (subscription, pg, comps) =>
    rejected <- domain_rejected domain pg ;;
    if rejected then ret None
    else
      p <- deref pg ;;
      ret (Some (Subscription.mk (PS.id subscription)
             (PS.pageId subscription) (Page.title p) (Page.slug p)
             (Page.customDomain p) (PS.channelType subscription)
             (match PS.email subscription with
              | Some e => if truthy e then Some (maskEmail e) else None
              | None => None
              end)
             (PS.webhookUrl subscription) None None
             (PS.acceptedAt subscription) (PS.unsubscribedAt subscription)
             comps))
  end.

(** The [where] clause of the pending-subscription lookup. *)
Definition is_pending_email (mail : string) (pid : Z) (r : PS.t) : bool :=
  col_eq_str (PS.email r) mail &&
  (PS.pageId r =? pid) &&
  String.eqb (PS.channelType r) "email" &&
  is_null (PS.unsubscribedAt r) &&
  is_null (PS.acceptedAt r).

Definition hasPendingUnexpiredSubscription (Date_now : Z) (email : string)
    (pageId : Z) : M bool :=
  existing <- query (fun d => find (is_pending_email (toLowerCase email)
                                      pageId) (pageSubscriber d)) ;;
  ret (match existing with
       | Some r => match PS.expiresAt r with
                   | Some e => Date_now <? e
                   | None => false
                   end
       | None => false
       end).

(** ** Public procedures of the router (api/src/router/pageSubscriber.ts)

    The handlers, on inputs that have passed the zod schemas: an input
    the schema refuses never reaches a handler, and a [domain] reaches it
    lowercased ([z.string().toLowerCase()]). *)

Inductive TRPCCode := BAD_REQUEST | NOT_FOUND.

(** The message of a [TRPCError]: a literal of the router, or the message
    of the service error it wraps. *)
Inductive TRPCMessage :=
| Literal (s : string)
| MessageOf (e : Error).

Inductive RouterError :=
| TRPCError (code : TRPCCode) (message : TRPCMessage)
| Uncaught (e : Error).

Definition Proc (A : Type) : Type := DB -> (RouterError + A) * DB.

(** The [subscription] object of a mutation's answer. *)
Record SubscriptionAnswer := mkAnswer
  { an_id : Z;
    an_acceptedAt : option Z;
    an_email : option string;
    an_pageSlug : option string;
    an_pageName : option string;
    an_componentIds : list Z }.

(** The answer of [getByToken]. *)
Record TokenAnswer := mkTokenAnswer
  { ta_id : Z;
    ta_email : option string;
    ta_pageName : string;
    ta_pageSlug : string;
    ta_customDomain : option string;
    ta_channelType : string;
    ta_componentIds : list Z;
    ta_acceptedAt : option Z;
    ta_unsubscribedAt : option Z }.

Module pageSubscriberRouter.

Definition upsert (Date_now : Z) (randomUUID : string)
    (input : UpsertEmailSubscriptionInput) : Proc SubscriptionAnswer :=
  fun d =>
    match hasPendingUnexpiredSubscription Date_now (in_email input)
            (in_pageId input) d with
    | (inl e, d1) => (inl (Uncaught e), d1)
    | (inr true, d1) =>
        (inl (TRPCError BAD_REQUEST
                (Literal "A confirmation link was already sent. Please check your email or wait until it expires to request a new one.")),
         d1)
    | (inr false, d1) =>
        match upsertEmailSubscription Date_now randomUUID input d1 with
        | (inr subscription, d2) =>
            (inr (mkAnswer (Subscription.id subscription)
                    (Subscription.acceptedAt subscription) None None None
                    (Subscription.componentIds subscription)), d2)
        | (inl error, d2) =>
            (inl (TRPCError BAD_REQUEST (MessageOf error)), d2)
        end
    end.

Definition verify (Date_now : Z) (token : string) (domain : option string)
  : Proc SubscriptionAnswer :=
  fun d =>
    match verifySubscription Date_now token (option_map toLowerCase domain) d
    with
    | (inr None, d1) =>
        (inl (TRPCError NOT_FOUND
                (Literal "Subscription not found or token invalid")), d1)
    | (inr (Some subscription), d1) =>
        (inr (mkAnswer (Subscription.id subscription) None
                (Subscription.email subscription)
                (Some (Subscription.pageSlug subscription))
                (Some (Subscription.pageName subscription))
                (Subscription.componentIds subscription)), d1)
    | (inl error, d1) => (inl (TRPCError BAD_REQUEST (MessageOf error)), d1)
    end.

Definition getByToken (token : string) (domain : option string)
  : Proc TokenAnswer :=
  fun d =>
    match getSubscriptionByToken token (option_map toLowerCase domain) d with
    | (inr None, d1) =>
        (inl (TRPCError NOT_FOUND (Literal "Subscription not found")), d1)
    | (inr (Some subscription), d1) =>
        (inr (mkTokenAnswer (Subscription.id subscription)
                (Subscription.email subscription)
                (Subscription.pageName subscription)
                (Subscription.pageSlug subscription)
                (Subscription.customDomain subscription)
                (Subscription.channelType subscription)
                (Subscription.componentIds subscription)
                (Subscription.acceptedAt subscription)
                (Subscription.unsubscribedAt subscription)), d1)
    | (inl error, d1) => (inl (Uncaught error), d1)
    end.

Definition updateScope (Date_now : Z) (input : UpdateSubscriptionScopeInput)
  : Proc SubscriptionAnswer :=
  fun d =>
    match updateSubscriptionScope Date_now
            (mkScope (sc_token input) (sc_componentIds input)
               (option_map toLowerCase (sc_domain input))) d with
    | (inr subscription, d1) =>
        (inr (mkAnswer (Subscription.id subscription) None None None None
                (Subscription.componentIds subscription)), d1)
    | (inl error, d1) => (inl (TRPCError BAD_REQUEST (MessageOf error)), d1)
    end.

Definition unsubscribe (Date_now : Z) (token : string)
    (domain : option string) : Proc unit :=
  fun d =>
    match unsubscribe Date_now token (option_map toLowerCase domain) d with
    | (inr tt, d1) => (inr tt, d1)
    | (inl error, d1) => (inl (TRPCError BAD_REQUEST (MessageOf error)), d1)
    end.

End pageSubscriberRouter.

(** ** Notions used by the further properties *)

(** The character occurs in the string. *)
Fixpoint has_char (c : ascii) (s : string) : bool :=
  match s with
  | EmptyString => false
  | String x r => Ascii.eqb x c || has_char c r
  end.

(** What [maskEmail] shows of a local part: its first character, if any,
    and three stars. *)
Definition mask_local (localPart : string) : string :=
  match localPart with
  | String c _ => String c "***"
  | EmptyString => "***"%string
  end.

(** No two rows of the table carry the same token. *)
Definition token_unique (rows : list PS.t) : Prop :=
  forall n1 n2 r1 r2 t,
    nth_error rows n1 = Some r1 -> nth_error rows n2 = Some r2 ->
    PS.token r1 = Some t -> PS.token r2 = Some t -> n1 = n2.

(** The address as [getSubscriptionByToken] shows it. *)
Definition shown_email (e : option string) : option string :=
  match e with
  | Some a => if truthy a then Some (maskEmail a) else None
  | None => None
  end.

(** ** Runs of the lifecycle manager *)

(** One call of a lifecycle function, with any arguments and whether it
    returns or throws, takes the store to the store it leaves. *)
Inductive lifecycle_step (d : DB) : DB -> Prop :=
| step_upsert now uuid input :
    lifecycle_step d (snd (upsertEmailSubscription now uuid input d))
| step_verify now tok dom :
    lifecycle_step d (snd (verifySubscription now tok dom d))
| step_updateScope now input :
    lifecycle_step d (snd (updateSubscriptionScope now input d))
| step_unsubscribe now tok dom :
    lifecycle_step d (snd (unsubscribe now tok dom d)).

(** Any number of such calls, one after the other. *)
Inductive lifecycle_run (d : DB) : DB -> Prop :=
| run_done : lifecycle_run d d
| run_more d1 d2 :
    lifecycle_run d d1 -> lifecycle_step d1 d2 -> lifecycle_run d d2.

(** Composite primary key of the link table. *)
Definition pk_link (d : DB) : Prop := NoDup (pageSubscriberToPageComponent d).

(** Every link joins a stored subscriber to a component of the page the
    subscriber is subscribed to. *)
Definition links_on_page (d : DB) : Prop :=
  forall l, In l (pageSubscriberToPageComponent d) ->
    exists r, In r (pageSubscriber d) /\
              PS.id r = PSC.pageSubscriberId l /\
              on_page d (PS.pageId r) (PSC.pageComponentId l).

(** The keys, references and the one-active-row rule together. *)
Definition store_ok (d : DB) : Prop :=
  pk_subscriber d /\ pk_component d /\ pk_link d /\
  active_unique (pageSubscriber d) /\
  fk_subscriber_page d /\ links_on_page d.

(** The columns of a subscriber row that say who is subscribed to what. *)
Definition same_subscriber (r r' : PS.t) : Prop :=
  PS.id r' = PS.id r /\ PS.email r' = PS.email r /\
  PS.pageId r' = PS.pageId r /\ PS.channelType r' = PS.channelType r /\
  PS.webhookUrl r' = PS.webhookUrl r /\
  PS.channelConfig r' = PS.channelConfig r /\
  PS.token r' = PS.token r /\ PS.createdAt r' = PS.createdAt r.

(** A later state of the same row: who is subscribed to what is as before,
    and a date of acceptance or of unsubscription, once there, stays. *)
Definition row_evolves (r r' : PS.t) : Prop :=
  same_subscriber r r' /\
  (PS.acceptedAt r <> None -> PS.acceptedAt r' = PS.acceptedAt r) /\
  (PS.unsubscribedAt r <> None ->
   PS.unsubscribedAt r' = PS.unsubscribedAt r).

Definition table_evolves (rows rows' : list PS.t) : Prop :=
  forall n r, nth_error rows n = Some r ->
    exists r', nth_error rows' n = Some r' /\ row_evolves r r'.

(** An update [f] as the lifecycle applies it to the row [r]. *)
Definition touch (r : PS.t) (f : PS.t -> PS.t) : Prop :=
  (forall a, same_subscriber a (f a) /\
             (PS.unsubscribedAt (f a) = None -> PS.unsubscribedAt a = None))
  /\
  (PS.acceptedAt r <> None -> PS.acceptedAt (f r) = PS.acceptedAt r) /\
  (PS.unsubscribedAt r <> None ->
   PS.unsubscribedAt (f r) = PS.unsubscribedAt r).

(** What one lifecycle call may do to the store. *)
Definition step_shape (d d' : DB) : Prop :=
  page d' = page d /\ pageComponent d' = pageComponent d /\
  (pageSubscriber d' = pageSubscriber d \/
   (exists r f, In r (pageSubscriber d) /\ touch r f /\
                pageSubscriber d' =
                update_rows f (PS.id r) (pageSubscriber d)) \/
   (exists n, pageSubscriber d' = pageSubscriber d ++ [n] /\
              PS.id n = next_id (pageSubscriber d) /\
              PS.channelType n = "email"%string /\
              (exists mail, PS.email n = Some mail) /\
              existsb (fun r => email_idx_clash r n) (pageSubscriber d)
                = false /\
              find_page d (PS.pageId n) <> None)) /\
  (NoDup (pageSubscriberToPageComponent d) ->
   NoDup (pageSubscriberToPageComponent d')) /\
  (forall l, In l (pageSubscriberToPageComponent d') ->
     In l (pageSubscriberToPageComponent d) \/
     exists r, In r (pageSubscriber d') /\
               PS.id r = PSC.pageSubscriberId l /\
               on_page d (PS.pageId r) (PSC.pageComponentId l)).

(** ** Notions used for the sends of a dispatch *)

Definition is_email_batch (e : Effect) : bool :=
  match e with EmailBatch _ => true | _ => false end.

Definition is_post (e : Effect) : bool :=
  match e with HttpPost _ _ => true | _ => false end.

(** [acc[k]] on the object built by the reduce of the dispatcher. *)
Definition group_of (k : string) (acc : list (string * list Subscription.t))
  : option (list Subscription.t) :=
  option_map snd (find (fun e => String.eqb (fst e) k) acc).

Definition on_channel (k : string) (s : Subscription.t) : bool :=
  String.eqb k (Subscription.channelType s).

(** The email subscriptions a dispatch writes to: those selected for the
    update that have an address and a token. *)
Definition email_audience (d : DB) (pg : Page.t) (pu : PageUpdate.t)
  : list Subscription.t :=
  filter hasEmailAndToken
    (filter (on_channel "email") (matchingSubscriptions d pg pu)).

(** The headers of the POST to a webhook subscriber: the defaults, with
    the pairs of the parsed configuration laid over them in order. *)
Definition request_headers (w : World) (sub : Subscription.t)
  : list (string * string) :=
  match snd (parse_channelConfig w sub) with
  | HeadersPairs hs =>
      fold_left (fun acc h => set_header acc (fst h) (snd h)) hs
        default_headers
  | _ => default_headers
  end.

(** [headers[k]] on the object a request is sent with. *)
Definition get_header (hs : list (string * string)) (k : string)
  : option string :=
  option_map snd (find (fun h => String.eqb (fst h) k) hs).

(** A channel configuration with three header names: the first replaces
    a default, the second is "__proto__", the third is given twice. *)
Definition ex_world_headers : World :=
  mkWorld (fun _ _ => FetchOk) (fun _ => Resolved) None false
    (fun _ => Some (HeadersPairs
                      [("Content-Type", "text/plain"); ("__proto__", "x");
                       ("X-Key", "one"); ("X-Key", "two")]%string)).

Definition ex_hook_configured : Subscription.t :=
  Subscription.mk 11 1 "Status" "status" None "webhook" None
    (Some "https://one.example/hook"%string) (Some "{...}"%string)
    (Some "tok"%string) (Some 1000) None [].

(** ** Proof automation *)

(** Unfold the monad and the store primitives of a service function. *)
Ltac svc_unfold :=
  unfold when, insert_links_onConflictDoNothing, insert_links, delete_links,
    update_pageSubscriber, deref, transaction, write, bind, query, ret,
    throw.

(** Split a goal along every branch of the code it contains. *)
Ltac split_paths :=
  repeat match goal with
         | |- context [match ?x with _ => _ end] =>
             lazymatch x with
             | context [match _ with _ => _ end] => fail
             | _ => destruct x eqn:?; cbn [fst snd option_map]
             end
         end.

(** * Properties *)

(** ** Lists and strings *)

Lemma includes_In (l : list Z) (x : Z) : includes l x = true <-> In x l.
Proof.
  unfold includes. rewrite existsb_exists. split.
  - intros [y [Hy Heq]]. apply Z.eqb_eq in Heq. now subst.
  - intros H. exists x. split; [assumption | apply Z.eqb_refl].
Qed.

Lemma includes_false (l : list Z) (x : Z) :
  includes l x = false <-> ~ In x l.
Proof.
  rewrite <- includes_In. destruct (includes l x); split; congruence.
Qed.

Lemma nonempty_false {A} (l : list A) : nonempty l = false <-> l = [].
Proof. destruct l; simpl; split; congruence. Qed.

Lemma length_zero_eqb {A} (l : list A) :
  Nat.eqb (List.length l) 0 = true <-> l = [].
Proof.
  destruct l; simpl; split; try congruence; reflexivity.
Qed.

Lemma is_some_true {A} (o : option A) : is_some o = true <-> o <> None.
Proof. destruct o; simpl; split; congruence. Qed.

Lemma is_null_true {A} (o : option A) : is_null o = true <-> o = None.
Proof. destruct o; unfold is_null; simpl; split; congruence. Qed.

(** ** The dispatcher's selection *)

Lemma scope_matches_spec (aff : list Z) (s : Subscription.t) :
  scope_matches aff s = true <->
  Subscription.componentIds s = [] \/
  exists c, In c (Subscription.componentIds s) /\ In c aff.
Proof.
  unfold scope_matches.
  destruct (Nat.eqb (List.length (Subscription.componentIds s)) 0) eqn:E.
  - apply length_zero_eqb in E. tauto.
  - split.
    + intros H. right. apply existsb_exists in H.
      destruct H as [c [Hc Hi]]. apply includes_In in Hi. eauto.
    + intros [H | [c [H1 H2]]].
      * apply length_zero_eqb in H. congruence.
      * apply existsb_exists. exists c. split; [assumption|].
        now apply includes_In.
Qed.

Lemma accepted_active_on_spec (pid : Z) (r : PS.t) :
  accepted_active_on pid r = true <->
  PS.pageId r = pid /\ PS.acceptedAt r <> None /\ PS.unsubscribedAt r = None.
Proof.
  unfold accepted_active_on.
  rewrite !andb_true_iff, Z.eqb_eq, is_some_true, is_null_true. tauto.
Qed.

Lemma push_own_in acc x s :
  in_groups (push_own acc x) s <-> s = x \/ in_groups acc s.
Proof.
  unfold in_groups. induction acc as [|[k v] r IH]; simpl.
  - split.
    + intros [ct [g [[H|[]] Hs]]]. inversion H; subst.
      destruct Hs as [Hs|[]]. now left.
    + intros [->|[ct [g [[] _]]]].
      exists (Subscription.channelType x), [x]. simpl. auto.
  - destruct (String.eqb k (Subscription.channelType x)).
    + split.
      * intros [ct [g [[H|H] Hs]]].
        -- inversion H; subst. apply in_app_or in Hs.
           destruct Hs as [Hs|[Hs|[]]]; [right|left; now subst].
           exists ct, v. simpl. auto.
        -- right. exists ct, g. simpl. auto.
      * intros [->|[ct [g [[H|H] Hs]]]].
        -- exists k, (v ++ [x]). split; [now left|].
           apply in_or_app. right. now left.
        -- inversion H; subst. exists ct, (g ++ [x]).
           split; [now left|]. apply in_or_app. now left.
        -- exists ct, g. simpl. auto.
    + split.
      * intros [ct [g [[H|H] Hs]]].
        -- right. exists ct, g. simpl. auto.
        -- assert (Hx : s = x \/ in_groups r s).
           { apply IH. exists ct, g. auto. }
           destruct Hx as [->|[ct' [g' [H1 H2]]]]; [now left|].
           right. exists ct', g'. simpl. auto.
      * intros [->|[ct [g [[H|H] Hs]]]].
        -- assert (Hx : in_groups (push_own r x) x) by (apply IH; now left).
           destruct Hx as [ct [g [H1 H2]]]. exists ct, g. simpl. auto.
        -- exists ct, g. simpl. auto.
        -- assert (Hx : in_groups (push_own r x) s).
           { apply IH. right. exists ct, g. auto. }
           destruct Hx as [ct' [g' [H1 H2]]]. exists ct', g'. simpl. auto.
Qed.

Lemma fold_push_own_in subs : forall acc s,
  in_groups (fold_left push_own subs acc) s <->
  In s subs \/ in_groups acc s.
Proof.
  induction subs as [|x r IH]; intros acc s; simpl.
  - tauto.
  - rewrite IH, push_own_in. intuition congruence.
Qed.

Lemma grouped_in subs s : in_groups (grouped subs) s <-> In s subs.
Proof.
  unfold grouped. rewrite fold_push_own_in. unfold in_groups. simpl.
  split; [intros [H|[ct [g [[] _]]]]; assumption | auto].
Qed.

Lemma fold_group_push_thrown (subs : list Subscription.t) e :
  fold_left (fun acc sub => match acc with
                            | inr a => group_push a sub
                            | inl e => inl e
                            end)
            subs (inl e) = inl e.
Proof. induction subs as [|x r IH]; simpl; [reflexivity|exact IH]. Qed.

Lemma fold_group_push_value subs : forall acc,
  fold_left (fun acc sub => match acc with
                            | inr a => group_push a sub
                            | inl e => inl e
                            end)
            subs (inr acc) =
  if existsb (fun s => inherited (Subscription.channelType s)) subs
  then inl TypeError
  else inr (fold_left push_own subs acc).
Proof.
  induction subs as [|x r IH]; intros acc; simpl; [reflexivity|].
  unfold group_push at 2.
  destruct (inherited (Subscription.channelType x)); simpl.
  - apply fold_group_push_thrown.
  - apply IH.
Qed.

(** The reduce throws exactly when a subscription has an inherited name
    for channel type; otherwise it builds the groups. *)
Lemma byChannel_value subs :
  byChannel subs =
  if existsb (fun s => inherited (Subscription.channelType s)) subs
  then inl TypeError
  else inr (grouped subs).
Proof. apply fold_group_push_value. Qed.

Lemma own_types_existsb subs :
  (forall s, In s subs -> inherited (Subscription.channelType s) = false) ->
  existsb (fun s => inherited (Subscription.channelType s)) subs = false.
Proof.
  intros H. destruct (existsb _ subs) eqn:E; [|reflexivity].
  apply existsb_exists in E. destruct E as [s [Hs Hi]].
  rewrite (H s Hs) in Hi. discriminate.
Qed.

Lemma own_channel_types_matching d pu pageData :
  find_page d (PageUpdate.pageId pu) = Some pageData ->
  own_channel_types d pu ->
  byChannel (matchingSubscriptions d pageData pu) =
  inr (grouped (matchingSubscriptions d pageData pu)).
Proof.
  intros Hp H. rewrite byChannel_value, own_types_existsb; [reflexivity|].
  intros s Hs. apply H. exists pageData. auto.
Qed.

(** The CHECK constraint leaves no room for an inherited name. *)
Lemma channel_checked_own_types d pu :
  channel_checked d -> own_channel_types d pu.
Proof.
  intros Hc s [pageData [_ Hs]].
  unfold matchingSubscriptions in Hs. apply filter_In in Hs.
  destruct Hs as [Hs _]. apply in_map_iff in Hs.
  destruct Hs as [r [<- Hr]]. apply filter_In in Hr. destruct Hr as [Hr _].
  specialize (Hc r Hr). unfold channelCheck in Hc. simpl.
  apply orb_true_iff in Hc.
  destruct Hc as [Hc|Hc]; rewrite !andb_true_iff in Hc;
    destruct Hc as [[Hc _] _]; apply String.eqb_eq in Hc; rewrite Hc;
    reflexivity.
Qed.

Lemma fold_push_own_key subs : forall acc k,
  In k (map fst (fold_left push_own subs acc)) ->
  In k (map fst acc) \/
  exists s, In s subs /\ Subscription.channelType s = k.
Proof.
  induction subs as [|x r IH]; intros acc k H; simpl in *; [now left|].
  apply IH in H. destruct H as [H|[s [Hs Hk]]].
  - assert (Hx : k = Subscription.channelType x \/ In k (map fst acc)).
    { clear IH. induction acc as [|[a v] t IHt]; simpl in *.
      - destruct H as [H|[]]. now left.
      - destruct (String.eqb a (Subscription.channelType x)); simpl in H.
        + now right.
        + destruct H as [H|H]; [right; now left|].
          destruct (IHt H) as [E|E]; [now left|right; now right]. }
    destruct Hx as [->|Hx]; [right; exists x; auto|now left].
  - right. exists s. auto.
Qed.

Lemma schema_rows_checked d : schema_rows d -> channel_checked d.
Proof. intros H r Hr. now apply H. Qed.

(** Under the constraints of the table every selected subscription is an
    email subscription. *)
Lemma schema_rows_email d pu s :
  schema_rows d -> selected d pu s ->
  Subscription.channelType s = "email"%string.
Proof.
  intros Hc [pageData [_ Hs]].
  unfold matchingSubscriptions in Hs. apply filter_In in Hs.
  destruct Hs as [Hs _]. apply in_map_iff in Hs.
  destruct Hs as [r [<- Hr]]. apply filter_In in Hr. destruct Hr as [Hr _].
  destruct (Hc r Hr) as [Hn Hk]. unfold channelCheck in Hk. simpl.
  apply orb_true_iff in Hk.
  destruct Hk as [Hk|Hk]; rewrite !andb_true_iff in Hk.
  - destruct Hk as [[Hk _] _]. now apply String.eqb_eq in Hk.
  - destruct Hk as [_ Hk]. congruence.
Qed.

Lemma matchingSubscriptions_spec d pageData pu s :
  In s (matchingSubscriptions d pageData pu) <->
  exists r, In r (pageSubscriber d) /\
            s = to_subscription d pageData r /\ spec_matches d pu r.
Proof.
  unfold matchingSubscriptions, spec_matches.
  rewrite filter_In, in_map_iff, scope_matches_spec. split.
  - intros [[r [Hs Hr]] Hm]. apply filter_In in Hr. destruct Hr as [Hin Ha].
    apply accepted_active_on_spec in Ha. exists r. subst s. simpl in Hm.
    intuition.
  - intros [r [Hin [-> [Hp [Ha [Hu Hm]]]]]]. split.
    + exists r. split; [reflexivity|]. apply filter_In. split; [assumption|].
      apply accepted_active_on_spec. auto.
    + simpl. exact Hm.
Qed.

Lemma dispatch_groups_own d pu pageData :
  find_page d (PageUpdate.pageId pu) = Some pageData ->
  own_channel_types d pu ->
  dispatch_groups d pu = grouped (matchingSubscriptions d pageData pu).
Proof.
  intros Hp H. unfold dispatch_groups.
  now rewrite Hp, (@own_channel_types_matching d pu pageData Hp H).
Qed.

Lemma dispatchPageUpdate_unfold d w pu pageData :
  find_page d (PageUpdate.pageId pu) = Some pageData ->
  own_channel_types d pu ->
  dispatchPageUpdate d w pu =
  if Nat.eqb (List.length (matchingSubscriptions d pageData pu)) 0
  then ([ConsoleLog "No matching subscriptions"], Resolved)
  else allSettled (map (channel_task w pu) (dispatch_groups d pu)).
Proof.
  intros Hp H. rewrite (@dispatch_groups_own d pu pageData Hp H).
  unfold dispatchPageUpdate.
  now rewrite Hp, (@own_channel_types_matching d pu pageData Hp H).
Qed.

(** A selected subscription with an inherited name for channel type makes
    the dispatch reject before any channel is called. *)
Lemma dispatchPageUpdate_throws d w pu s :
  selected d pu s -> inherited (Subscription.channelType s) = true ->
  dispatchPageUpdate d w pu = ([], Rejected).
Proof.
  intros [pageData [Hp Hs]] Hi. unfold dispatchPageUpdate. rewrite Hp.
  cbv zeta. rewrite byChannel_value.
  assert (He : existsb (fun s => inherited (Subscription.channelType s))
                 (matchingSubscriptions d pageData pu) = true)
    by (apply existsb_exists; exists s; auto).
  rewrite He.
  destruct (matchingSubscriptions d pageData pu); [destruct Hs|reflexivity].
Qed.

Lemma selected_spec d pu s :
  selected d pu s <->
  exists pageData r,
    find_page d (PageUpdate.pageId pu) = Some pageData /\
    In r (pageSubscriber d) /\
    s = to_subscription d pageData r /\ spec_matches d pu r.
Proof.
  unfold selected. split.
  - intros [pageData [Hp Hs]]. apply matchingSubscriptions_spec in Hs.
    destruct Hs as [r H]. exists pageData, r. tauto.
  - intros [pageData [r [Hp H]]]. exists pageData. split; [exact Hp|].
    apply matchingSubscriptions_spec. exists r. exact H.
Qed.

Lemma in_dispatch_groups_own d pu s :
  own_channel_types d pu ->
  (in_groups (dispatch_groups d pu) s <-> selected d pu s).
Proof.
  intros Hown.
  destruct (find_page d (PageUpdate.pageId pu)) as [pageData|] eqn:Hp.
  - rewrite (@dispatch_groups_own d pu pageData Hp Hown), grouped_in.
    unfold selected. rewrite Hp. split.
    + intros H. exists pageData. auto.
    + intros [pd [E H]]. inversion E; subst pd. exact H.
  - unfold dispatch_groups, selected. rewrite Hp. split.
    + intros [ct [g [[] _]]].
    + intros [pd [E _]]. discriminate.
Qed.

(** Under the constraints of the table the only channel group is the
    email group. *)
Lemma schema_rows_groups d pu ct subs :
  schema_rows d -> In (ct, subs) (dispatch_groups d pu) ->
  ct = "email"%string.
Proof.
  intros Hc Hin.
  assert (Hown : own_channel_types d pu)
    by (apply channel_checked_own_types; now apply schema_rows_checked).
  destruct (find_page d (PageUpdate.pageId pu)) as [pageData|] eqn:Hp.
  - rewrite (@dispatch_groups_own d pu pageData Hp Hown) in Hin.
    assert (Hk : In ct (map fst (grouped (matchingSubscriptions d pageData pu))))
      by (apply in_map_iff; exists (ct, subs); auto).
    apply fold_push_own_key in Hk. destruct Hk as [[]|[s [Hs <-]]].
    apply (@schema_rows_email d pu s Hc). exists pageData. auto.
  - unfold dispatch_groups in Hin. rewrite Hp in Hin. destruct Hin.
Qed.

(** C1. The subscriptions that dispatchPageUpdate selects are exactly the
    projections of the subscriber rows of the event's page that are
    accepted, not unsubscribed, and whose component set is empty or meets
    the event's affected components (the page row supplying the display
    attributes of the projection); with every subscriber's page stored,
    each such row is selected; a selected subscription with a non-empty
    scope always shares a component with the event; and, no selected
    channel type being an inherited property name (the CHECK constraint
    of the table sees to that), the selected subscriptions are those of
    the channel groups, which are what the channels are called with. *)
Theorem dispatchPageUpdate_selects_matching d pu :
  (forall s, selected d pu s <->
     exists pageData r,
       find_page d (PageUpdate.pageId pu) = Some pageData /\
       In r (pageSubscriber d) /\
       s = to_subscription d pageData r /\ spec_matches d pu r) /\
  (fk_subscriber_page d ->
   forall r, In r (pageSubscriber d) -> spec_matches d pu r ->
     exists pageData,
       find_page d (PageUpdate.pageId pu) = Some pageData /\
       selected d pu (to_subscription d pageData r)) /\
  (forall s, selected d pu s ->
     Subscription.componentIds s <> [] ->
     exists c, In c (Subscription.componentIds s) /\
               In c (PageUpdate.pageComponentIds pu)) /\
  (own_channel_types d pu ->
   (forall s, in_groups (dispatch_groups d pu) s <-> selected d pu s) /\
   forall w pageData,
     find_page d (PageUpdate.pageId pu) = Some pageData ->
     dispatchPageUpdate d w pu =
     if Nat.eqb (List.length (matchingSubscriptions d pageData pu)) 0
     then ([ConsoleLog "No matching subscriptions"], Resolved)
     else allSettled (map (channel_task w pu) (dispatch_groups d pu))).
Proof.
  pose proof (selected_spec d pu) as H1.
  split; [exact H1|]. split; [|split].
  - intros Hfk r Hin Hm.
    destruct (find_page d (PageUpdate.pageId pu)) as [pageData|] eqn:Hp.
    + exists pageData. split; [reflexivity|]. apply H1.
      exists pageData, r. auto.
    + exfalso. apply (Hfk r Hin). destruct Hm as [Hpage _].
      now rewrite Hpage.
  - intros s Hs Hne. apply H1 in Hs.
    destruct Hs as [pageData [r [Hp [Hin [-> Hm]]]]].
    destruct Hm as [_ [_ [_ [Hm|Hm]]]]; [|exact Hm].
    simpl in Hne. contradiction.
  - intros Hown. split.
    + intros s. now apply in_dispatch_groups_own.
    + intros w pageData Hp. now apply dispatchPageUpdate_unfold.
Qed.

(** Every row of the sample store passes the CHECK constraint. *)
Lemma ex_db_channel_checked : channel_checked ex_db.
Proof. intros r [<-|[<-|[<-|[]]]]; reflexivity. Qed.

Lemma ex_db_schema_rows : schema_rows ex_db.
Proof. intros r [<-|[<-|[<-|[]]]]; split; reflexivity. Qed.

(** The scenario of the specification: an event on component 1 reaches A
    and B and not C, and A and B are in the groups the channels get. *)
Lemma dispatchPageUpdate_selects_matching_witness :
  fk_subscriber_page ex_db /\
  own_channel_types ex_db (ex_update [1]) /\
  find_page ex_db (PageUpdate.pageId (ex_update [1])) = Some ex_page /\
  selected ex_db (ex_update [1]) (to_subscription ex_db ex_page ex_rowA) /\
  selected ex_db (ex_update [1]) (to_subscription ex_db ex_page ex_rowB) /\
  ~ selected ex_db (ex_update [1]) (to_subscription ex_db ex_page ex_rowC) /\
  in_groups (dispatch_groups ex_db (ex_update [1]))
            (to_subscription ex_db ex_page ex_rowB).
Proof.
  assert (Hfk : fk_subscriber_page ex_db)
    by (intros r [<-|[<-|[<-|[]]]]; discriminate).
  assert (Hown : own_channel_types ex_db (ex_update [1]))
    by (apply channel_checked_own_types; exact ex_db_channel_checked).
  split; [exact Hfk|]. split; [exact Hown|]. split; [reflexivity|].
  destruct (dispatchPageUpdate_selects_matching ex_db (ex_update [1]))
    as [_ [H1 [H2 H3]]].
  assert (HA : spec_matches ex_db (ex_update [1]) ex_rowA).
  { unfold spec_matches. cbv. repeat split; try congruence. now left. }
  assert (HB : spec_matches ex_db (ex_update [1]) ex_rowB).
  { unfold spec_matches. cbv. repeat split; try congruence.
    right. exists 1. auto. }
  assert (SB : selected ex_db (ex_update [1])
                 (to_subscription ex_db ex_page ex_rowB)).
  { destruct (H1 Hfk ex_rowB (or_intror (or_introl eq_refl)) HB)
      as [pd [E G]].
    inversion E; subst pd. exact G. }
  split; [|split; [exact SB|split]].
  - destruct (H1 Hfk ex_rowA (or_introl eq_refl) HA) as [pd [E G]].
    inversion E; subst pd. exact G.
  - intros Hc. apply H2 in Hc; [|cbv; congruence].
    destruct Hc as [c [Hc1 Hc2]]. cbv in Hc1, Hc2.
    destruct Hc1 as [<-|[]]. destruct Hc2 as [Hc2|[]]. discriminate.
  - destruct (H3 Hown) as [Hg _]. now apply Hg.
Defined.

(** ** Failure isolation of the dispatcher and of the webhook channel *)

Lemma filter_concat {A} (p : A -> bool) (ls : list (list A)) :
  filter p (List.concat ls) = List.concat (map (filter p) ls).
Proof.
  induction ls as [|l r IH]; simpl; [reflexivity|].
  now rewrite filter_app, IH.
Qed.

Lemma sends_of_allSettled (tasks : list Task) :
  sends_of (allSettled tasks) = List.concat (map sends_of tasks).
Proof.
  unfold sends_of, allSettled. simpl. rewrite filter_concat, map_map.
  reflexivity.
Qed.

Lemma mapi_from_ext {A B} (f g : nat -> A -> B) (l : list A) : forall k,
  (forall n x, f n x = g n x) -> mapi_from f k l = mapi_from g k l.
Proof.
  induction l as [|x r IH]; intros k H; simpl; [reflexivity|].
  now rewrite H, (IH (S k) H).
Qed.

Lemma mapi_from_map {A B C} (h : B -> C) (f : nat -> A -> B) (l : list A) :
  forall k, map h (mapi_from f k l) = mapi_from (fun n x => h (f n x)) k l.
Proof.
  induction l as [|x r IH]; intros k; simpl; [reflexivity|].
  now rewrite IH.
Qed.

Lemma mapi_from_nth {A B} (f : nat -> A -> B) (l : list A) : forall k n x,
  nth_error l n = Some x ->
  nth_error (mapi_from f k l) n = Some (f (k + n)%nat x).
Proof.
  induction l as [|y r IH]; intros k n x H.
  - destruct n; discriminate.
  - destruct n as [|n]; simpl in *.
    + inversion H; subst. now rewrite Nat.add_0_r.
    + rewrite (IH (S k) n x H). f_equal. f_equal. lia.
Qed.

Lemma webhook_task_sends w f s pu n sub :
  sends_of (webhook_task (with_outcomes w f s) pu n sub) =
  sends_of (webhook_task w pu n sub).
Proof.
  unfold sends_of, webhook_task.
  change (parse_channelConfig (with_outcomes w f s) sub)
    with (parse_channelConfig w sub).
  destruct (parse_channelConfig w sub) as [l c]. simpl.
  destruct c; simpl; try reflexivity;
    match goal with
    | |- context [f n ?r] =>
        destruct (f n r); destruct (fetch w n r); simpl;
        rewrite !filter_app; reflexivity
    end.
Qed.

Lemma sendWebhookNotifications_sends w f s pu subs :
  sends_of (sendWebhookNotifications subs pu (with_outcomes w f s)) =
  sends_of (sendWebhookNotifications subs pu w).
Proof.
  unfold sendWebhookNotifications.
  destruct (negb (nonempty (filter hasWebhookUrl subs))); [reflexivity|].
  rewrite !sends_of_allSettled, !mapi_from_map. f_equal.
  apply mapi_from_ext. intros. apply webhook_task_sends.
Qed.

Lemma sendEmailNotifications_sends w f s pu subs :
  sends_of (sendEmailNotifications subs pu (with_outcomes w f s)) =
  sends_of (sendEmailNotifications subs pu w).
Proof.
  unfold sendEmailNotifications.
  destruct (negb (nonempty subs)); [reflexivity|].
  destruct (filter hasEmailAndToken subs) as [|first rest]; [reflexivity|].
  change (getEmailClient (with_outcomes w f s)) with (getEmailClient w).
  destruct (getEmailClient w); reflexivity.
Qed.

Lemma channel_wrap_sends (t : Task) :
  sends_of (match t with
            | (eff, Resolved) =>
                (eff ++ [ConsoleLog "Sent notifications"], Resolved)
            | (eff, Rejected) =>
                (eff ++ [ConsoleError "Failed to send notifications"],
                 Resolved)
            end) = sends_of t.
Proof.
  destruct t as [eff [|]]; unfold sends_of; simpl;
    rewrite filter_app; simpl; apply app_nil_r.
Qed.

Lemma channel_task_sends w f s pu g :
  sends_of (channel_task (with_outcomes w f s) pu g) =
  sends_of (channel_task w pu g).
Proof.
  destruct g as [ct subs]. unfold channel_task, getChannel.
  destruct (String.eqb ct "email").
  - simpl. rewrite !channel_wrap_sends. apply sendEmailNotifications_sends.
  - destruct (String.eqb ct "webhook"); [|reflexivity].
    simpl. rewrite !channel_wrap_sends.
    apply sendWebhookNotifications_sends.
Qed.

Lemma dispatchPageUpdate_sends d w f s pu :
  sends_of (dispatchPageUpdate d (with_outcomes w f s) pu) =
  sends_of (dispatchPageUpdate d w pu).
Proof.
  unfold dispatchPageUpdate.
  destruct (find_page d (PageUpdate.pageId pu)) as [pageData|];
    [|reflexivity].
  cbv zeta. destruct (Nat.eqb _ 0); [reflexivity|].
  destruct (byChannel (matchingSubscriptions d pageData pu)) as [e|groups];
    [reflexivity|].
  rewrite !sends_of_allSettled, !map_map. f_equal.
  apply map_ext. intros g. apply channel_task_sends.
Qed.

Lemma dispatchPageUpdate_resolves d w pu :
  own_channel_types d pu ->
  snd (dispatchPageUpdate d w pu) = Resolved.
Proof.
  intros Hown. unfold dispatchPageUpdate.
  destruct (find_page d (PageUpdate.pageId pu)) as [pageData|] eqn:Hp;
    [|reflexivity].
  cbv zeta. destruct (Nat.eqb _ 0); [reflexivity|].
  now rewrite (@own_channel_types_matching d pu pageData Hp Hown).
Qed.

Lemma dispatch_groups_effects d w pu g :
  In g (dispatch_groups d pu) ->
  incl (fst (channel_task w pu g)) (fst (dispatchPageUpdate d w pu)).
Proof.
  unfold dispatch_groups, dispatchPageUpdate.
  destruct (find_page d (PageUpdate.pageId pu)) as [pageData|];
    [|intros []].
  destruct (matchingSubscriptions d pageData pu) as [|m ms] eqn:E;
    [intros []|].
  cbv zeta. cbn [List.length Nat.eqb].
  destruct (byChannel (m :: ms)) as [err|groups]; [intros []|].
  intros Hg e He. simpl. apply in_concat.
  exists (fst (channel_task w pu g)). split; [|assumption].
  rewrite map_map. apply in_map_iff. exists g. auto.
Qed.

Lemma webhook_task_posts w pu n sub :
  snd (parse_channelConfig w sub) <> HeadersThrow ->
  exists req,
    Some (rq_url req) =
      Some (match Subscription.webhookUrl sub with
            | Some u => u | None => EmptyString end) /\
    rq_body req = webhook_payload sub pu /\
    In (HttpPost n req) (fst (webhook_task w pu n sub)).
Proof.
  intros Hc. unfold webhook_task.
  destruct (parse_channelConfig w sub) as [l c]. simpl in *.
  destruct c as [|hs|]; [| |congruence];
    match goal with
    | |- context [fetch w n ?r] =>
        exists r; split; [reflexivity|]; split; [reflexivity|];
        destruct (fetch w n r); simpl; apply in_or_app; right; simpl; auto
    end.
Qed.

Lemma sendWebhookNotifications_posts w pu subs n sub :
  nth_error (filter hasWebhookUrl subs) n = Some sub ->
  snd (parse_channelConfig w sub) <> HeadersThrow ->
  exists req,
    Some (rq_url req) = Subscription.webhookUrl sub /\
    rq_body req = webhook_payload sub pu /\
    In (HttpPost n req) (fst (sendWebhookNotifications subs pu w)).
Proof.
  intros Hn Hc. unfold sendWebhookNotifications.
  destruct (filter hasWebhookUrl subs) as [|v vs] eqn:E.
  - destruct n; discriminate.
  - assert (Hu : hasWebhookUrl sub = true).
    { apply nth_error_In in Hn. rewrite <- E in Hn.
      apply filter_In in Hn. tauto. }
    destruct (webhook_task_posts w pu n sub Hc) as [req [H1 [H2 H3]]].
    exists req. split; [|split; [assumption|]].
    + unfold hasWebhookUrl in Hu.
      destruct (Subscription.webhookUrl sub); [assumption|discriminate].
    + cbn [negb nonempty allSettled fst]. apply in_concat.
      exists (fst (webhook_task w pu n sub)). split; [|assumption].
      apply in_map. apply nth_error_In with (n := n).
      now rewrite (mapi_from_nth _ _ 0 n Hn).
Qed.

(** C2. Whatever the event and the outcomes of the sends, on stored data
    in which no selected subscriber has an inherited property name for
    channel type (the CHECK constraint of the table admits "email" and
    "webhook" only; with such a name the reduce that groups the
    subscribers throws, see [dispatchPageUpdate_throws]):
    dispatchPageUpdate resolves.  On any data: the sends
    it issues (email batch calls and webhook POSTs) are the same under
    every other assignment of outcomes to the POSTs and to the email call,
    so no failure suppresses a send; every channel group runs, a known
    channel's effects all being part of the run and an unknown channel
    type leaving only its error line; and a webhook batch resolves and
    issues a POST to each subscriber that has a URL and a usable
    configuration, at its place in the batch.  On rows that satisfy the
    constraints of the table (email NOT NULL and the CHECK) the dispatch
    resolves and the email group is the only group there is, so that the
    clauses on other groups then speak of no group at all. *)
Theorem dispatchPageUpdate_isolates_failures d w pu :
  (own_channel_types d pu ->
   snd (dispatchPageUpdate d w pu) = Resolved) /\
  (forall f s,
     sends_of (dispatchPageUpdate d (with_outcomes w f s) pu) =
     sends_of (dispatchPageUpdate d w pu)) /\
  (forall ct subs, In (ct, subs) (dispatch_groups d pu) ->
     match getChannel ct with
     | Some channel =>
         incl (fst (SubscriptionChannel.sendNotifications channel subs pu w))
              (fst (dispatchPageUpdate d w pu))
     | None =>
         In (ConsoleError "Unknown channel type")
            (fst (dispatchPageUpdate d w pu))
     end) /\
  (forall subs,
     snd (sendWebhookNotifications subs pu w) = Resolved /\
     (forall f s,
        sends_of (sendWebhookNotifications subs pu (with_outcomes w f s)) =
        sends_of (sendWebhookNotifications subs pu w)) /\
     (forall n sub,
        nth_error (filter hasWebhookUrl subs) n = Some sub ->
        snd (parse_channelConfig w sub) <> HeadersThrow ->
        exists req,
          Some (rq_url req) = Subscription.webhookUrl sub /\
          rq_body req = webhook_payload sub pu /\
          In (HttpPost n req) (fst (sendWebhookNotifications subs pu w)))) /\
  (schema_rows d ->
   snd (dispatchPageUpdate d w pu) = Resolved /\
   forall ct subs, In (ct, subs) (dispatch_groups d pu) ->
                   ct = "email"%string).
Proof.
  split; [apply dispatchPageUpdate_resolves|].
  split; [intros; apply dispatchPageUpdate_sends|].
  split; [|split].
  - intros ct subs Hg.
    pose proof (dispatch_groups_effects d w pu (ct, subs) Hg) as Hi.
    unfold channel_task in Hi.
    destruct (getChannel ct) as [channel|].
    + destruct (SubscriptionChannel.sendNotifications channel subs pu w)
        as [eff [|]]; simpl in *;
        intros e He; apply Hi; apply in_or_app; now left.
    + apply Hi. simpl. now left.
  - intros subs. split; [|split].
    + unfold sendWebhookNotifications.
      destruct (negb (nonempty (filter hasWebhookUrl subs))); reflexivity.
    + intros. apply sendWebhookNotifications_sends.
    + intros. now apply sendWebhookNotifications_posts.
  - intros Hc. split.
    + apply dispatchPageUpdate_resolves.
      apply channel_checked_own_types. now apply schema_rows_checked.
    + intros ct subs Hin. exact (@schema_rows_groups d pu ct subs Hc Hin).
Qed.

(** The scenario of the specification: of two webhook URLs the first times
    out, the second still receives its POST; and the email group of the
    sample store is called although the provider rejects. *)
Lemma dispatchPageUpdate_isolates_failures_witness :
  (nth_error (filter hasWebhookUrl [ex_hook1; ex_hook2]) 1 = Some ex_hook2 /\
   snd (parse_channelConfig ex_world ex_hook2) <> HeadersThrow /\
   exists req,
     Some (rq_url req) = Subscription.webhookUrl ex_hook2 /\
     rq_body req = webhook_payload ex_hook2 (ex_update [1]) /\
     In (HttpPost 1 req)
        (fst (sendWebhookNotifications [ex_hook1; ex_hook2]
                (ex_update [1]) ex_world))) /\
  (In ("email"%string,
       [to_subscription ex_db ex_page ex_rowA;
        to_subscription ex_db ex_page ex_rowB])
      (dispatch_groups ex_db (ex_update [1])) /\
   incl (fst (sendEmailNotifications
                [to_subscription ex_db ex_page ex_rowA;
                 to_subscription ex_db ex_page ex_rowB]
                (ex_update [1]) ex_world))
        (fst (dispatchPageUpdate ex_db ex_world (ex_update [1])))) /\
  (own_channel_types ex_db (ex_update [1]) /\
   snd (dispatchPageUpdate ex_db ex_world (ex_update [1])) = Resolved) /\
  (schema_rows ex_db /\
   map fst (dispatch_groups ex_db (ex_update [1])) = ["email"%string]).
Proof.
  destruct (dispatchPageUpdate_isolates_failures ex_db ex_world
              (ex_update [1])) as [Hr [_ [Hg [Hw Hs]]]].
  assert (Hown : own_channel_types ex_db (ex_update [1]))
    by (apply channel_checked_own_types; exact ex_db_channel_checked).
  split; [|split; [|split; [split; [exact Hown|exact (Hr Hown)]|]]].
  3: { split; [exact ex_db_schema_rows|].
       destruct (Hs ex_db_schema_rows) as [_ Hk].
       destruct (dispatch_groups ex_db (ex_update [1]))
         as [|[ct g] [|x t]] eqn:E; [discriminate E| |discriminate E].
       simpl. f_equal. apply (Hk ct g). now left. }
  - destruct (Hw [ex_hook1; ex_hook2]) as [_ [_ Hp]].
    assert (Hn : nth_error (filter hasWebhookUrl [ex_hook1; ex_hook2]) 1
                 = Some ex_hook2) by reflexivity.
    assert (Hc : snd (parse_channelConfig ex_world ex_hook2)
                 <> HeadersThrow) by (cbv; congruence).
    split; [exact Hn|]. split; [exact Hc|]. exact (Hp 1%nat ex_hook2 Hn Hc).
  - assert (Hin : In ("email"%string,
                      [to_subscription ex_db ex_page ex_rowA;
                       to_subscription ex_db ex_page ex_rowB])
                     (dispatch_groups ex_db (ex_update [1])))
      by (cbv; auto).
    split; [exact Hin|]. exact (Hg _ _ Hin).
Defined.

(** ** The store *)

Lemma lower_ascii_idem (c : ascii) :
  lower_ascii (lower_ascii c) = lower_ascii c.
Proof.
  destruct c as [[|] [|] [|] [|] [|] [|] [|] [|]]; reflexivity.
Qed.

Lemma toLowerCase_idem (s : string) :
  toLowerCase (toLowerCase s) = toLowerCase s.
Proof.
  induction s as [|c r IH]; simpl; [reflexivity|].
  now rewrite lower_ascii_idem, IH.
Qed.

Lemma update_rows_length f i rows :
  List.length (update_rows f i rows) = List.length rows.
Proof. unfold update_rows. apply length_map. Qed.

Lemma update_rows_nth f i rows n :
  nth_error (update_rows f i rows) n =
  option_map (fun r => if PS.id r =? i then f r else r) (nth_error rows n).
Proof. unfold update_rows. apply nth_error_map. Qed.

Lemma update_rows_in f i rows r :
  In r rows -> In (if PS.id r =? i then f r else r) (update_rows f i rows).
Proof.
  intros H. unfold update_rows.
  apply (in_map (fun r => if PS.id r =? i then f r else r)) in H. exact H.
Qed.

Lemma filter_id_none rows i :
  ~ In i (map PS.id rows) -> filter (fun x => PS.id x =? i) rows = [].
Proof.
  induction rows as [|z zs IH]; intros Hi; [reflexivity|]. simpl.
  destruct (PS.id z =? i) eqn:E.
  - apply Z.eqb_eq in E. exfalso. apply Hi. simpl. now left.
  - apply IH. intros H. apply Hi. simpl. now right.
Qed.

Lemma filter_id_unique rows r :
  NoDup (map PS.id rows) -> In r rows ->
  filter (fun x => PS.id x =? PS.id r) rows = [r].
Proof.
  induction rows as [|x xs IH]; intros Hnd Hin; [destruct Hin|].
  simpl in Hnd. inversion Hnd as [|? ? Hx Hxs]; subst.
  simpl. destruct Hin as [->|Hin].
  - rewrite Z.eqb_refl. f_equal. now apply filter_id_none.
  - destruct (PS.id x =? PS.id r) eqn:E.
    + apply Z.eqb_eq in E. exfalso. apply Hx. rewrite E.
      now apply in_map.
    + now apply IH.
Qed.

Lemma next_id_above rows r : In r rows -> PS.id r < next_id rows.
Proof.
  unfold next_id. induction rows as [|x xs IH]; intros H; [destruct H|].
  cbn [fold_right]. destruct H as [->|H]; [lia|]. specialize (IH H). lia.
Qed.

Lemma next_id_fresh rows : ~ In (next_id rows) (map PS.id rows).
Proof.
  intros H. apply in_map_iff in H. destruct H as [r [Hr Hin]].
  apply next_id_above in Hin. lia.
Qed.

(** ** The paths of upsertEmailSubscription *)

Lemma upsert_page_missing now uuid input d :
  find_page d (in_pageId input) = None ->
  upsertEmailSubscription now uuid input d =
  (inl (PageNotFound (in_pageId input)), d).
Proof.
  intros H. unfold upsertEmailSubscription. svc_unfold. now rewrite H.
Qed.

Lemma upsert_invalid now uuid input d pg :
  find_page d (in_pageId input) = Some pg ->
  components_accepted d (in_pageId input) (upsert_ids input) = false ->
  exists ids, upsertEmailSubscription now uuid input d =
              (inl (InvalidComponents ids), d).
Proof.
  intros Hp Hv. unfold upsertEmailSubscription. svc_unfold. rewrite Hp.
  unfold components_accepted in Hv. fold (upsert_ids input).
  destruct (nonempty (upsert_ids input)); simpl in Hv; [|discriminate].
  rewrite Hv. simpl. eexists. reflexivity.
Qed.

Lemma upsert_accepted now uuid input d pg ex acc :
  find_page d (in_pageId input) = Some pg ->
  components_accepted d (in_pageId input) (upsert_ids input) = true ->
  find_active_email d (toLowerCase (in_email input)) (in_pageId input)
    = Some ex ->
  PS.acceptedAt ex = Some acc ->
  upsertEmailSubscription now uuid input d =
  (inr (upsert_projection pg ex (Some acc) (components_of d (PS.id ex))), d).
Proof.
  intros Hp Hv Hf Ha. unfold upsertEmailSubscription. svc_unfold.
  rewrite Hp. unfold components_accepted in Hv. fold (upsert_ids input).
  destruct (nonempty (upsert_ids input)); simpl in Hv;
    [rewrite Hv|]; simpl; rewrite Hf, Ha; reflexivity.
Qed.

Lemma upsert_pending now uuid input d pg ex :
  find_page d (in_pageId input) = Some pg ->
  components_accepted d (in_pageId input) (upsert_ids input) = true ->
  find_active_email d (toLowerCase (in_email input)) (in_pageId input)
    = Some ex ->
  PS.acceptedAt ex = None ->
  upsertEmailSubscription now uuid input d =
  (inr (upsert_projection pg ex None
          (merged_ids (components_of d (PS.id ex)) (upsert_ids input))),
   mkDB (page d) (pageComponent d)
     (update_rows (set_expiresAt (now + VERIFICATION_EXPIRY_MS) now)
        (PS.id ex) (pageSubscriber d))
     (insert_links_skip (pageSubscriberToPageComponent d)
        (links_for (PS.id ex)
           (added_ids (components_of d (PS.id ex)) (upsert_ids input))))).
Proof.
  intros Hp Hv Hf Ha. unfold upsertEmailSubscription. svc_unfold.
  rewrite Hp. unfold components_accepted in Hv. fold (upsert_ids input).
  destruct (nonempty (upsert_ids input)); simpl in Hv;
    [rewrite Hv|]; simpl; rewrite Hf, Ha;
    fold (merged_ids (components_of d (PS.id ex)) (upsert_ids input));
    fold (added_ids (components_of d (PS.id ex)) (upsert_ids input));
    destruct (added_ids (components_of d (PS.id ex)) (upsert_ids input))
      eqn:E; simpl; try reflexivity;
    destruct d; reflexivity.
Qed.

Lemma no_webhook_clash now uuid mail pid rows0 rows :
  existsb (fun r => webhook_idx_clash r
                      (new_subscriber now uuid mail pid rows0)) rows = false.
Proof.
  induction rows as [|x xs IH]; simpl; [reflexivity|].
  rewrite IH. unfold webhook_idx_clash at 1.
  replace (webhook_idx_member (new_subscriber now uuid mail pid rows0))
    with false by reflexivity.
  now rewrite andb_false_r.
Qed.

Lemma insert_new_subscriber now uuid mail pid d :
  insert_pageSubscriber
    (PS.mk 0 (Some (toLowerCase mail)) pid "email" None None (Some uuid)
       None (Some (now + VERIFICATION_EXPIRY_MS)) None (Some now) (Some now))
    d =
  let n := new_subscriber now uuid mail pid (pageSubscriber d) in
  if existsb (fun r => email_idx_clash r n) (pageSubscriber d)
  then (inl (ConstraintViolation "idx_page_subscriber_email_page_active"), d)
  else (inr n, set_pageSubscriber d (pageSubscriber d ++ [n])).
Proof.
  unfold insert_pageSubscriber. cbn [PS.email PS.pageId PS.channelType
    PS.webhookUrl PS.channelConfig PS.token PS.acceptedAt PS.expiresAt
    PS.unsubscribedAt PS.createdAt PS.updatedAt option_map].
  fold (new_subscriber now uuid mail pid (pageSubscriber d)).
  cbv zeta.
  replace (is_null (PS.email (new_subscriber now uuid mail pid
                                (pageSubscriber d)))) with false
    by reflexivity.
  replace (channelCheck (new_subscriber now uuid mail pid
                           (pageSubscriber d))) with true by reflexivity.
  cbn [negb]. rewrite no_webhook_clash. reflexivity.
Qed.

Lemma upsert_new now uuid input d pg :
  find_page d (in_pageId input) = Some pg ->
  components_accepted d (in_pageId input) (upsert_ids input) = true ->
  find_active_email d (toLowerCase (in_email input)) (in_pageId input)
    = None ->
  let n := new_subscriber now uuid (in_email input) (in_pageId input)
             (pageSubscriber d) in
  upsertEmailSubscription now uuid input d =
  if existsb (fun r => email_idx_clash r n) (pageSubscriber d)
  then (inl (ConstraintViolation "idx_page_subscriber_email_page_active"), d)
  else
    match insert_links_into (pageSubscriberToPageComponent d)
            (links_for (PS.id n) (upsert_ids input)) with
    | Some t =>
        (inr (Subscription.mk (PS.id n) (PS.pageId n) (Page.title pg)
                (Page.slug pg) (Page.customDomain pg) "email" (PS.email n)
                None None (PS.token n) None None (upsert_ids input)),
         mkDB (page d) (pageComponent d) (pageSubscriber d ++ [n]) t)
    | None =>
        (inl (ConstraintViolation
                "PRIMARY KEY page_subscriber_to_page_component"), d)
    end.
Proof.
  intros Hp Hv Hf n. unfold upsertEmailSubscription.
  unfold when, insert_links, transaction, bind, query, ret, throw.
  rewrite Hp. unfold components_accepted in Hv. fold (upsert_ids input).
  destruct (nonempty (upsert_ids input)) eqn:Hne; simpl in Hv;
    [rewrite Hv|]; cbn [negb]; rewrite Hf; rewrite insert_new_subscriber;
    cbv zeta; fold n;
    destruct (existsb (fun r => email_idx_clash r n) (pageSubscriber d));
    try reflexivity.
  - cbn [pageSubscriberToPageComponent set_pageSubscriber].
    destruct (insert_links_into _ _); reflexivity.
  - apply nonempty_false in Hne. rewrite Hne. destruct d; reflexivity.
Qed.

(** ** What the token operations can do to the tables *)

Lemma verify_subscriber_table now tok dom d :
  let d' := snd (verifySubscription now tok dom d) in
  page d' = page d /\ pageComponent d' = pageComponent d /\
  pageSubscriberToPageComponent d' = pageSubscriberToPageComponent d /\
  (pageSubscriber d' = pageSubscriber d \/
   exists i, pageSubscriber d' =
             update_rows (set_acceptedAt now now) i (pageSubscriber d)).
Proof.
  unfold verifySubscription, domain_rejected, with_page_components.
  svc_unfold. cbv zeta. split_paths; cbn; repeat split; try reflexivity;
    try (now left); right; eexists; unfold update_rows; reflexivity.
Qed.

Lemma unsubscribe_subscriber_table now tok dom d :
  let d' := snd (unsubscribe now tok dom d) in
  page d' = page d /\ pageComponent d' = pageComponent d /\
  pageSubscriberToPageComponent d' = pageSubscriberToPageComponent d /\
  (pageSubscriber d' = pageSubscriber d \/
   exists i, pageSubscriber d' =
             update_rows (set_unsubscribedAt now now) i (pageSubscriber d)).
Proof.
  unfold unsubscribe, domain_rejected, with_page_components.
  svc_unfold. cbv zeta. split_paths; cbn; repeat split; try reflexivity;
    try (now left); right; eexists; unfold update_rows; reflexivity.
Qed.

Lemma updateScope_subscriber_table now input d :
  let d' := snd (updateSubscriptionScope now input d) in
  page d' = page d /\ pageComponent d' = pageComponent d /\
  (pageSubscriber d' = pageSubscriber d \/
   exists i, pageSubscriber d' =
             update_rows (set_updatedAt now) i (pageSubscriber d)).
Proof.
  unfold updateSubscriptionScope, domain_rejected, with_page_components.
  svc_unfold. cbv zeta. split_paths; cbn; repeat split; try reflexivity;
    try (now left); right; eexists; unfold update_rows; reflexivity.
Qed.

Lemma upsert_subscriber_table now uuid input d :
  let d' := snd (upsertEmailSubscription now uuid input d) in
  let n := new_subscriber now uuid (in_email input) (in_pageId input)
             (pageSubscriber d) in
  page d' = page d /\ pageComponent d' = pageComponent d /\
  (pageSubscriber d' = pageSubscriber d \/
   (exists i, pageSubscriber d' =
              update_rows (set_expiresAt (now + VERIFICATION_EXPIRY_MS) now)
                          i (pageSubscriber d)) \/
   (pageSubscriber d' = pageSubscriber d ++ [n] /\
    existsb (fun r => email_idx_clash r n) (pageSubscriber d) = false)).
Proof.
  cbv zeta.
  destruct (find_page d (in_pageId input)) as [pg|] eqn:Hp.
  2:{ rewrite upsert_page_missing by assumption. simpl. auto. }
  destruct (components_accepted d (in_pageId input) (upsert_ids input))
    eqn:Hv.
  2:{ destruct (upsert_invalid now uuid input d Hp Hv) as [ids ->].
      simpl. auto. }
  destruct (find_active_email d (toLowerCase (in_email input))
              (in_pageId input)) as [ex|] eqn:Hf.
  - destruct (PS.acceptedAt ex) as [acc|] eqn:Ha.
    + rewrite (upsert_accepted now uuid input d Hp Hv Hf Ha). simpl. auto.
    + rewrite (upsert_pending now uuid input d Hp Hv Hf Ha). simpl.
      split; [reflexivity|]. split; [reflexivity|]. right. left. eauto.
  - rewrite (upsert_new now uuid input d Hp Hv Hf). cbv zeta.
    destruct (existsb _ (pageSubscriber d)) eqn:Hc; [simpl; auto|].
    destruct (insert_links_into _ _); simpl; auto.
    repeat split; auto.
Qed.

(** ** The uniqueness invariant *)

Lemma active_unique_update f i rows :
  (forall r, PS.pageId (f r) = PS.pageId r /\
             PS.channelType (f r) = PS.channelType r /\
             identity (f r) = identity r /\
             (PS.unsubscribedAt (f r) = None ->
              PS.unsubscribedAt r = None)) ->
  active_unique rows -> active_unique (update_rows f i rows).
Proof.
  intros Hf Hu n1 n2 r1 r2 i1 i2 H1 H2 Hu1 Hu2 Hp Hc Hi1 Hi2 Hl.
  rewrite update_rows_nth in H1, H2.
  destruct (nth_error rows n1) as [a|] eqn:Ea; [|discriminate].
  destruct (nth_error rows n2) as [b|] eqn:Eb; [|discriminate].
  simpl in H1, H2. inversion H1; inversion H2; subst r1 r2.
  assert (Hg : forall r, let r' := if PS.id r =? i then f r else r in
            PS.pageId r' = PS.pageId r /\
            PS.channelType r' = PS.channelType r /\
            identity r' = identity r /\
            (PS.unsubscribedAt r' = None -> PS.unsubscribedAt r = None)).
  { intros r. cbv zeta. destruct (PS.id r =? i); [apply Hf|tauto]. }
  destruct (Hg a) as [Pa [Ca [Ia Ua]]]. destruct (Hg b) as [Pb [Cb [Ib Ub]]].
  apply (Hu n1 n2 a b i1 i2); try assumption; try congruence; auto.
Qed.

Lemma active_unique_insert rows n mail :
  active_unique rows ->
  PS.channelType n = "email"%string -> PS.email n = Some mail ->
  existsb (fun r => email_idx_clash r n) rows = false ->
  active_unique (rows ++ [n]).
Proof.
  intros Hu Hc He Hx.
  assert (Hclash : forall k r i1 i2,
            nth_error rows k = Some r -> PS.unsubscribedAt r = None ->
            PS.unsubscribedAt n = None -> PS.pageId r = PS.pageId n ->
            PS.channelType r = PS.channelType n ->
            identity r = Some i1 -> identity n = Some i2 ->
            toLowerCase i1 = toLowerCase i2 -> False).
  { intros k r i1 i2 Hk Hur Hun Hp Hcr Hi1 Hi2 Hl.
    apply nth_error_In in Hk.
    assert (Hf : email_idx_clash r n = false).
    { destruct (email_idx_clash r n) eqn:E; [|reflexivity].
      rewrite <- Hx. symmetry. apply existsb_exists. eauto. }
    unfold email_idx_clash, email_idx_member in Hf.
    unfold identity in Hi1, Hi2. rewrite Hcr, Hc in Hi1. rewrite Hc in Hi2.
    simpl in Hi1, Hi2. rewrite Hi1, Hi2, Hur, Hun, Hcr, Hc, Hp in Hf.
    rewrite Hl, Z.eqb_refl, !String.eqb_refl in Hf. discriminate. }
  intros n1 n2 r1 r2 i1 i2 H1 H2 Hu1 Hu2 Hp Hct Hi1 Hi2 Hl.
  destruct (Nat.lt_ge_cases n1 (List.length rows)) as [L1|L1];
    destruct (Nat.lt_ge_cases n2 (List.length rows)) as [L2|L2].
  - rewrite nth_error_app1 in H1, H2 by assumption.
    now apply (Hu n1 n2 r1 r2 i1 i2).
  - rewrite nth_error_app1 in H1 by assumption.
    rewrite nth_error_app2 in H2 by assumption.
    destruct (n2 - List.length rows)%nat as [|m]; simpl in H2;
      [|destruct m; discriminate].
    inversion H2; subst r2. exfalso.
    now apply (Hclash n1 r1 i1 i2).
  - rewrite nth_error_app2 in H1 by assumption.
    rewrite nth_error_app1 in H2 by assumption.
    destruct (n1 - List.length rows)%nat as [|m]; simpl in H1;
      [|destruct m; discriminate].
    inversion H1; subst r1. exfalso.
    apply (Hclash n2 r2 i2 i1); auto.
  - rewrite nth_error_app2 in H1, H2 by assumption.
    destruct (n1 - List.length rows)%nat as [|m1] eqn:E1; simpl in H1;
      [|destruct m1; discriminate].
    destruct (n2 - List.length rows)%nat as [|m2] eqn:E2; simpl in H2;
      [|destruct m2; discriminate].
    lia.
Qed.

Lemma find_update_rows (p : PS.t -> bool) f i rows :
  (forall r, p (f r) = p r) ->
  find p (update_rows f i rows) =
  option_map (fun r => if PS.id r =? i then f r else r) (find p rows).
Proof.
  intros Hp. induction rows as [|x xs IH]; simpl; [reflexivity|].
  assert (Hx : p (if PS.id x =? i then f x else x) = p x)
    by (destruct (PS.id x =? i); auto).
  rewrite Hx. destruct (p x); [reflexivity|exact IH].
Qed.

Lemma filter_update_rows (q : PS.t -> bool) f i rows :
  (forall r, q (f r) = q r) ->
  filter q (update_rows f i rows) = update_rows f i (filter q rows).
Proof.
  intros Hq. induction rows as [|x xs IH]; simpl; [reflexivity|].
  assert (Hx : q (if PS.id x =? i then f x else x) = q x)
    by (destruct (PS.id x =? i); auto).
  rewrite Hx. destruct (q x); simpl; now rewrite IH.
Qed.

Lemma find_app_last {A} (p : A -> bool) rows n :
  find p (rows ++ [n]) =
  match find p rows with
  | Some x => Some x
  | None => if p n then Some n else None
  end.
Proof.
  induction rows as [|x xs IH]; simpl; [reflexivity|].
  destruct (p x); [reflexivity|exact IH].
Qed.

Lemma col_eq_str_true c v : col_eq_str c v = true <-> c = Some v.
Proof.
  destruct c as [s|]; simpl; [|split; discriminate].
  rewrite String.eqb_eq. split; congruence.
Qed.

Lemma is_active_email_spec mail pid r :
  is_active_email mail pid r = true <->
  PS.email r = Some mail /\ PS.pageId r = pid /\
  PS.channelType r = "email"%string /\ PS.unsubscribedAt r = None.
Proof.
  unfold is_active_email.
  rewrite !andb_true_iff, col_eq_str_true, Z.eqb_eq, String.eqb_eq,
    is_null_true. tauto.
Qed.

(** Inversion of a successful upsert. *)
Lemma upsert_success now uuid input d s d' :
  upsertEmailSubscription now uuid input d = (inr s, d') ->
  exists pg,
    find_page d (in_pageId input) = Some pg /\
    components_accepted d (in_pageId input) (upsert_ids input) = true /\
    ((exists ex acc,
        find_active_email d (toLowerCase (in_email input))
          (in_pageId input) = Some ex /\
        PS.acceptedAt ex = Some acc /\
        s = upsert_projection pg ex (Some acc)
              (components_of d (PS.id ex)) /\
        d' = d) \/
     (exists ex,
        find_active_email d (toLowerCase (in_email input))
          (in_pageId input) = Some ex /\
        PS.acceptedAt ex = None /\
        s = upsert_projection pg ex None
              (merged_ids (components_of d (PS.id ex)) (upsert_ids input)) /\
        d' = mkDB (page d) (pageComponent d)
               (update_rows
                  (set_expiresAt (now + VERIFICATION_EXPIRY_MS) now)
                  (PS.id ex) (pageSubscriber d))
               (insert_links_skip (pageSubscriberToPageComponent d)
                  (links_for (PS.id ex)
                     (added_ids (components_of d (PS.id ex))
                        (upsert_ids input))))) \/
     (exists t,
        let n := new_subscriber now uuid (in_email input) (in_pageId input)
                   (pageSubscriber d) in
        find_active_email d (toLowerCase (in_email input))
          (in_pageId input) = None /\
        existsb (fun r => email_idx_clash r n) (pageSubscriber d) = false /\
        insert_links_into (pageSubscriberToPageComponent d)
          (links_for (PS.id n) (upsert_ids input)) = Some t /\
        Subscription.id s = PS.id n /\
        Subscription.email s = PS.email n /\
        Subscription.token s = PS.token n /\
        Subscription.acceptedAt s = None /\
        Subscription.componentIds s = upsert_ids input /\
        d' = mkDB (page d) (pageComponent d) (pageSubscriber d ++ [n]) t)).
Proof.
  intros H.
  destruct (find_page d (in_pageId input)) as [pg|] eqn:Hp.
  2:{ rewrite upsert_page_missing in H by assumption. discriminate. }
  destruct (components_accepted d (in_pageId input) (upsert_ids input))
    eqn:Hv.
  2:{ destruct (upsert_invalid now uuid input d Hp Hv) as [ids E].
      rewrite E in H. discriminate. }
  exists pg. split; [reflexivity|]. split; [reflexivity|].
  destruct (find_active_email d (toLowerCase (in_email input))
              (in_pageId input)) as [ex|] eqn:Hf.
  - destruct (PS.acceptedAt ex) as [acc|] eqn:Ha.
    + rewrite (upsert_accepted now uuid input d Hp Hv Hf Ha) in H.
      inversion H; subst. left. eauto 10.
    + rewrite (upsert_pending now uuid input d Hp Hv Hf Ha) in H.
      inversion H; subst. right. left. eauto 10.
  - rewrite (upsert_new now uuid input d Hp Hv Hf) in H. cbv zeta in H.
    destruct (existsb _ (pageSubscriber d)) eqn:Hc; [discriminate|].
    destruct (insert_links_into _ _) as [t|] eqn:Hi; [|discriminate].
    inversion H; subst. right. right. exists t. cbv zeta.
    repeat split; auto.
Qed.

Lemma upsert_leaves_active now uuid input d s d' :
  upsertEmailSubscription now uuid input d = (inr s, d') ->
  exists a,
    find_active_email d' (toLowerCase (in_email input)) (in_pageId input)
      = Some a /\
    PS.id a = Subscription.id s.
Proof.
  intros H. apply upsert_success in H.
  destruct H as [pg [Hp [Hv [H|[H|H]]]]].
  - destruct H as [ex [acc [Hf [Ha [-> ->]]]]]. exists ex. auto.
  - destruct H as [ex [Hf [Ha [-> ->]]]].
    exists (set_expiresAt (now + VERIFICATION_EXPIRY_MS) now ex).
    split; [|reflexivity].
    unfold find_active_email in *. cbn [pageSubscriber].
    rewrite find_update_rows by reflexivity. rewrite Hf. simpl.
    now rewrite Z.eqb_refl.
  - destruct H as [t [Hf [Hc [Hi [Hid [_ [_ [_ [_ ->]]]]]]]]].
    eexists. split; [|symmetry; exact Hid].
    unfold find_active_email in *. cbn [pageSubscriber].
    rewrite find_app_last, Hf.
    replace (is_active_email _ _ _) with true; [reflexivity|].
    symmetry. apply is_active_email_spec. repeat split; reflexivity.
Qed.

Lemma upsert_found_keeps_rows now uuid input d s d' a :
  find_active_email d (toLowerCase (in_email input)) (in_pageId input)
    = Some a ->
  upsertEmailSubscription now uuid input d = (inr s, d') ->
  Subscription.id s = PS.id a /\
  Subscription.email s = Some (toLowerCase (in_email input)) /\
  List.length (pageSubscriber d') = List.length (pageSubscriber d).
Proof.
  intros Hf H. apply upsert_success in H.
  assert (He : PS.email a = Some (toLowerCase (in_email input))).
  { unfold find_active_email in Hf. apply find_some in Hf.
    destruct Hf as [_ Hf]. apply is_active_email_spec in Hf. tauto. }
  destruct H as [pg [Hp [Hv [H|[H|H]]]]].
  - destruct H as [ex [acc [Hf' [Ha [-> ->]]]]].
    rewrite Hf in Hf'. inversion Hf'; subst ex. auto.
  - destruct H as [ex [Hf' [Ha [-> ->]]]].
    rewrite Hf in Hf'. inversion Hf'; subst ex. cbn [pageSubscriber].
    rewrite update_rows_length. auto.
  - destruct H as [t [Hf' _]]. congruence.
Qed.

(** C3. Each lifecycle operation, whatever its arguments and whether it
    returns or throws, leaves a subscriber table that has at most one row
    with [unsubscribedAt = null] per (case-insensitive identity, pageId,
    channelType) when it was given one; and two successful upserts whose
    addresses differ only in letter case return the same subscriber, the
    second adding no row, the stored address being the lowercased one; from
    a table without that address the two leave exactly one row for it. *)
Theorem lifecycle_preserves_active_unique d :
  active_unique (pageSubscriber d) ->
  (forall now uuid input,
     active_unique
       (pageSubscriber (snd (upsertEmailSubscription now uuid input d)))) /\
  (forall now tok dom,
     active_unique
       (pageSubscriber (snd (verifySubscription now tok dom d)))) /\
  (forall now input,
     active_unique
       (pageSubscriber (snd (updateSubscriptionScope now input d)))) /\
  (forall now tok dom,
     active_unique (pageSubscriber (snd (unsubscribe now tok dom d)))) /\
  (forall now1 uuid1 now2 uuid2 e1 e2 p c1 c2 s1 d1 s2 d2,
     toLowerCase e1 = toLowerCase e2 ->
     upsertEmailSubscription now1 uuid1 (mkUpsert e1 p c1) d = (inr s1, d1) ->
     upsertEmailSubscription now2 uuid2 (mkUpsert e2 p c2) d1
       = (inr s2, d2) ->
     Subscription.id s2 = Subscription.id s1 /\
     Subscription.email s2 = Some (toLowerCase e1) /\
     List.length (pageSubscriber d2) = List.length (pageSubscriber d1) /\
     (filter (same_email e1 p) (pageSubscriber d) = [] ->
      exists r, filter (same_email e1 p) (pageSubscriber d2) = [r] /\
                PS.email r = Some (toLowerCase e1) /\
                PS.unsubscribedAt r = None)).
Proof.
  intros Hu. split; [|split; [|split; [|split]]].
  - intros now uuid input.
    destruct (upsert_subscriber_table now uuid input d)
      as [_ [_ [E|[[i E]|[E Hc]]]]]; rewrite E.
    + assumption.
    + apply active_unique_update; [|assumption]. intros r. now repeat split.
    + eapply active_unique_insert; eauto; reflexivity.
  - intros now tok dom.
    destruct (verify_subscriber_table now tok dom d)
      as [_ [_ [_ [E|[i E]]]]]; rewrite E; [assumption|].
    apply active_unique_update; [|assumption]. intros r. now repeat split.
  - intros now input.
    destruct (updateScope_subscriber_table now input d)
      as [_ [_ [E|[i E]]]]; rewrite E; [assumption|].
    apply active_unique_update; [|assumption]. intros r. now repeat split.
  - intros now tok dom.
    destruct (unsubscribe_subscriber_table now tok dom d)
      as [_ [_ [_ [E|[i E]]]]]; rewrite E; [assumption|].
    apply active_unique_update; [|assumption]. intros r.
    repeat split. simpl. discriminate.
  - intros now1 uuid1 now2 uuid2 e1 e2 p c1 c2 s1 d1 s2 d2 He H1 H2.
    destruct (upsert_leaves_active _ _ _ _ H1) as [a [Ha Hid]].
    cbn [in_email in_pageId] in Ha.
    assert (Ha2 : find_active_email d1
                    (toLowerCase (in_email (mkUpsert e2 p c2)))
                    (in_pageId (mkUpsert e2 p c2)) = Some a).
    { cbn [in_email in_pageId]. now rewrite <- He. }
    destruct (upsert_found_keeps_rows _ _ _ _ Ha2 H2) as [K1 [K2 K3]].
    cbn [in_email] in K2. rewrite <- He in K2.
    split; [congruence|]. split; [assumption|]. split; [assumption|].
    intros Hnone.
    apply upsert_success in H1. cbn [in_email in_pageId] in H1.
    destruct H1 as [pg [Hp [Hv [H1|[H1|H1]]]]].
    + destruct H1 as [ex [acc [Hf _]]]. exfalso.
      unfold find_active_email in Hf. apply find_some in Hf.
      destruct Hf as [Hin Hf]. apply is_active_email_spec in Hf.
      destruct Hf as [F1 [F2 [F3 F4]]].
      assert (Hx : In ex (filter (same_email e1 p) (pageSubscriber d))).
      { apply filter_In. split; [assumption|]. unfold same_email.
        rewrite F1, F2, F3, toLowerCase_idem, Z.eqb_refl,
          !String.eqb_refl. reflexivity. }
      rewrite Hnone in Hx. destruct Hx.
    + destruct H1 as [ex [Hf _]]. exfalso.
      unfold find_active_email in Hf. apply find_some in Hf.
      destruct Hf as [Hin Hf]. apply is_active_email_spec in Hf.
      destruct Hf as [F1 [F2 [F3 F4]]].
      assert (Hx : In ex (filter (same_email e1 p) (pageSubscriber d))).
      { apply filter_In. split; [assumption|]. unfold same_email.
        rewrite F1, F2, F3, toLowerCase_idem, Z.eqb_refl,
          !String.eqb_refl. reflexivity. }
      rewrite Hnone in Hx. destruct Hx.
    + destruct H1 as [t [Hf [Hc [Hi [_ [_ [_ [_ [_ Hd1]]]]]]]]].
      set (n := new_subscriber now1 uuid1 e1 p (pageSubscriber d)) in *.
      assert (Hn : same_email e1 p n = true).
      { unfold same_email, n, new_subscriber. cbn.
        now rewrite toLowerCase_idem, Z.eqb_refl, !String.eqb_refl. }
      assert (Hfa : a = n).
      { rewrite Hd1 in Ha. unfold find_active_email in Ha, Hf.
        cbn [pageSubscriber] in Ha. rewrite find_app_last, Hf in Ha.
        destruct (is_active_email (toLowerCase e1) p n);
          [congruence|discriminate]. }
      subst a.
      apply upsert_success in H2. cbn [in_email in_pageId] in H2.
      rewrite <- He in H2.
      destruct H2 as [pg2 [Hp2 [Hv2 [H2|[H2|H2]]]]].
      * destruct H2 as [ex [acc [Hf2 [Hacc _]]]].
        rewrite Ha in Hf2. inversion Hf2; subst ex. discriminate.
      * destruct H2 as [ex [Hf2 [_ [_ ->]]]].
        rewrite Ha in Hf2. inversion Hf2; subst ex.
        cbn [pageSubscriber]. rewrite Hd1. cbn [pageSubscriber].
        rewrite filter_update_rows by reflexivity.
        rewrite filter_app, Hnone. cbn [filter app]. rewrite Hn.
        cbn [update_rows map]. rewrite Z.eqb_refl.
        eexists. split; [reflexivity|]. split; reflexivity.
      * destruct H2 as [t2 [Hf2 _]]. congruence.
Qed.

(** The scenario of the specification: "User@Example.com" and then
    "user@example.com" on the same page leave one row, lowercased. *)
Lemma lifecycle_preserves_active_unique_witness :
  active_unique (pageSubscriber ex_db0) /\
  exists r,
    filter (same_email "User@Example.com" 1) (pageSubscriber (snd ex_second))
      = [r] /\
    PS.email r = Some "user@example.com"%string /\
    PS.unsubscribedAt r = None.
Proof.
  assert (Hu : active_unique (pageSubscriber ex_db0)).
  { intros n1 n2 r1 r2 i1 i2 H1. destruct n1; discriminate. }
  split; [exact Hu|].
  destruct (lifecycle_preserves_active_unique ex_db0 Hu)
    as [_ [_ [_ [_ H]]]].
  destruct (H 1000 "uuid-1"%string 2000 "uuid-2"%string
              "User@Example.com"%string "user@example.com"%string 1
              None (Some [1])
              (the_value (fst ex_first) no_subscription) (snd ex_first)
              (the_value (fst ex_second) no_subscription) (snd ex_second)
              eq_refl eq_refl eq_refl) as [_ [_ [_ Hx]]].
  exact (Hx eq_refl).
Defined.

(** ** Component associations *)

Lemma link_eqb_eq a b : link_eqb a b = true <-> a = b.
Proof.
  destruct a as [a1 a2], b as [b1 b2]. unfold link_eqb. simpl.
  rewrite andb_true_iff, !Z.eqb_eq. split.
  - intros [-> ->]. reflexivity.
  - intros H. inversion H. auto.
Qed.

Lemma existsb_link_in v tbl : existsb (link_eqb v) tbl = true <-> In v tbl.
Proof.
  rewrite existsb_exists. split.
  - intros [x [Hx He]]. apply link_eqb_eq in He. now subst.
  - intros H. exists v. split; [assumption|]. now apply link_eqb_eq.
Qed.

Lemma insert_links_skip_in vs : forall tbl l,
  In l (insert_links_skip tbl vs) <-> In l tbl \/ In l vs.
Proof.
  induction vs as [|v r IH]; intros tbl l; simpl; [tauto|].
  destruct (existsb (link_eqb v) tbl) eqn:E.
  - apply existsb_link_in in E. rewrite IH. intuition (subst; auto).
  - rewrite IH, in_app_iff. simpl. tauto.
Qed.

Lemma insert_links_into_ok vs : forall tbl,
  NoDup vs -> (forall v, In v vs -> ~ In v tbl) ->
  insert_links_into tbl vs = Some (tbl ++ vs).
Proof.
  induction vs as [|v r IH]; intros tbl Hnd Hfresh; simpl.
  - now rewrite app_nil_r.
  - inversion Hnd as [|? ? Hv Hr]; subst.
    destruct (existsb (link_eqb v) tbl) eqn:E.
    + apply existsb_link_in in E. exfalso.
      apply (Hfresh v); simpl; auto.
    + rewrite IH; [now rewrite <- app_assoc| assumption |].
      intros x Hx Hin. apply in_app_or in Hin.
      destruct Hin as [Hin|[->|[]]]; [|contradiction].
      apply (Hfresh x); simpl; auto.
Qed.

Lemma components_of_in d sub c :
  In c (components_of d sub) <->
  In (PSC.mk sub c) (pageSubscriberToPageComponent d).
Proof.
  unfold components_of. rewrite in_map_iff. split.
  - intros [l [Hc Hl]]. apply filter_In in Hl. destruct Hl as [Hl Hs].
    apply Z.eqb_eq in Hs. destruct l as [s0 c0]. simpl in *. now subst.
  - intros H. exists (PSC.mk sub c). split; [reflexivity|].
    apply filter_In. split; [assumption|]. simpl. apply Z.eqb_refl.
Qed.

Lemma links_for_in sub ids l :
  In l (links_for sub ids) <->
  PSC.pageSubscriberId l = sub /\ In (PSC.pageComponentId l) ids.
Proof.
  unfold links_for. rewrite in_map_iff. split.
  - intros [c [<- Hc]]. simpl. auto.
  - intros [Hs Hc]. exists (PSC.pageComponentId l). split; [|assumption].
    destruct l; simpl in *. now subst.
Qed.

Lemma uniq_from_in l : forall seen x,
  In x (uniq_from seen l) <-> In x l /\ ~ In x seen.
Proof.
  induction l as [|y r IH]; intros seen x; simpl; [tauto|].
  destruct (includes seen y) eqn:E.
  - apply includes_In in E. rewrite IH.
    intuition (subst; try contradiction; auto).
  - apply includes_false in E. simpl. rewrite IH. simpl.
    destruct (Z.eq_dec y x) as [->|Hne]; intuition.
Qed.

Lemma merged_ids_in cur ids c :
  In c (merged_ids cur ids) <-> In c cur \/ In c ids.
Proof.
  unfold merged_ids, Set_spread. rewrite uniq_from_in, in_app_iff.
  simpl. tauto.
Qed.

Lemma added_ids_in cur ids c :
  In c (added_ids cur ids) <-> In c ids /\ ~ In c cur.
Proof.
  unfold added_ids. rewrite filter_In, merged_ids_in, negb_true_iff,
    includes_false. tauto.
Qed.

Lemma added_ids_none cur ids :
  (forall c, In c ids -> In c cur) -> added_ids cur ids = [].
Proof.
  intros H. destruct (added_ids cur ids) as [|c r] eqn:E; [reflexivity|].
  assert (Hc : In c (added_ids cur ids)) by (rewrite E; now left).
  apply added_ids_in in Hc. destruct Hc as [Hi Hn]. exfalso. auto.
Qed.

Lemma pending_components_in d sub ids c :
  In c (map PSC.pageComponentId
          (filter (fun l => PSC.pageSubscriberId l =? sub)
             (insert_links_skip (pageSubscriberToPageComponent d)
                (links_for sub
                   (added_ids (components_of d sub) ids))))) <->
  In c (components_of d sub) \/ In c ids.
Proof.
  rewrite in_map_iff. split.
  - intros [l [Hc Hl]]. apply filter_In in Hl. destruct Hl as [Hl Hs].
    apply Z.eqb_eq in Hs. apply insert_links_skip_in in Hl.
    destruct Hl as [Hl|Hl].
    + left. apply components_of_in. destruct l; simpl in *. now subst.
    + apply links_for_in in Hl. destruct Hl as [_ Hl].
      apply added_ids_in in Hl. right. now subst.
  - intros H.
    destruct (includes (components_of d sub) c) eqn:E.
    + apply includes_In in E. apply components_of_in in E.
      exists (PSC.mk sub c). split; [reflexivity|]. apply filter_In.
      split; [|simpl; apply Z.eqb_refl].
      apply insert_links_skip_in. now left.
    + apply includes_false in E. destruct H as [H|H]; [contradiction|].
      exists (PSC.mk sub c). split; [reflexivity|]. apply filter_In.
      split; [|simpl; apply Z.eqb_refl].
      apply insert_links_skip_in. right. apply links_for_in. simpl.
      split; [reflexivity|]. apply added_ids_in. auto.
Qed.

(** ** The active row of an address is the one the lookup finds *)

Lemma find_active_unique d mail pid ex :
  active_unique (pageSubscriber d) ->
  In ex (pageSubscriber d) ->
  PS.email ex = Some mail -> PS.pageId ex = pid ->
  PS.channelType ex = "email"%string -> PS.unsubscribedAt ex = None ->
  find_active_email d mail pid = Some ex.
Proof.
  intros Hu Hin He Hp Hc Hn. unfold find_active_email.
  destruct (find (is_active_email mail pid) (pageSubscriber d))
    as [r|] eqn:Hf.
  - apply find_some in Hf. destruct Hf as [Hr Ha].
    apply is_active_email_spec in Ha. destruct Ha as [A1 [A2 [A3 A4]]].
    apply In_nth_error in Hr. destruct Hr as [n1 Hn1].
    apply In_nth_error in Hin. destruct Hin as [n2 Hn2].
    assert (n1 = n2).
    { apply (Hu n1 n2 r ex mail mail); try assumption; try congruence.
      - unfold identity. now rewrite A3.
      - unfold identity. now rewrite Hc. }
    subst n2. congruence.
  - exfalso. apply (find_none _ _ Hf) in Hin.
    assert (Ht : is_active_email mail pid ex = true)
      by (apply is_active_email_spec; auto).
    congruence.
Qed.

Lemma active_subscription_found d mail pid ex :
  active_unique (pageSubscriber d) ->
  active_subscription d mail pid ex ->
  find_active_email d (toLowerCase mail) pid = Some ex.
Proof.
  intros Hu [H1 [H2 [H3 [H4 H5]]]]. now apply find_active_unique.
Qed.

(** ** Component validation *)

Lemma NoDup_map_filter {A B} (f : A -> B) (q : A -> bool) l :
  NoDup (map f l) -> NoDup (map f (filter q l)).
Proof.
  induction l as [|x xs IH]; simpl; intros H; [constructor|].
  inversion H as [|? ? Hx Hxs]; subst.
  destruct (q x); simpl; [|auto].
  constructor; [|auto]. intros Hin. apply Hx.
  apply in_map_iff in Hin. destruct Hin as [y [Hy Hin]].
  apply filter_In in Hin. apply in_map_iff. exists y. tauto.
Qed.

Lemma valid_components_in d pid ids c :
  In c (valid_components d pid ids) <-> on_page d pid c /\ In c ids.
Proof.
  unfold valid_components, on_page. rewrite in_map_iff. split.
  - intros [pc [Hc Hin]]. apply filter_In in Hin. destruct Hin as [Hin Hq].
    apply andb_true_iff in Hq. destruct Hq as [Hq1 Hq2].
    apply Z.eqb_eq in Hq1. apply includes_In in Hq2. subst c. eauto.
  - intros [[pc [Hin [Hc Hp]]] Hi]. exists pc. split; [assumption|].
    apply filter_In. split; [assumption|]. apply andb_true_iff.
    split; [now apply Z.eqb_eq|]. apply includes_In. now rewrite Hc.
Qed.

Lemma components_accepted_spec d pid ids :
  pk_component d ->
  (components_accepted d pid ids = true <->
   NoDup ids /\ forall c, In c ids -> on_page d pid c).
Proof.
  intros Hpk. unfold components_accepted.
  assert (Hnd : NoDup (valid_components d pid ids)).
  { unfold valid_components. now apply NoDup_map_filter. }
  assert (Hincl : incl (valid_components d pid ids) ids).
  { intros c Hc. apply valid_components_in in Hc. tauto. }
  rewrite orb_true_iff, negb_true_iff, nonempty_false, Nat.eqb_eq. split.
  - intros [->|Hlen]; [split; [constructor|intros c []]|].
    assert (Hle : (List.length ids <=
                   List.length (valid_components d pid ids))%nat) by lia.
    split.
    + apply (NoDup_incl_NoDup Hnd Hle Hincl).
    + intros c Hc. apply (NoDup_length_incl Hnd Hle Hincl) in Hc.
      apply valid_components_in in Hc. tauto.
  - intros [Hn Hall]. right. apply Permutation_length.
    apply NoDup_Permutation; try assumption.
    intros c. rewrite valid_components_in. split; [tauto|auto].
Qed.

(** C5. When the active email subscription of the address on the page is
    already accepted, upsertEmailSubscription leaves the whole store as it
    was, whatever the call's componentIds; and, the page being stored and
    the componentIds being accepted by the validation, it returns the
    projection of that row with its own token, acceptedAt and component
    ids. *)
Theorem upsert_accepted_returns_unchanged now uuid input d ex acc :
  active_unique (pageSubscriber d) ->
  active_subscription d (in_email input) (in_pageId input) ex ->
  PS.acceptedAt ex = Some acc ->
  snd (upsertEmailSubscription now uuid input d) = d /\
  (forall pg,
     find_page d (in_pageId input) = Some pg ->
     components_accepted d (in_pageId input) (upsert_ids input) = true ->
     fst (upsertEmailSubscription now uuid input d) =
     inr (Subscription.mk (PS.id ex) (PS.pageId ex) (Page.title pg)
            (Page.slug pg) (Page.customDomain pg) (PS.channelType ex)
            (PS.email ex) None None (PS.token ex) (PS.acceptedAt ex) None
            (components_of d (PS.id ex)))).
Proof.
  intros Hu Hex Ha.
  pose proof (active_subscription_found Hu Hex) as Hf.
  split.
  - destruct (find_page d (in_pageId input)) as [pg|] eqn:Hp.
    2:{ now rewrite upsert_page_missing. }
    destruct (components_accepted d (in_pageId input) (upsert_ids input))
      eqn:Hv.
    + now rewrite (upsert_accepted now uuid input d Hp Hv Hf Ha).
    + destruct (upsert_invalid now uuid input d Hp Hv) as [ids ->].
      reflexivity.
  - intros pg Hp Hv.
    rewrite (upsert_accepted now uuid input d Hp Hv Hf Ha), Ha.
    reflexivity.
Qed.

(** ** Deciding the uniqueness invariant *)

Lemma identity_clash_true r x i1 i2 :
  PS.unsubscribedAt r = None -> PS.unsubscribedAt x = None ->
  PS.pageId r = PS.pageId x -> PS.channelType r = PS.channelType x ->
  identity r = Some i1 -> identity x = Some i2 ->
  toLowerCase i1 = toLowerCase i2 ->
  identity_clash r x = true.
Proof.
  intros H1 H2 H3 H4 H5 H6 H7. unfold identity_clash.
  rewrite H1, H2, H3, H4, H5, H6, H7, Z.eqb_refl, !String.eqb_refl.
  reflexivity.
Qed.

Lemma identity_clash_sym r x : identity_clash r x = identity_clash x r.
Proof.
  unfold identity_clash.
  rewrite (Z.eqb_sym (PS.pageId r)), (String.eqb_sym (PS.channelType r)).
  destruct (identity r), (identity x);
    rewrite ?(String.eqb_sym (toLowerCase s));
    destruct (is_null (PS.unsubscribedAt r)),
             (is_null (PS.unsubscribedAt x)); reflexivity.
Qed.

Lemma active_unique_b_sound rows :
  active_unique_b rows = true -> active_unique rows.
Proof.
  induction rows as [|r rs IH]; intros Hb.
  - intros n1 n2 r1 r2 i1 i2 H1. destruct n1; discriminate.
  - simpl in Hb. apply andb_true_iff in Hb. destruct Hb as [Hr Hrs].
    specialize (IH Hrs). rewrite forallb_forall in Hr.
    intros n1 n2 r1 r2 i1 i2 H1 H2 U1 U2 P C I1 I2 L.
    destruct n1 as [|n1], n2 as [|n2]; simpl in H1, H2.
    + reflexivity.
    + inversion H1; subst r1. apply nth_error_In in H2.
      specialize (Hr r2 H2).
      rewrite (identity_clash_true r r2 U1 U2 P C I1 I2 L) in Hr.
      discriminate.
    + inversion H2; subst r2. apply nth_error_In in H1.
      specialize (Hr r1 H1). rewrite identity_clash_sym in Hr.
      rewrite (identity_clash_true r1 r U1 U2 P C I1 I2 L) in Hr.
      discriminate.
    + f_equal. now apply (IH n1 n2 r1 r2 i1 i2).
Qed.

Lemma ex_db_active_unique : active_unique (pageSubscriber ex_db).
Proof. apply active_unique_b_sound. reflexivity. Qed.

(** Subscriber A of the sample store is accepted: an upsert of its
    address in another letter case changes nothing. *)
Lemma upsert_accepted_returns_unchanged_witness :
  active_unique (pageSubscriber ex_db) /\
  active_subscription ex_db "A@Example.com" 1 ex_rowA /\
  PS.acceptedAt ex_rowA = Some 1000 /\
  snd (upsertEmailSubscription 5000 "uuid-5"
         (mkUpsert "A@Example.com" 1 (Some [2])) ex_db) = ex_db.
Proof.
  assert (Hs : active_subscription ex_db "A@Example.com" 1 ex_rowA).
  { unfold active_subscription. simpl. repeat split; auto. }
  split; [exact ex_db_active_unique|]. split; [exact Hs|].
  split; [reflexivity|].
  exact (proj1 (upsert_accepted_returns_unchanged 5000 "uuid-5"
                  (mkUpsert "A@Example.com" 1 (Some [2]))
                  ex_db_active_unique Hs eq_refl)).
Defined.

(** ** Creating a subscriber *)

Lemma links_for_NoDup sub ids : NoDup ids -> NoDup (links_for sub ids).
Proof.
  induction 1 as [|c r Hc Hr IH]; simpl; constructor; [|exact IH].
  intros Hin. apply links_for_in in Hin. simpl in Hin. tauto.
Qed.

Lemma components_of_app d t sub :
  map PSC.pageComponentId
    (filter (fun l => PSC.pageSubscriberId l =? sub)
       (pageSubscriberToPageComponent d ++ t)) =
  components_of d sub ++
  map PSC.pageComponentId
    (filter (fun l => PSC.pageSubscriberId l =? sub) t).
Proof. unfold components_of. now rewrite filter_app, map_app. Qed.

Lemma links_for_filter_same sub ids :
  map PSC.pageComponentId
    (filter (fun l => PSC.pageSubscriberId l =? sub) (links_for sub ids))
  = ids.
Proof.
  induction ids as [|c r IH]; simpl; [reflexivity|].
  rewrite Z.eqb_refl. simpl. now rewrite IH.
Qed.

Lemma links_for_filter_other sub sub' ids :
  sub <> sub' ->
  filter (fun l => PSC.pageSubscriberId l =? sub') (links_for sub ids) = [].
Proof.
  intros Hne. induction ids as [|c r IH]; simpl; [reflexivity|].
  destruct (sub =? sub') eqn:E; [apply Z.eqb_eq in E; contradiction|].
  exact IH.
Qed.

Lemma components_of_fresh d sub :
  fk_link_subscriber d -> ~ In sub (map PS.id (pageSubscriber d)) ->
  components_of d sub = [].
Proof.
  intros Hfk Hn. destruct (components_of d sub) as [|c r] eqn:E;
    [reflexivity|].
  assert (Hc : In c (components_of d sub)) by (rewrite E; now left).
  apply components_of_in in Hc. apply Hfk in Hc.
  destruct Hc as [x [Hx Hid]]. simpl in Hid. exfalso. apply Hn.
  rewrite <- Hid. now apply in_map.
Qed.

(** C6 (amended). When every stored email row of the address on the page
    (letter
    case aside) is unsubscribed, the page being stored and the componentIds
    accepted by the validation, upsertEmailSubscription succeeds and
    appends one row to the subscriber table, leaving every older row as it
    was, unsubscribedAt included: the new row has an id no older row has,
    the token generated by this call, acceptedAt = null,
    unsubscribedAt = null, expiresAt = now + 7 days rounded down to the
    second (the precision of the column) and the call's componentIds; the
    older rows keep their component ids. *)
Theorem upsert_after_unsubscribe_creates_row now uuid input d pg :
  pk_component d -> fk_link_subscriber d ->
  find_page d (in_pageId input) = Some pg ->
  components_accepted d (in_pageId input) (upsert_ids input) = true ->
  (forall r, In r (pageSubscriber d) ->
             same_email (in_email input) (in_pageId input) r = true ->
             PS.unsubscribedAt r <> None) ->
  exists s d' n,
    upsertEmailSubscription now uuid input d = (inr s, d') /\
    pageSubscriber d' = pageSubscriber d ++ [n] /\
    ~ In (PS.id n) (map PS.id (pageSubscriber d)) /\
    PS.email n = Some (toLowerCase (in_email input)) /\
    PS.pageId n = in_pageId input /\
    PS.channelType n = "email"%string /\
    PS.token n = Some uuid /\
    PS.acceptedAt n = None /\
    PS.unsubscribedAt n = None /\
    PS.expiresAt n =
      Some (timestamp_column (now + 7 * 24 * 60 * 60 * 1000)) /\
    components_of d' (PS.id n) = upsert_ids input /\
    Subscription.id s = PS.id n /\
    Subscription.token s = Some uuid /\
    Subscription.acceptedAt s = None /\
    Subscription.componentIds s = upsert_ids input /\
    (forall r, In r (pageSubscriber d) ->
               components_of d' (PS.id r) = components_of d (PS.id r)).
Proof.
  intros Hpk Hfk Hp Hv Hall.
  set (n := new_subscriber now uuid (in_email input) (in_pageId input)
              (pageSubscriber d)).
  assert (Hfresh : ~ In (PS.id n) (map PS.id (pageSubscriber d)))
    by apply next_id_fresh.
  assert (Hf : find_active_email d (toLowerCase (in_email input))
                 (in_pageId input) = None).
  { unfold find_active_email.
    destruct (find _ (pageSubscriber d)) as [r|] eqn:E; [|reflexivity].
    apply find_some in E. destruct E as [Hin Ha].
    apply is_active_email_spec in Ha. destruct Ha as [A1 [A2 [A3 A4]]].
    exfalso. apply (Hall r Hin); [|assumption]. unfold same_email.
    now rewrite A1, A2, A3, toLowerCase_idem, Z.eqb_refl,
      !String.eqb_refl. }
  assert (Hc : existsb (fun r => email_idx_clash r n) (pageSubscriber d)
               = false).
  { destruct (existsb _ (pageSubscriber d)) eqn:E; [|reflexivity].
    apply existsb_exists in E. destruct E as [r [Hin Hr]].
    unfold email_idx_clash, email_idx_member in Hr.
    repeat (apply andb_true_iff in Hr; destruct Hr as [Hr ?]).
    apply is_null_true in Hr. exfalso.
    match goal with H : (PS.pageId r =? _) = true |- _ =>
      apply Z.eqb_eq in H; simpl in H; rename H into Hpage end.
    match goal with H : String.eqb (PS.channelType r) _ = true |- _ =>
      rename H into Hchan end.
    match goal with H : match PS.email r with _ => _ end = true |- _ =>
      rename H into Hmail end.
    apply (Hall r Hin); [|assumption]. unfold same_email.
    rewrite Hchan, Hpage, Z.eqb_refl. simpl.
    destruct (PS.email r) as [a|]; [|discriminate].
    simpl in Hmail. now rewrite toLowerCase_idem in Hmail. }
  assert (Hnd : NoDup (upsert_ids input)).
  { apply (components_accepted_spec (in_pageId input) (upsert_ids input)
             Hpk) in Hv. tauto. }
  assert (Hi : insert_links_into (pageSubscriberToPageComponent d)
                 (links_for (PS.id n) (upsert_ids input)) =
               Some (pageSubscriberToPageComponent d ++
                     links_for (PS.id n) (upsert_ids input))).
  { apply insert_links_into_ok; [now apply links_for_NoDup|].
    intros v Hv1 Hv2. apply links_for_in in Hv1. destruct Hv1 as [Hs _].
    apply Hfk in Hv2. destruct Hv2 as [r [Hr Hid]]. apply Hfresh.
    rewrite <- Hs, <- Hid. now apply in_map. }
  pose proof (upsert_new now uuid input d Hp Hv Hf) as Hn.
  cbv zeta in Hn. fold n in Hn. rewrite Hc, Hi in Hn.
  eexists. eexists. exists n. split; [exact Hn|].
  cbn [pageSubscriber Subscription.id Subscription.token
       Subscription.acceptedAt Subscription.componentIds].
  split; [reflexivity|]. split; [exact Hfresh|].
  do 7 (split; [reflexivity|]).
  split.
  - unfold components_of at 1. cbn [pageSubscriberToPageComponent].
    rewrite components_of_app, links_for_filter_same.
    now rewrite (@components_of_fresh d (PS.id n) Hfk Hfresh).
  - do 4 (split; [reflexivity|]).
    intros r Hr. unfold components_of at 1.
    cbn [pageSubscriberToPageComponent]. rewrite components_of_app.
    rewrite links_for_filter_other; [apply app_nil_r|].
    intros E. apply Hfresh. rewrite E. now apply in_map.
Qed.

Lemma ex_components_pk : NoDup (map PageComponent.id ex_components).
Proof.
  simpl. repeat constructor; simpl; intuition discriminate.
Qed.

(** The address of the unsubscribed row subscribes again: a second row is
    appended with the new token and the old row is still there. *)
Lemma upsert_after_unsubscribe_creates_row_witness :
  pk_component ex_db_gone /\ fk_link_subscriber ex_db_gone /\
  find_page ex_db_gone 1 = Some ex_page /\
  components_accepted ex_db_gone 1 [2] = true /\
  (forall r, In r (pageSubscriber ex_db_gone) ->
             same_email "Gone@Example.com" 1 r = true ->
             PS.unsubscribedAt r <> None) /\
  exists s d' n,
    upsertEmailSubscription 9000 "uuid-9"
      (mkUpsert "Gone@Example.com" 1 (Some [2])) ex_db_gone = (inr s, d') /\
    pageSubscriber d' = [ex_rowGone; n] /\
    PS.token n = Some "uuid-9"%string /\ PS.acceptedAt n = None.
Proof.
  assert (H1 : pk_component ex_db_gone) by exact ex_components_pk.
  assert (H2 : fk_link_subscriber ex_db_gone).
  { intros l [<-|[]]. exists ex_rowGone. simpl. auto. }
  assert (H5 : forall r, In r (pageSubscriber ex_db_gone) ->
             same_email "Gone@Example.com" 1 r = true ->
             PS.unsubscribedAt r <> None).
  { intros r [<-|[]] _. discriminate. }
  do 4 (split; [assumption || reflexivity|]). split; [exact H5|].
  destruct (@upsert_after_unsubscribe_creates_row 9000 "uuid-9"%string
              (mkUpsert "Gone@Example.com" 1 (Some [2])) ex_db_gone ex_page
              H1 H2 eq_refl eq_refl H5)
    as [s [d' [n [E [R [_ [_ [_ [_ [T [A _]]]]]]]]]]].
  exists s, d', n. auto.
Defined.

(** An upsert at 1500 ms for the address whose only row is unsubscribed
    creates a row with the deadline 604801000 ms, which is not
    1500 ms + 7 days. *)
Lemma upsert_new_expiry_counterexample :
  exists s d1 n,
    upsertEmailSubscription 1500 "uuid-new"
      (mkUpsert "gone@example.com" 1 None) ex_db_gone = (inr s, d1) /\
    pageSubscriber d1 = [ex_rowGone; n] /\
    PS.acceptedAt n = None /\
    PS.expiresAt n = Some 604801000 /\
    PS.expiresAt n <> Some (1500 + 7 * 24 * 60 * 60 * 1000).
Proof.
  eexists. eexists. eexists.
  split; [cbv; reflexivity|]. split; [reflexivity|].
  split; [reflexivity|]. split; [reflexivity|discriminate].
Qed.

(** ** Merging into a pending subscription *)

Lemma update_rows_twice f g i rows :
  (forall r, g (f r) = g r) -> (forall r, PS.id (f r) = PS.id r) ->
  update_rows g i (update_rows f i rows) = update_rows g i rows.
Proof.
  intros Hg Hid. unfold update_rows. rewrite map_map. apply map_ext.
  intros r. destruct (PS.id r =? i) eqn:E.
  - now rewrite Hid, E, Hg.
  - now rewrite E.
Qed.

Lemma pending_state_components now d sub ids c :
  In c (components_of (pending_state now d sub ids) sub) <->
  In c (components_of d sub) \/ In c ids.
Proof. unfold components_of at 1. apply pending_components_in. Qed.

Lemma pending_state_again now now' d sub ids :
  pending_state now' (pending_state now d sub ids) sub ids =
  pending_state now' d sub ids.
Proof.
  unfold pending_state at 1.
  rewrite added_ids_none.
  2:{ intros c Hc. apply pending_state_components. now right. }
  unfold pending_state. cbn [page pageComponent pageSubscriber
    pageSubscriberToPageComponent links_for map insert_links_skip].
  f_equal. now apply update_rows_twice.
Qed.

Lemma pending_state_subscription now d mail pid ex ids :
  active_subscription d mail pid ex ->
  active_subscription (pending_state now d (PS.id ex) ids) mail pid
    (set_expiresAt (now + VERIFICATION_EXPIRY_MS) now ex).
Proof.
  intros [H1 [H2 [H3 [H4 H5]]]]. unfold active_subscription.
  cbn [pending_state pageSubscriber]. split; [|now repeat split].
  apply (update_rows_in
           (set_expiresAt (now + VERIFICATION_EXPIRY_MS) now)
           (PS.id ex)) in H1.
  now rewrite Z.eqb_refl in H1.
Qed.

Lemma pending_state_unique now d sub ids :
  active_unique (pageSubscriber d) ->
  active_unique (pageSubscriber (pending_state now d sub ids)).
Proof.
  intros Hu. cbn [pending_state pageSubscriber].
  apply active_unique_update; [|assumption]. intros r. now repeat split.
Qed.

Lemma upsert_pending_step now uuid input d pg ex :
  active_unique (pageSubscriber d) ->
  find_page d (in_pageId input) = Some pg ->
  components_accepted d (in_pageId input) (upsert_ids input) = true ->
  active_subscription d (in_email input) (in_pageId input) ex ->
  PS.acceptedAt ex = None ->
  upsertEmailSubscription now uuid input d =
  (inr (upsert_projection pg ex None
          (merged_ids (components_of d (PS.id ex)) (upsert_ids input))),
   pending_state now d (PS.id ex) (upsert_ids input)).
Proof.
  intros Hu Hp Hv Hex Ha.
  pose proof (active_subscription_found Hu Hex) as Hf.
  now rewrite (upsert_pending now uuid input d Hp Hv Hf Ha).
Qed.

(** C4 (amended). When the active email subscription of the address on the
    page is
    still pending (acceptedAt null), upsertEmailSubscription never adds a
    row; and, the page being stored and the componentIds accepted by the
    validation, it succeeds: it returns the row's id and token, the
    row stays the active subscription of the address with the same id,
    token and acceptedAt = null and with expiresAt = now + 7 days rounded
    down to the second (the precision of the column), no other row
    changes, and its component set becomes the union of the set it had and
    the call's componentIds.  A repeated call with the same input
    leaves the store a single call at the later instant would leave, and a
    further call with other componentIds brings the set to the union of
    all the inputs. *)
Theorem upsert_pending_merges now uuid input d ex :
  active_unique (pageSubscriber d) ->
  active_subscription d (in_email input) (in_pageId input) ex ->
  PS.acceptedAt ex = None ->
  List.length (pageSubscriber (snd (upsertEmailSubscription now uuid input d)))
    = List.length (pageSubscriber d) /\
  forall pg,
  find_page d (in_pageId input) = Some pg ->
  components_accepted d (in_pageId input) (upsert_ids input) = true ->
  exists s d1 ex1,
    upsertEmailSubscription now uuid input d = (inr s, d1) /\
    List.length (pageSubscriber d1) = List.length (pageSubscriber d) /\
    Subscription.id s = PS.id ex /\
    Subscription.token s = PS.token ex /\
    Subscription.acceptedAt s = None /\
    active_subscription d1 (in_email input) (in_pageId input) ex1 /\
    PS.id ex1 = PS.id ex /\ PS.token ex1 = PS.token ex /\
    PS.acceptedAt ex1 = None /\
    PS.expiresAt ex1 =
      Some (timestamp_column (now + 7 * 24 * 60 * 60 * 1000)) /\
    (forall r, In r (pageSubscriber d) -> PS.id r <> PS.id ex ->
               In r (pageSubscriber d1)) /\
    (forall c, In c (components_of d1 (PS.id ex)) <->
               In c (components_of d (PS.id ex)) \/
               In c (upsert_ids input)) /\
    (forall c, In c (Subscription.componentIds s) <->
               In c (components_of d (PS.id ex)) \/
               In c (upsert_ids input)) /\
    (forall now' uuid',
       exists s',
         upsertEmailSubscription now' uuid' input d1 =
           (inr s', snd (upsertEmailSubscription now' uuid' input d)) /\
         Subscription.id s' = PS.id ex /\
         Subscription.token s' = PS.token ex /\
         (forall c, In c (Subscription.componentIds s') <->
                    In c (components_of d (PS.id ex)) \/
                    In c (upsert_ids input))) /\
    (forall now' uuid' ids2,
       components_accepted d (in_pageId input) ids2 = true ->
       exists s2 d2,
         upsertEmailSubscription now' uuid'
           (mkUpsert (in_email input) (in_pageId input) (Some ids2)) d1
           = (inr s2, d2) /\
         Subscription.id s2 = PS.id ex /\
         List.length (pageSubscriber d2) = List.length (pageSubscriber d) /\
         (forall c, In c (components_of d2 (PS.id ex)) <->
                    In c (components_of d (PS.id ex)) \/
                    In c (upsert_ids input) \/ In c ids2)).
Proof.
  intros Hu Hex Ha. split.
  { destruct (find_page d (in_pageId input)) as [pg|] eqn:Hp.
    2:{ now rewrite upsert_page_missing. }
    destruct (components_accepted d (in_pageId input) (upsert_ids input))
      eqn:Hv.
    - rewrite (@upsert_pending_step now uuid input d pg ex Hu Hp Hv Hex Ha).
      apply update_rows_length.
    - destruct (upsert_invalid now uuid input d Hp Hv) as [ids ->].
      reflexivity. }
  intros pg Hp Hv.
  set (d1 := pending_state now d (PS.id ex) (upsert_ids input)).
  set (ex1 := set_expiresAt (now + VERIFICATION_EXPIRY_MS) now ex).
  assert (Hu1 : active_unique (pageSubscriber d1))
    by now apply pending_state_unique.
  assert (Hex1 : active_subscription d1 (in_email input) (in_pageId input)
                   ex1) by now apply pending_state_subscription.
  assert (Ha1 : PS.acceptedAt ex1 = None) by exact Ha.
  assert (Hp1 : find_page d1 (in_pageId input) = Some pg) by exact Hp.
  eexists. exists d1, ex1.
  split; [exact (@upsert_pending_step now uuid input d pg ex Hu Hp Hv Hex Ha)|].
  split; [apply update_rows_length|].
  do 3 (split; [reflexivity|]).
  split; [exact Hex1|].
  do 2 (split; [reflexivity|]). split; [exact Ha|].
  split; [reflexivity|].
  split.
  { intros r Hr Hne. cbn [d1 pending_state pageSubscriber].
    apply (update_rows_in
             (set_expiresAt (now + VERIFICATION_EXPIRY_MS) now)
             (PS.id ex)) in Hr.
    destruct (PS.id r =? PS.id ex) eqn:E; [|exact Hr].
    apply Z.eqb_eq in E. contradiction. }
  split; [intros c; apply pending_state_components|].
  split; [intros c; apply merged_ids_in|].
  split.
  - intros now' uuid'.
    assert (Hv1 : components_accepted d1 (in_pageId input)
                    (upsert_ids input) = true) by exact Hv.
    rewrite (@upsert_pending_step now' uuid' input d1 pg ex1
               Hu1 Hp1 Hv1 Hex1 Ha1).
    rewrite (@upsert_pending_step now' uuid' input d pg ex Hu Hp Hv Hex Ha).
    change (PS.id ex1) with (PS.id ex). unfold d1.
    rewrite pending_state_again. eexists. split; [reflexivity|].
    do 2 (split; [reflexivity|]).
    intros c. cbn [upsert_projection Subscription.componentIds].
    rewrite merged_ids_in, pending_state_components. tauto.
  - intros now' uuid' ids2 Hv2.
    assert (Hv1 : components_accepted d1
              (in_pageId (mkUpsert (in_email input) (in_pageId input)
                            (Some ids2)))
              (upsert_ids (mkUpsert (in_email input) (in_pageId input)
                             (Some ids2))) = true) by exact Hv2.
    eexists. eexists. split.
    + apply (@upsert_pending_step now' uuid'
               (mkUpsert (in_email input) (in_pageId input) (Some ids2))
               d1 pg ex1 Hu1 Hp1 Hv1 Hex1 Ha1).
    + split; [reflexivity|]. split.
      * cbn [pending_state pageSubscriber]. rewrite update_rows_length.
        apply update_rows_length.
      * intros c. change (PS.id ex1) with (PS.id ex).
        cbn [upsert_ids in_componentIds].
        rewrite pending_state_components. unfold d1.
        rewrite pending_state_components. tauto.
Qed.

(** The pending subscriber of the sample upsert asks again, now for
    component 1: same row, same token, expiry moved, component added. *)
Lemma upsert_pending_merges_witness :
  active_unique (pageSubscriber (snd ex_first)) /\
  find_page (snd ex_first) 1 = Some ex_page /\
  components_accepted (snd ex_first) 1 [1] = true /\
  active_subscription (snd ex_first) "user@example.com" 1 ex_pending /\
  PS.acceptedAt ex_pending = None /\
  exists s d1 ex1,
    upsertEmailSubscription 2000 "uuid-2"
      (mkUpsert "user@example.com" 1 (Some [1])) (snd ex_first)
      = (inr s, d1) /\
    List.length (pageSubscriber d1) = 1%nat /\
    Subscription.token s = Some "uuid-1"%string /\
    active_subscription d1 "user@example.com" 1 ex1 /\
    PS.expiresAt ex1 = Some 604802000.
Proof.
  assert (H1 : active_unique (pageSubscriber (snd ex_first)))
    by (apply active_unique_b_sound; reflexivity).
  assert (H4 : active_subscription (snd ex_first) "user@example.com" 1
                 ex_pending).
  { unfold active_subscription. repeat split; try reflexivity.
    simpl. now left. }
  split; [exact H1|]. do 2 (split; [reflexivity|]).
  split; [exact H4|]. split; [reflexivity|].
  destruct (@upsert_pending_merges 2000 "uuid-2"%string
              (mkUpsert "user@example.com" 1 (Some [1])) (snd ex_first)
              ex_pending H1 H4 eq_refl) as [_ Hm].
  destruct (Hm ex_page eq_refl eq_refl)
    as [s [d1 [ex1 [E [L [_ [T [_ [S [_ [_ [_ [X _]]]]]]]]]]]]].
  exists s, d1, ex1. repeat split; try assumption; apply S.
Defined.

(** A second upsert of the sample address at 2500 ms stores the deadline
    604802000 ms, which is not 2500 ms + 7 days. *)
Lemma upsert_pending_expiry_counterexample :
  exists s d1 r,
    upsertEmailSubscription 2500 "uuid-2"
      (mkUpsert "user@example.com" 1 None) (snd ex_first) = (inr s, d1) /\
    pageSubscriber d1 = [r] /\
    PS.id r = PS.id ex_pending /\
    PS.expiresAt r = Some 604802000 /\
    PS.expiresAt r <> Some (2500 + 7 * 24 * 60 * 60 * 1000).
Proof.
  eexists. eexists. eexists.
  split; [cbv; reflexivity|]. split; [reflexivity|]. split; [reflexivity|].
  split; [reflexivity|discriminate].
Qed.

(** ** The paths of the token operations *)

Lemma domain_rejected_found dom pg d :
  domain_rejected dom (Some pg) d = (inr (negb (domain_passes dom pg)), d).
Proof.
  unfold domain_rejected, domain_passes. svc_unfold.
  destruct dom as [s|]; [|reflexivity].
  destruct (truthy s); simpl; [|reflexivity].
  now rewrite negb_involutive.
Qed.

Lemma verify_unknown now tok dom d :
  find_by_token d tok = None ->
  verifySubscription now tok dom d = (inr None, d).
Proof.
  intros H. unfold verifySubscription. svc_unfold. now rewrite H.
Qed.

Lemma verify_found now tok dom d r pg :
  find_by_token d tok = Some r ->
  find_page d (PS.pageId r) = Some pg ->
  verifySubscription now tok dom d =
  if negb (domain_passes dom pg) then (inr None, d)
  else
    match PS.acceptedAt r with
    | Some acc =>
        (inr (Some (Subscription.mk (PS.id r) (PS.pageId r) (Page.title pg)
                      (Page.slug pg) (Page.customDomain pg)
                      (PS.channelType r) (PS.email r) (PS.webhookUrl r)
                      None (PS.token r) (Some acc) (PS.unsubscribedAt r)
                      (components_of d (PS.id r)))), d)
    | None =>
        if match PS.expiresAt r with
           | Some e => e <? now
           | None => false
           end
        then (inl TokenExpired, d)
        else
          (match filter (fun x => PS.id x =? PS.id r) (pageSubscriber d)
           with
           | [] => inl TypeError
           | u :: _ =>
               inr (Some (Subscription.mk (PS.id u) (PS.pageId u)
                            (Page.title pg) (Page.slug pg)
                            (Page.customDomain pg) (PS.channelType u)
                            (PS.email u) (PS.webhookUrl u) None (PS.token u)
                            (Some (timestamp_column now)) None
                            (components_of d (PS.id r))))
           end,
           set_pageSubscriber d
             (update_rows (set_acceptedAt now now) (PS.id r)
                (pageSubscriber d)))
    end.
Proof.
  intros Hf Hp. unfold verifySubscription.
  unfold bind at 1. unfold query at 1. rewrite Hf.
  cbn [option_map with_page_components]. rewrite Hp.
  unfold bind at 1. rewrite domain_rejected_found.
  destruct (negb (domain_passes dom pg)); [reflexivity|].
  destruct (PS.acceptedAt r) as [acc|]; [reflexivity|].
  destruct (match PS.expiresAt r with Some e => e <? now | None => false end);
    [reflexivity|].
  svc_unfold.
  destruct (filter (fun x => PS.id x =? PS.id r) (pageSubscriber d));
    reflexivity.
Qed.

Lemma unsubscribe_unknown now tok dom d :
  find_by_token d tok = None ->
  unsubscribe now tok dom d = (inl SubscriptionNotFound, d).
Proof.
  intros H. unfold unsubscribe. svc_unfold. now rewrite H.
Qed.

Lemma unsubscribe_found now tok dom d r pg :
  find_by_token d tok = Some r ->
  find_page d (PS.pageId r) = Some pg ->
  unsubscribe now tok dom d =
  if negb (domain_passes dom pg) then (inl SubscriptionNotFound, d)
  else if is_some (PS.unsubscribedAt r) then (inr tt, d)
  else (inr tt,
        set_pageSubscriber d
          (update_rows (set_unsubscribedAt now now) (PS.id r)
             (pageSubscriber d))).
Proof.
  intros Hf Hp. unfold unsubscribe.
  unfold bind at 1. unfold query at 1. rewrite Hf.
  cbn [option_map with_page_components]. rewrite Hp.
  unfold bind at 1. rewrite domain_rejected_found.
  destruct (negb (domain_passes dom pg)); [reflexivity|].
  destruct (is_some (PS.unsubscribedAt r)); reflexivity.
Qed.

Lemma updateScope_unknown now input d :
  find_by_token d (sc_token input) = None ->
  updateSubscriptionScope now input d = (inl SubscriptionNotFound, d).
Proof.
  intros H. unfold updateSubscriptionScope. svc_unfold. now rewrite H.
Qed.

Lemma updateScope_found now input d r pg :
  find_by_token d (sc_token input) = Some r ->
  find_page d (PS.pageId r) = Some pg ->
  updateSubscriptionScope now input d =
  if negb (domain_passes (sc_domain input) pg)
  then (inl SubscriptionNotFound, d)
  else
    match PS.acceptedAt r with
    | None => (inl NotVerified, d)
    | Some acc =>
        if is_some (PS.unsubscribedAt r) then (inl Unsubscribed, d)
        else if negb (components_accepted d (PS.pageId r)
                        (sc_componentIds input))
        then (inl ComponentsNotOnPage, d)
        else
          match insert_links_into
                  (filter (fun l => negb (PSC.pageSubscriberId l =? PS.id r))
                     (pageSubscriberToPageComponent d))
                  (links_for (PS.id r) (sc_componentIds input)) with
          | Some t =>
              (inr (Subscription.mk (PS.id r) (PS.pageId r) (Page.title pg)
                      (Page.slug pg) (Page.customDomain pg)
                      (PS.channelType r) (PS.email r) None None
                      (PS.token r) (Some acc) None (sc_componentIds input)),
               mkDB (page d) (pageComponent d)
                 (update_rows (set_updatedAt now) (PS.id r)
                    (pageSubscriber d)) t)
          | None =>
              (inl (ConstraintViolation
                      "PRIMARY KEY page_subscriber_to_page_component"), d)
          end
    end.
Proof.
  intros Hf Hp. unfold updateSubscriptionScope. cbv zeta.
  unfold bind at 1. unfold query at 1. rewrite Hf.
  cbn [option_map with_page_components]. rewrite Hp.
  unfold bind at 1. rewrite domain_rejected_found.
  destruct (negb (domain_passes (sc_domain input) pg)); [reflexivity|].
  destruct (PS.acceptedAt r) as [acc|]; [|reflexivity].
  destruct (is_some (PS.unsubscribedAt r)); [reflexivity|].
  unfold components_accepted. svc_unfold.
  destruct (nonempty (sc_componentIds input)) eqn:Hne; cbn [negb orb].
  - destruct (Nat.eqb _ _); cbn [negb]; [|reflexivity].
    cbn [pageSubscriberToPageComponent set_links].
    destruct (insert_links_into _ _); reflexivity.
  - apply nonempty_false in Hne. rewrite Hne. destruct d; reflexivity.
Qed.

Lemma truthy_true s : truthy s = true <-> s <> EmptyString.
Proof. destruct s; simpl; split; congruence. Qed.

Lemma domain_differs_spec s pg :
  domain_differs s pg = true <->
  toLowerCase s <> toLowerCase (Page.slug pg) /\
  (forall c, Page.customDomain pg = Some c ->
             toLowerCase s <> toLowerCase c).
Proof.
  unfold domain_differs. rewrite andb_true_iff, !negb_true_iff.
  rewrite String.eqb_neq.
  destruct (Page.customDomain pg) as [c|].
  - rewrite String.eqb_neq. split.
    + intros [H1 H2]. split; [assumption|]. intros c' E.
      inversion E; subst. assumption.
    + intros [H1 H2]. split; [assumption|]. now apply H2.
  - split; [|tauto]. intros [H1 _]. split; [assumption|]. discriminate.
Qed.

Lemma domain_passes_false dom pg :
  domain_passes dom pg = false <->
  exists s, dom = Some s /\ s <> EmptyString /\
            toLowerCase s <> toLowerCase (Page.slug pg) /\
            (forall c, Page.customDomain pg = Some c ->
                       toLowerCase s <> toLowerCase c).
Proof.
  unfold domain_passes. destruct dom as [s|].
  - rewrite orb_false_iff, !negb_false_iff, truthy_true,
      domain_differs_spec. split.
    + intros [H1 H2]. exists s. tauto.
    + intros [s' [E H]]. inversion E; subst. tauto.
  - split; [discriminate|]. intros [s [E _]]. discriminate.
Qed.

(** C7 (amended). Verify returns the not-found sentinel and changes
    nothing when the token matches no subscription, and equally when a
    non-empty domain is given that matches, letter case aside, neither the
    page's slug nor its custom domain.  When the domain is absent, empty or
    matching: an accepted subscription is returned as it is, nothing
    changing; a subscription with acceptedAt null whose expiresAt lies
    before now fails with the Expired error, nothing changing; any other
    gets acceptedAt = now rounded down to the second (the precision of the
    column) and the projection of the updated row, with that acceptedAt,
    is returned. *)
Theorem verify_behaviour now tok dom d :
  (find_by_token d tok = None ->
   verifySubscription now tok dom d = (inr None, d)) /\
  (forall r pg,
     find_by_token d tok = Some r ->
     find_page d (PS.pageId r) = Some pg ->
     (forall s, dom = Some s -> s <> EmptyString ->
        toLowerCase s <> toLowerCase (Page.slug pg) ->
        (forall c, Page.customDomain pg = Some c ->
                   toLowerCase s <> toLowerCase c) ->
        verifySubscription now tok dom d = (inr None, d)) /\
     (domain_passes dom pg = true ->
      (forall acc, PS.acceptedAt r = Some acc ->
         verifySubscription now tok dom d =
         (inr (Some (Subscription.mk (PS.id r) (PS.pageId r) (Page.title pg)
                       (Page.slug pg) (Page.customDomain pg)
                       (PS.channelType r) (PS.email r) (PS.webhookUrl r)
                       None (PS.token r) (Some acc) (PS.unsubscribedAt r)
                       (components_of d (PS.id r)))), d)) /\
      (forall e, PS.acceptedAt r = None -> PS.expiresAt r = Some e ->
         e < now ->
         verifySubscription now tok dom d = (inl TokenExpired, d)) /\
      (pk_subscriber d -> PS.acceptedAt r = None ->
       (forall e, PS.expiresAt r = Some e -> now <= e) ->
       verifySubscription now tok dom d =
       (inr (Some (Subscription.mk (PS.id r) (PS.pageId r) (Page.title pg)
                     (Page.slug pg) (Page.customDomain pg)
                     (PS.channelType r) (PS.email r) (PS.webhookUrl r)
                     None (PS.token r) (Some (timestamp_column now)) None
                     (components_of d (PS.id r)))),
        set_pageSubscriber d
          (update_rows (set_acceptedAt now now) (PS.id r)
             (pageSubscriber d))) /\
       PS.acceptedAt (set_acceptedAt now now r)
         = Some (timestamp_column now) /\
       In (set_acceptedAt now now r)
          (update_rows (set_acceptedAt now now) (PS.id r)
             (pageSubscriber d))))).
Proof.
  split; [apply verify_unknown|].
  intros r pg Hf Hp. rewrite (@verify_found now tok dom d r pg Hf Hp).
  assert (Hin : In r (pageSubscriber d)).
  { unfold find_by_token in Hf. apply find_some in Hf. tauto. }
  split.
  - intros s Hs Hne Hslug Hcust.
    assert (Hd : domain_passes dom pg = false).
    { apply domain_passes_false. exists s. auto. }
    now rewrite Hd.
  - intros Hd. rewrite Hd. cbn [negb]. split; [|split].
    + intros acc Ha. now rewrite Ha.
    + intros e Ha He Hlt. rewrite Ha, He.
      apply Z.ltb_lt in Hlt. now rewrite Hlt.
    + intros Hpk Ha He. rewrite Ha.
      assert (Hx : match PS.expiresAt r with
                   | Some e => e <? now
                   | None => false
                   end = false).
      { destruct (PS.expiresAt r) as [e|]; [|reflexivity].
        apply Z.ltb_ge. now apply He. }
      rewrite Hx, (@filter_id_unique (pageSubscriber d) r Hpk Hin).
      split; [reflexivity|]. split; [reflexivity|].
      apply (update_rows_in (set_acceptedAt now now) (PS.id r)) in Hin.
      now rewrite Z.eqb_refl in Hin.
Qed.

(** On the pending subscriber of the sample upsert, with page slug
    "status" and custom domain "status.example.com": the empty domain
    matches neither, and verify accepts the subscription all the same.
    And a verification at 5500 ms stores and returns the acceptance date
    5000 ms, not the instant of the call. *)
Lemma verify_empty_domain_counterexample :
  find_by_token (snd ex_first) "uuid-1" = Some ex_pending /\
  find_page (snd ex_first) (PS.pageId ex_pending) = Some ex_page /\
  toLowerCase "" <> toLowerCase (Page.slug ex_page) /\
  (forall c, Page.customDomain ex_page = Some c ->
             toLowerCase "" <> toLowerCase c) /\
  verifySubscription 5000 "uuid-1" (Some ""%string) (snd ex_first)
    <> (inr None, snd ex_first) /\
  (exists s,
     fst (verifySubscription 5000 "uuid-1" (Some ""%string) (snd ex_first))
       = inr (Some s) /\
     Subscription.acceptedAt s = Some 5000) /\
  exists s,
    fst (verifySubscription 5500 "uuid-1" None (snd ex_first))
      = inr (Some s) /\
    Subscription.acceptedAt s = Some 5000 /\
    Subscription.acceptedAt s <> Some 5500.
Proof.
  split; [reflexivity|]. split; [reflexivity|].
  split; [discriminate|].
  split; [intros c E; inversion E; discriminate|].
  split; [discriminate|].
  split.
  - eexists. split; reflexivity.
  - eexists. split; [reflexivity|]. split; [reflexivity|discriminate].
Qed.

(** A domain that is not the page's: the same answer as for an unknown
    token. *)
Lemma verify_behaviour_witness :
  find_by_token (snd ex_first) "uuid-1" = Some ex_pending /\
  find_page (snd ex_first) (PS.pageId ex_pending) = Some ex_page /\
  verifySubscription 5000 "uuid-1" (Some "Wrong"%string) (snd ex_first)
    = (inr None, snd ex_first) /\
  (find_by_token (snd ex_first) "nobody" = None /\
   verifySubscription 5000 "nobody" (Some "Wrong"%string) (snd ex_first)
     = (inr None, snd ex_first)).
Proof.
  destruct (verify_behaviour 5000 "uuid-1" (Some "Wrong"%string)
              (snd ex_first)) as [_ H].
  destruct (H ex_pending ex_page eq_refl eq_refl) as [Hm _].
  destruct (verify_behaviour 5000 "nobody" (Some "Wrong"%string)
              (snd ex_first)) as [Hn _].
  split; [reflexivity|]. split; [reflexivity|]. split.
  - apply (Hm "Wrong"%string eq_refl); [discriminate|discriminate|].
    intros c E. inversion E. discriminate.
  - split; [reflexivity|]. exact (Hn eq_refl).
Defined.

(** C10 (amended). Verify does not look at unsubscribedAt: for a row with
    acceptedAt null, unsubscribedAt set and expiresAt in the future,
    designated by the token and with a passing domain, it returns the
    accepted projection, and the stored row, still unsubscribed, has
    acceptedAt = now rounded down to the second (the precision of the
    column), which is also the acceptedAt returned. *)
Theorem verify_accepts_unsubscribed_row now tok dom d r pg u e :
  pk_subscriber d ->
  find_by_token d tok = Some r ->
  find_page d (PS.pageId r) = Some pg ->
  domain_passes dom pg = true ->
  PS.acceptedAt r = None ->
  PS.unsubscribedAt r = Some u ->
  PS.expiresAt r = Some e -> now < e ->
  exists s d',
    verifySubscription now tok dom d = (inr (Some s), d') /\
    Subscription.id s = PS.id r /\
    Subscription.token s = PS.token r /\
    Subscription.acceptedAt s = Some (timestamp_column now) /\
    exists r',
      In r' (pageSubscriber d') /\ PS.id r' = PS.id r /\
      PS.token r' = PS.token r /\
      PS.acceptedAt r' = Some (timestamp_column now) /\
      PS.unsubscribedAt r' = Some u.
Proof.
  intros Hpk Hf Hp Hd Ha Hu He Hlt.
  assert (Hin : In r (pageSubscriber d)).
  { unfold find_by_token in Hf. apply find_some in Hf. tauto. }
  rewrite (@verify_found now tok dom d r pg Hf Hp), Hd, Ha, He.
  cbn [negb]. assert (Hx : (e <? now) = false) by (apply Z.ltb_ge; lia).
  rewrite Hx, (@filter_id_unique (pageSubscriber d) r Hpk Hin).
  eexists. eexists. split; [reflexivity|].
  do 3 (split; [reflexivity|]).
  exists (set_acceptedAt now now r). cbn [pageSubscriber set_pageSubscriber].
  split.
  - apply (update_rows_in (set_acceptedAt now now) (PS.id r)) in Hin.
    now rewrite Z.eqb_refl in Hin.
  - repeat split; try reflexivity. exact Hu.
Qed.

Lemma verify_accepts_unsubscribed_row_witness :
  pk_subscriber ex_db_left /\
  find_by_token ex_db_left "tok-left" = Some ex_rowLeft /\
  PS.acceptedAt ex_rowLeft = None /\
  PS.unsubscribedAt ex_rowLeft = Some 2000 /\
  PS.expiresAt ex_rowLeft = Some 700000 /\ 5000 < 700000 /\
  exists s d',
    verifySubscription 5000 "tok-left" None ex_db_left = (inr (Some s), d') /\
    Subscription.acceptedAt s = Some 5000 /\
    exists r', In r' (pageSubscriber d') /\
               PS.acceptedAt r' = Some 5000 /\
               PS.unsubscribedAt r' = Some 2000.
Proof.
  assert (Hpk : pk_subscriber ex_db_left).
  { unfold pk_subscriber. simpl. repeat constructor. simpl. tauto. }
  assert (Hlt : 5000 < 700000) by lia.
  split; [exact Hpk|]. do 4 (split; [reflexivity|]). split; [exact Hlt|].
  destruct (@verify_accepts_unsubscribed_row 5000 "tok-left"%string None
              ex_db_left ex_rowLeft ex_page 2000 700000
              Hpk eq_refl eq_refl eq_refl eq_refl eq_refl eq_refl Hlt)
    as [s [d' [E [_ [_ [A [r' [I [_ [_ [A' U']]]]]]]]]]].
  exists s, d'. split; [exact E|]. split; [exact A|].
  exists r'. auto.
Defined.

(** A verification at 5500 ms of the unsubscribed, unverified sample row
    stores and returns the acceptance date 5000 ms, not the instant of the
    call. *)
Lemma verify_unsubscribed_instant_counterexample :
  exists s d1 r,
    verifySubscription 5500 "tok-left" None ex_db_left
      = (inr (Some s), d1) /\
    pageSubscriber d1 = [r] /\
    PS.unsubscribedAt r = Some 2000 /\
    PS.acceptedAt r = Some 5000 /\
    Subscription.acceptedAt s = Some 5000 /\
    PS.acceptedAt r <> Some 5500.
Proof.
  eexists. eexists. eexists.
  split; [cbv; reflexivity|]. split; [reflexivity|]. split; [reflexivity|].
  split; [reflexivity|]. split; [reflexivity|discriminate].
Qed.

(** C9 (amended). Unsubscribe fails with NotFound, changing nothing, for
    a token that matches no subscription and for a non-empty domain that
    matches neither the page's slug nor its custom domain.  When the
    domain is absent, empty or matching, it succeeds, and a second call
    with the same token and domain, at any later instant, succeeds and
    leaves the store exactly as the first call left it: the first call sets
    unsubscribedAt (to its own instant, at the precision of the column)
    when it was null and changes nothing when it was already set. *)
Theorem unsubscribe_idempotent now1 now2 tok dom d :
  (find_by_token d tok = None ->
   unsubscribe now1 tok dom d = (inl SubscriptionNotFound, d)) /\
  (forall r pg,
     find_by_token d tok = Some r ->
     find_page d (PS.pageId r) = Some pg ->
     (forall s, dom = Some s -> s <> EmptyString ->
        toLowerCase s <> toLowerCase (Page.slug pg) ->
        (forall c, Page.customDomain pg = Some c ->
                   toLowerCase s <> toLowerCase c) ->
        unsubscribe now1 tok dom d = (inl SubscriptionNotFound, d)) /\
     (domain_passes dom pg = true ->
      fst (unsubscribe now1 tok dom d) = inr tt /\
      unsubscribe now2 tok dom (snd (unsubscribe now1 tok dom d)) =
        (inr tt, snd (unsubscribe now1 tok dom d)) /\
      (PS.unsubscribedAt r = None ->
       snd (unsubscribe now1 tok dom d) =
         set_pageSubscriber d
           (update_rows (set_unsubscribedAt now1 now1) (PS.id r)
              (pageSubscriber d)) /\
       In (set_unsubscribedAt now1 now1 r)
          (pageSubscriber (snd (unsubscribe now1 tok dom d)))) /\
      (PS.unsubscribedAt r <> None ->
       snd (unsubscribe now1 tok dom d) = d))).
Proof.
  split; [apply unsubscribe_unknown|].
  intros r pg Hf Hp.
  rewrite (@unsubscribe_found now1 tok dom d r pg Hf Hp).
  assert (Hin : In r (pageSubscriber d)).
  { unfold find_by_token in Hf. apply find_some in Hf. tauto. }
  split.
  - intros s Hs Hne Hslug Hcust.
    assert (Hd : domain_passes dom pg = false).
    { apply domain_passes_false. exists s. auto. }
    now rewrite Hd.
  - intros Hd. rewrite Hd. cbn [negb].
    destruct (PS.unsubscribedAt r) as [u|] eqn:Hu; cbn [is_some fst snd].
    + split; [reflexivity|]. split.
      * rewrite (@unsubscribe_found now2 tok dom d r pg Hf Hp), Hd, Hu.
        reflexivity.
      * split; [discriminate|reflexivity].
    + split; [reflexivity|]. split.
      * set (r1 := set_unsubscribedAt now1 now1 r).
        set (d1 := set_pageSubscriber d _).
        assert (Hf1 : find_by_token d1 tok = Some r1).
        { unfold find_by_token, d1. cbn [pageSubscriber set_pageSubscriber].
          rewrite find_update_rows by reflexivity.
          unfold find_by_token in Hf. rewrite Hf. cbn [option_map].
          now rewrite Z.eqb_refl. }
        assert (Hp1 : find_page d1 (PS.pageId r1) = Some pg) by exact Hp.
        rewrite (@unsubscribe_found now2 tok dom d1 r1 pg Hf1 Hp1), Hd.
        reflexivity.
      * split; [|congruence]. intros _. split; [reflexivity|].
        cbn [pageSubscriber set_pageSubscriber].
        apply (update_rows_in (set_unsubscribedAt now1 now1) (PS.id r))
          in Hin.
        now rewrite Z.eqb_refl in Hin.
Qed.

(** On the pending subscriber of the sample upsert: the empty domain
    matches neither the slug nor the custom domain of the page, and
    unsubscribe succeeds instead of failing with NotFound. *)
Lemma unsubscribe_empty_domain_counterexample :
  find_by_token (snd ex_first) "uuid-1" = Some ex_pending /\
  find_page (snd ex_first) (PS.pageId ex_pending) = Some ex_page /\
  toLowerCase "" <> toLowerCase (Page.slug ex_page) /\
  (forall c, Page.customDomain ex_page = Some c ->
             toLowerCase "" <> toLowerCase c) /\
  fst (unsubscribe 5000 "uuid-1" (Some ""%string) (snd ex_first))
    <> inl SubscriptionNotFound /\
  fst (unsubscribe 5000 "uuid-1" (Some ""%string) (snd ex_first)) = inr tt.
Proof.
  split; [reflexivity|]. split; [reflexivity|].
  split; [discriminate|].
  split; [intros c E; inversion E; discriminate|].
  split; [discriminate|reflexivity].
Qed.

(** Unsubscribing the pending subscriber of the sample upsert twice. *)
Lemma unsubscribe_idempotent_witness :
  find_by_token (snd ex_first) "uuid-1" = Some ex_pending /\
  find_page (snd ex_first) (PS.pageId ex_pending) = Some ex_page /\
  domain_passes (Some "STATUS"%string) ex_page = true /\
  unsubscribe 6000 "uuid-1" (Some "STATUS"%string)
    (snd (unsubscribe 5000 "uuid-1" (Some "STATUS"%string) (snd ex_first)))
  = (inr tt,
     snd (unsubscribe 5000 "uuid-1" (Some "STATUS"%string) (snd ex_first))).
Proof.
  destruct (unsubscribe_idempotent 5000 6000 "uuid-1"
              (Some "STATUS"%string) (snd ex_first)) as [_ H].
  destruct (H ex_pending ex_page eq_refl eq_refl) as [_ Hp].
  destruct (Hp eq_refl) as [_ [H2 _]].
  split; [reflexivity|]. split; [reflexivity|]. split; [reflexivity|].
  exact H2.
Defined.

(** ** Replacing the scope *)

Lemma on_page_b_spec d pid c : on_page_b d pid c = true <-> on_page d pid c.
Proof.
  unfold on_page_b, on_page. rewrite existsb_exists. split.
  - intros [pc [Hin Hq]]. apply andb_true_iff in Hq.
    destruct Hq as [H1 H2]. apply Z.eqb_eq in H1, H2. eauto.
  - intros [pc [Hin [H1 H2]]]. exists pc. split; [assumption|].
    apply andb_true_iff. split; now apply Z.eqb_eq.
Qed.

Lemma some_not_on_page d pid ids :
  ~ (forall c, In c ids -> on_page d pid c) ->
  exists c, In c ids /\ ~ on_page d pid c.
Proof.
  induction ids as [|x xs IH]; intros H.
  - exfalso. apply H. intros c [].
  - destruct (on_page_b d pid x) eqn:E.
    + apply on_page_b_spec in E. destruct IH as [c [Hc Hn]].
      * intros Hall. apply H. intros c [->|Hc]; auto.
      * exists c. simpl. auto.
    + exists x. split; [now left|]. intros Hx.
      apply on_page_b_spec in Hx. congruence.
Qed.

Lemma replace_links_ok d sub ids :
  NoDup ids ->
  insert_links_into
    (filter (fun l => negb (PSC.pageSubscriberId l =? sub))
       (pageSubscriberToPageComponent d))
    (links_for sub ids) = Some (replaced_links d sub ids).
Proof.
  intros Hnd. apply insert_links_into_ok; [now apply links_for_NoDup|].
  intros v Hv Hin. apply links_for_in in Hv. destruct Hv as [Hs _].
  apply filter_In in Hin. destruct Hin as [_ Hq].
  rewrite Hs, Z.eqb_refl in Hq. discriminate.
Qed.

Lemma replaced_links_same d sub ids :
  map PSC.pageComponentId
    (filter (fun l => PSC.pageSubscriberId l =? sub)
       (replaced_links d sub ids)) = ids.
Proof.
  unfold replaced_links. rewrite filter_app, map_app, links_for_filter_same.
  replace (filter _ (filter _ _)) with (@nil PSC.t); [reflexivity|].
  symmetry. induction (pageSubscriberToPageComponent d) as [|l r IH];
    [reflexivity|].
  simpl. destruct (PSC.pageSubscriberId l =? sub) eqn:E; simpl;
    [exact IH|]. now rewrite E.
Qed.

Lemma replaced_links_other d sub ids o :
  o <> sub ->
  map PSC.pageComponentId
    (filter (fun l => PSC.pageSubscriberId l =? o)
       (replaced_links d sub ids)) = components_of d o.
Proof.
  intros Hne. unfold replaced_links, components_of.
  rewrite filter_app, map_app, links_for_filter_other by congruence.
  rewrite app_nil_r. f_equal.
  induction (pageSubscriberToPageComponent d) as [|l r IH];
    [reflexivity|].
  simpl. destruct (PSC.pageSubscriberId l =? sub) eqn:E; simpl.
  - apply Z.eqb_eq in E.
    destruct (PSC.pageSubscriberId l =? o) eqn:E2; [|exact IH].
    apply Z.eqb_eq in E2. congruence.
  - destruct (PSC.pageSubscriberId l =? o); [now rewrite IH|exact IH].
Qed.

Lemma updateScope_cases now input d r pg :
  pk_component d ->
  find_by_token d (sc_token input) = Some r ->
  find_page d (PS.pageId r) = Some pg ->
  updateSubscriptionScope now input d =
  if negb (domain_passes (sc_domain input) pg)
  then (inl SubscriptionNotFound, d)
  else
    match PS.acceptedAt r with
    | None => (inl NotVerified, d)
    | Some acc =>
        if is_some (PS.unsubscribedAt r) then (inl Unsubscribed, d)
        else if negb (components_accepted d (PS.pageId r)
                        (sc_componentIds input))
        then (inl ComponentsNotOnPage, d)
        else
          (inr (Subscription.mk (PS.id r) (PS.pageId r) (Page.title pg)
                  (Page.slug pg) (Page.customDomain pg)
                  (PS.channelType r) (PS.email r) None None
                  (PS.token r) (Some acc) None (sc_componentIds input)),
           mkDB (page d) (pageComponent d)
             (update_rows (set_updatedAt now) (PS.id r) (pageSubscriber d))
             (replaced_links d (PS.id r) (sc_componentIds input)))
    end.
Proof.
  intros Hpk Hf Hp. rewrite (@updateScope_found now input d r pg Hf Hp).
  destruct (negb (domain_passes (sc_domain input) pg)); [reflexivity|].
  destruct (PS.acceptedAt r) as [acc|]; [|reflexivity].
  destruct (is_some (PS.unsubscribedAt r)); [reflexivity|].
  destruct (components_accepted d (PS.pageId r) (sc_componentIds input))
    eqn:Hv; cbn [negb]; [|reflexivity].
  apply (components_accepted_spec (PS.pageId r) (sc_componentIds input)
           Hpk) in Hv.
  destruct Hv as [Hnd _]. now rewrite replace_links_ok.
Qed.

(** C8 (amended). With component ids a primary key and every subscriber's
    page stored, updateScope makes its checks in order and raises the error
    of the first that fails: NotFound iff the token matches no subscription
    or a non-empty domain matches neither slug nor custom domain; otherwise
    NotVerified iff acceptedAt is null; otherwise Unsubscribed iff
    unsubscribedAt is set; otherwise, for componentIds without repetition,
    Validation iff some id is not a component of the subscription's page.
    A failing call leaves the whole store unchanged; a successful call
    makes the stored component ids of the subscription exactly the given
    list, leaves the component ids of every other subscriber alone and
    only touches updatedAt in the subscriber table.  No other outcome
    exists. *)
Theorem updateScope_behaviour now input d res :
  pk_component d -> fk_subscriber_page d ->
  updateSubscriptionScope now input d = res ->
  (fst res = inl SubscriptionNotFound <->
   find_by_token d (sc_token input) = None \/
   exists r pg,
     find_by_token d (sc_token input) = Some r /\
     find_page d (PS.pageId r) = Some pg /\
     domain_passes (sc_domain input) pg = false) /\
  (fst res = inl NotVerified <->
   exists r pg,
     find_by_token d (sc_token input) = Some r /\
     find_page d (PS.pageId r) = Some pg /\
     domain_passes (sc_domain input) pg = true /\
     PS.acceptedAt r = None) /\
  (fst res = inl Unsubscribed <->
   exists r pg,
     find_by_token d (sc_token input) = Some r /\
     find_page d (PS.pageId r) = Some pg /\
     domain_passes (sc_domain input) pg = true /\
     PS.acceptedAt r <> None /\ PS.unsubscribedAt r <> None) /\
  (NoDup (sc_componentIds input) ->
   (fst res = inl ComponentsNotOnPage <->
    exists r pg,
      find_by_token d (sc_token input) = Some r /\
      find_page d (PS.pageId r) = Some pg /\
      domain_passes (sc_domain input) pg = true /\
      PS.acceptedAt r <> None /\ PS.unsubscribedAt r = None /\
      exists c, In c (sc_componentIds input) /\
                ~ on_page d (PS.pageId r) c)) /\
  (forall e, fst res = inl e -> snd res = d) /\
  (forall s, fst res = inr s ->
     exists r,
       find_by_token d (sc_token input) = Some r /\
       Subscription.id s = PS.id r /\
       Subscription.componentIds s = sc_componentIds input /\
       components_of (snd res) (PS.id r) = sc_componentIds input /\
       (forall o, o <> PS.id r ->
                  components_of (snd res) o = components_of d o) /\
       pageSubscriber (snd res) =
         update_rows (set_updatedAt now) (PS.id r) (pageSubscriber d)) /\
  ((exists s, fst res = inr s) \/
   fst res = inl SubscriptionNotFound \/ fst res = inl NotVerified \/
   fst res = inl Unsubscribed \/ fst res = inl ComponentsNotOnPage).
Proof.
  intros Hpk Hfk <-.
  destruct (find_by_token d (sc_token input)) as [r|] eqn:Hf.
  2:{ rewrite updateScope_unknown by assumption. cbn [fst snd].
      repeat split; try discriminate; auto;
        try (intros [r [pg [E _]]]; discriminate). }
  assert (Hin : In r (pageSubscriber d)).
  { unfold find_by_token in Hf. apply find_some in Hf. tauto. }
  destruct (find_page d (PS.pageId r)) as [pg|] eqn:Hp;
    [|exfalso; now apply (Hfk r Hin)].
  rewrite (@updateScope_cases now input d r pg Hpk Hf Hp).
  assert (Hsame : forall (P : PS.t -> Page.t -> Prop),
            (exists r' pg', Some r = Some r' /\
               find_page d (PS.pageId r') = Some pg' /\ P r' pg') <->
            P r pg).
  { intros P. split.
    - intros [r' [pg' [E [Hp' HP]]]]. inversion E; subst r'.
      rewrite Hp in Hp'. inversion Hp'; subst pg'. exact HP.
    - intros HP. exists r, pg. auto. }
  rewrite (Hsame (fun r' pg' =>
             domain_passes (sc_domain input) pg' = false)).
  rewrite (Hsame (fun r' pg' =>
             domain_passes (sc_domain input) pg' = true /\
             PS.acceptedAt r' = None)).
  rewrite (Hsame (fun r' pg' =>
             domain_passes (sc_domain input) pg' = true /\
             PS.acceptedAt r' <> None /\ PS.unsubscribedAt r' <> None)).
  rewrite (Hsame (fun r' pg' =>
             domain_passes (sc_domain input) pg' = true /\
             PS.acceptedAt r' <> None /\ PS.unsubscribedAt r' = None /\
             exists c, In c (sc_componentIds input) /\
                       ~ on_page d (PS.pageId r') c)).
  clear Hsame.
  destruct (domain_passes (sc_domain input) pg) eqn:Hd; cbn [negb].
  2:{ cbn [fst snd]. intuition (try discriminate; auto). }
  destruct (PS.acceptedAt r) as [acc|] eqn:Ha.
  2:{ cbn [fst snd]. intuition (try discriminate; auto). }
  destruct (PS.unsubscribedAt r) as [u|] eqn:Hu; cbn [is_some].
  { cbn [fst snd]. intuition (try discriminate; auto). }
  destruct (components_accepted d (PS.pageId r) (sc_componentIds input))
    eqn:Hv; cbn [negb fst snd].
  - pose proof (proj1 (components_accepted_spec (PS.pageId r)
                         (sc_componentIds input) Hpk) Hv) as [Hnd Hall].
    assert (Hok : forall s,
              inr (Subscription.mk (PS.id r) (PS.pageId r) (Page.title pg)
                     (Page.slug pg) (Page.customDomain pg)
                     (PS.channelType r) (PS.email r) None None (PS.token r)
                     (Some acc) None (sc_componentIds input))
              = @inr Error _ s ->
              exists r0, Some r = Some r0 /\
                Subscription.id s = PS.id r0 /\
                Subscription.componentIds s = sc_componentIds input /\
                components_of
                  (mkDB (page d) (pageComponent d)
                     (update_rows (set_updatedAt now) (PS.id r)
                        (pageSubscriber d))
                     (replaced_links d (PS.id r) (sc_componentIds input)))
                  (PS.id r0) = sc_componentIds input /\
                (forall o, o <> PS.id r0 ->
                   components_of
                     (mkDB (page d) (pageComponent d)
                        (update_rows (set_updatedAt now) (PS.id r)
                           (pageSubscriber d))
                        (replaced_links d (PS.id r)
                           (sc_componentIds input))) o
                   = components_of d o) /\
                update_rows (set_updatedAt now) (PS.id r) (pageSubscriber d)
                = update_rows (set_updatedAt now) (PS.id r0)
                    (pageSubscriber d)).
    { intros s E. inversion E; subst s. exists r.
      split; [reflexivity|]. do 2 (split; [reflexivity|]).
      split; [apply replaced_links_same|].
      split; [|reflexivity].
      intros o Ho. now apply replaced_links_other. }
    split; [intuition discriminate|].
    split; [intuition discriminate|].
    split; [intuition discriminate|].
    split.
    { intros _. split; [discriminate|].
      intros [_ [_ [_ [c [Hc Hn]]]]]. exfalso. apply Hn. now apply Hall. }
    split; [discriminate|].
    split; [exact Hok|]. left. eauto.
  - split; [intuition discriminate|].
    split; [intuition discriminate|].
    split; [intuition discriminate|].
    split.
    { intros Hnd. split; [|reflexivity]. intros _.
      split; [reflexivity|]. split; [congruence|]. split; [reflexivity|].
      apply some_not_on_page. intros Hall.
      assert (Ht : components_accepted d (PS.pageId r)
                     (sc_componentIds input) = true).
      { apply components_accepted_spec; auto. }
      congruence. }
    split; [reflexivity|].
    split; [discriminate|]. do 4 right. reflexivity.
Qed.

(** Two inputs on which the four "iff" of the claim fail as they are
    worded.  A subscriber who unsubscribed before verifying is
    unsubscribed, yet the error is NotVerified, not Unsubscribed; and for
    the accepted subscriber A the empty domain matches neither the slug nor
    the custom domain of the page, yet the call succeeds instead of
    raising NotFound. *)
Lemma updateScope_counterexample :
  (find_by_token ex_db_left "tok-left" = Some ex_rowLeft /\
   PS.unsubscribedAt ex_rowLeft <> None /\
   fst (updateSubscriptionScope 5000 (mkScope "tok-left" [] None)
          ex_db_left) <> inl Unsubscribed /\
   fst (updateSubscriptionScope 5000 (mkScope "tok-left" [] None)
          ex_db_left) = inl NotVerified) /\
  (find_by_token ex_db "tok-a" = Some ex_rowA /\
   find_page ex_db (PS.pageId ex_rowA) = Some ex_page /\
   toLowerCase "" <> toLowerCase (Page.slug ex_page) /\
   (forall c, Page.customDomain ex_page = Some c ->
              toLowerCase "" <> toLowerCase c) /\
   fst (updateSubscriptionScope 5000
          (mkScope "tok-a" [2] (Some ""%string)) ex_db)
     <> inl SubscriptionNotFound /\
   components_of
     (snd (updateSubscriptionScope 5000
             (mkScope "tok-a" [2] (Some ""%string)) ex_db)) 1 = [2]).
Proof.
  split.
  - split; [reflexivity|]. split; [discriminate|].
    split; [discriminate|reflexivity].
  - split; [reflexivity|]. split; [reflexivity|]. split; [discriminate|].
    split; [intros c E; inversion E; discriminate|].
    split; [discriminate|reflexivity].
Qed.

(** A repeated id is refused with the Validation error although the
    component is one of the page. *)
Lemma updateScope_repeated_id :
  on_page ex_db 1 1 /\
  updateSubscriptionScope 5000 (mkScope "tok-a" [1; 1] None) ex_db
    = (inl ComponentsNotOnPage, ex_db).
Proof.
  split; [|reflexivity].
  exists (PageComponent.mk 1 1 "API"). simpl. auto.
Qed.

(** The same length comparison in upsert: the refusal lists no offending
    id at all. *)
Lemma upsert_repeated_id :
  fst (upsertEmailSubscription 5000 "uuid-5"
         (mkUpsert "new@example.com" 1 (Some [1; 1])) ex_db)
  = inl (InvalidComponents []).
Proof. reflexivity. Qed.

Lemma ex_db_fk : fk_subscriber_page ex_db.
Proof. intros r [<-|[<-|[<-|[]]]]; discriminate. Qed.

(** Subscriber B of the sample store moves from component 1 to
    component 2. *)
Lemma updateScope_behaviour_witness :
  pk_component ex_db /\ fk_subscriber_page ex_db /\
  exists s,
    fst (updateSubscriptionScope 5000 (mkScope "tok-b" [2] None) ex_db)
      = inr s /\
    components_of
      (snd (updateSubscriptionScope 5000 (mkScope "tok-b" [2] None) ex_db))
      (PS.id ex_rowB) = [2].
Proof.
  split; [exact ex_components_pk|]. split; [exact ex_db_fk|].
  destruct (@updateScope_behaviour 5000 (mkScope "tok-b" [2] None) ex_db _
              ex_components_pk ex_db_fk eq_refl)
    as [_ [_ [_ [_ [_ [Hs _]]]]]].
  eexists. split; [reflexivity|].
  destruct (Hs _ eq_refl) as [r [Hf [_ [_ [Hc _]]]]].
  vm_compute in Hf. inversion Hf; subst r. exact Hc.
Defined.


(** * Further properties *)

(** ** maskEmail *)

Lemma split_on_no_sep sep s :
  has_char sep s = false -> split_on sep s = [s].
Proof.
  induction s as [|c r IH]; simpl; [reflexivity|]. intros H.
  apply orb_false_iff in H. destruct H as [Hc Hr].
  rewrite Hc, (IH Hr). reflexivity.
Qed.

Lemma split_on_app sep a b :
  has_char sep a = false ->
  split_on sep (a ++ String sep b) = a :: split_on sep b.
Proof.
  induction a as [|c r IH]; simpl; intros H.
  - now rewrite Ascii.eqb_refl.
  - apply orb_false_iff in H. destruct H as [Hc Hr].
    rewrite Hc, (IH Hr). reflexivity.
Qed.

Lemma split_on_pieces sep s p :
  In p (split_on sep s) -> has_char sep p = false.
Proof.
  revert p. induction s as [|c r IH]; simpl; intros p H.
  - destruct H as [<-|[]]. reflexivity.
  - destruct (Ascii.eqb c sep) eqn:E.
    + destruct H as [<-|H]; [reflexivity|auto].
    + destruct (split_on sep r) as [|q qs] eqn:Es.
      * destruct H as [<-|[]]. simpl. now rewrite E.
      * destruct H as [<-|H].
        -- simpl. rewrite E. apply IH. now left.
        -- apply IH. now right.
Qed.

Lemma split_on_first_empty sep s ps :
  split_on sep s = EmptyString :: ps ->
  s = EmptyString \/ exists r, s = String sep r.
Proof.
  destruct s as [|c r]; [auto|]. simpl.
  destruct (Ascii.eqb c sep) eqn:E.
  - apply Ascii.eqb_eq in E. subst. eauto.
  - destruct (split_on sep r); discriminate.
Qed.

Lemma append_assoc (a b c : string) :
  ((a ++ b) ++ c = a ++ (b ++ c))%string.
Proof. induction a as [|x r IH]; simpl; [reflexivity|now rewrite IH]. Qed.

Lemma maskEmail_pieces localPart domain rest e :
  split_on "@" e = localPart :: domain :: rest ->
  domain <> EmptyString ->
  maskEmail e = (mask_local localPart ++ "@" ++ domain)%string.
Proof.
  intros H Hd. unfold maskEmail. rewrite H.
  destruct domain; [contradiction|reflexivity].
Qed.

(** X1. For an address [localPart@domain] (no "@" inside either part, the
    domain not empty) maskEmail returns the first character of the local
    part, three stars, "@" and the domain, whatever the rest of the local
    part is; anything from a second "@" on is dropped. *)
Theorem maskEmail_shows_first_char_and_domain localPart domain :
  has_char "@" localPart = false ->
  has_char "@" domain = false ->
  domain <> EmptyString ->
  maskEmail (localPart ++ "@" ++ domain) =
    (mask_local localPart ++ "@" ++ domain)%string /\
  forall rest,
    maskEmail (localPart ++ "@" ++ domain ++ "@" ++ rest) =
      (mask_local localPart ++ "@" ++ domain)%string.
Proof.
  intros Hl Hd Hne. split.
  - apply (@maskEmail_pieces localPart domain []); [|assumption].
    change ("@" ++ domain)%string with (String "@" domain).
    now rewrite split_on_app, split_on_no_sep.
  - intros rest.
    apply (@maskEmail_pieces localPart domain (split_on "@" rest));
      [|assumption].
    change ("@" ++ domain ++ "@" ++ rest)%string
      with (String "@" (domain ++ String "@" rest)).
    now rewrite split_on_app, split_on_app.
Qed.

Lemma maskEmail_shows_first_char_and_domain_witness :
  has_char "@" "john" = false /\ has_char "@" "example.com" = false /\
  maskEmail "john@example.com" = "j***@example.com"%string /\
  maskEmail "jane@example.com" = "j***@example.com"%string.
Proof.
  assert (Hne : "example.com"%string <> EmptyString) by discriminate.
  split; [reflexivity|]. split; [reflexivity|]. split.
  - exact (proj1 (@maskEmail_shows_first_char_and_domain "john"
                    "example.com" eq_refl eq_refl Hne)).
  - exact (proj1 (@maskEmail_shows_first_char_and_domain "jane"
                    "example.com" eq_refl eq_refl Hne)).
Defined.

(** X2. maskEmail returns the address in full when there is nothing to
    mask it with: no "@" at all, nothing after the "@", or a second "@"
    right after the first. *)
Theorem maskEmail_keeps_address_without_domain localPart :
  has_char "@" localPart = false ->
  maskEmail localPart = localPart /\
  maskEmail (localPart ++ "@") = (localPart ++ "@")%string /\
  forall rest,
    maskEmail (localPart ++ "@@" ++ rest) =
      (localPart ++ "@@" ++ rest)%string.
Proof.
  intros Hl. split; [|split].
  - unfold maskEmail. now rewrite split_on_no_sep.
  - unfold maskEmail.
    change (localPart ++ "@")%string
      with (localPart ++ String "@" EmptyString)%string.
    now rewrite split_on_app.
  - intros rest. unfold maskEmail.
    change (localPart ++ "@@" ++ rest)%string
      with (localPart ++ String "@" (EmptyString ++ String "@" rest))%string.
    now rewrite split_on_app, split_on_app.
Qed.

Lemma maskEmail_keeps_address_without_domain_witness :
  has_char "@" "john" = false /\
  maskEmail "john@" = "john@"%string /\
  maskEmail "john@@example.com" = "john@@example.com"%string.
Proof.
  destruct (@maskEmail_keeps_address_without_domain "john" eq_refl)
    as [_ [H2 H3]].
  split; [reflexivity|]. split; [exact H2|]. exact (H3 "example.com"%string).
Defined.

(** X3. Masking a masked address changes nothing, for every address that
    does not begin with "@". *)
Theorem maskEmail_idempotent email :
  (forall r, email <> String "@" r) ->
  maskEmail (maskEmail email) = maskEmail email.
Proof.
  intros Hstart.
  destruct (split_on "@" email) as [|l [|dom rest]] eqn:E.
  - assert (H : maskEmail email = email) by (unfold maskEmail; now rewrite E).
    now rewrite !H.
  - assert (H : maskEmail email = email) by (unfold maskEmail; now rewrite E).
    now rewrite !H.
  - destruct dom as [|dc dr] eqn:Ed.
    + assert (H : maskEmail email = email)
        by (unfold maskEmail; now rewrite E).
      now rewrite !H.
    + rewrite <- Ed in *.
      assert (Hne : dom <> EmptyString) by (subst dom; discriminate).
      rewrite (@maskEmail_pieces l dom rest email E Hne).
      assert (Hl : has_char "@" l = false)
        by (apply (@split_on_pieces "@"%char email); rewrite E; now left).
      assert (Hd : has_char "@" dom = false)
        by (apply (@split_on_pieces "@"%char email); rewrite E;
            right; now left).
      destruct l as [|c l'].
      * exfalso. destruct (@split_on_first_empty "@"%char email _ E)
          as [->|[r ->]]; [discriminate E|]. now apply (Hstart r).
      * simpl in Hl. apply orb_false_iff in Hl. destruct Hl as [Hc _].
        assert (Hm : has_char "@" (mask_local (String c l')) = false)
          by (simpl; now rewrite Hc).
        apply (@maskEmail_pieces (mask_local (String c l')) dom []);
          [|assumption].
        change ("@" ++ dom)%string with (String "@" dom).
        now rewrite split_on_app, split_on_no_sep.
Qed.

Lemma maskEmail_idempotent_witness :
  (forall r, "john@example.com"%string <> String "@" r) /\
  maskEmail (maskEmail "john@example.com") = "j***@example.com"%string.
Proof.
  assert (H : forall r, "john@example.com"%string <> String "@" r)
    by (intros r; discriminate).
  split; [exact H|]. exact (maskEmail_idempotent H).
Defined.

(** ** getSubscriptionByToken *)

Lemma getByToken_unknown tok dom d :
  find_by_token d tok = None ->
  getSubscriptionByToken tok dom d = (inr None, d).
Proof.
  intros H. unfold getSubscriptionByToken. svc_unfold. now rewrite H.
Qed.

Lemma getByToken_found tok dom d r pg :
  find_by_token d tok = Some r ->
  find_page d (PS.pageId r) = Some pg ->
  getSubscriptionByToken tok dom d =
  if negb (domain_passes dom pg) then (inr None, d)
  else
    (inr (Some (Subscription.mk (PS.id r) (PS.pageId r) (Page.title pg)
                  (Page.slug pg) (Page.customDomain pg) (PS.channelType r)
                  (shown_email (PS.email r)) (PS.webhookUrl r) None None
                  (PS.acceptedAt r) (PS.unsubscribedAt r)
                  (components_of d (PS.id r)))), d).
Proof.
  intros Hf Hp. unfold getSubscriptionByToken.
  unfold bind at 1. unfold query at 1. rewrite Hf.
  cbn [option_map with_page_components]. rewrite Hp.
  unfold bind at 1. rewrite domain_rejected_found.
  destruct (negb (domain_passes dom pg)); reflexivity.
Qed.

Lemma getByToken_frame tok dom d :
  snd (getSubscriptionByToken tok dom d) = d.
Proof.
  unfold getSubscriptionByToken, domain_rejected, with_page_components.
  svc_unfold. split_paths; reflexivity.
Qed.

(** X4. getSubscriptionByToken never writes to the store, and what it
    returns never carries the token nor the channel configuration: it is
    the row the token designates, with its address masked (absent when the
    stored address is empty) and its current component ids. *)
Theorem getSubscriptionByToken_reads_and_masks tok dom d :
  snd (getSubscriptionByToken tok dom d) = d /\
  forall s, fst (getSubscriptionByToken tok dom d) = inr (Some s) ->
    Subscription.token s = None /\
    Subscription.channelConfig s = None /\
    exists r,
      find_by_token d tok = Some r /\
      Subscription.id s = PS.id r /\
      Subscription.email s = shown_email (PS.email r) /\
      Subscription.acceptedAt s = PS.acceptedAt r /\
      Subscription.unsubscribedAt s = PS.unsubscribedAt r /\
      Subscription.componentIds s = components_of d (PS.id r).
Proof.
  split; [apply getByToken_frame|].
  intros s. destruct (find_by_token d tok) as [r|] eqn:Hf.
  2:{ rewrite getByToken_unknown by assumption. discriminate. }
  destruct (find_page d (PS.pageId r)) as [pg|] eqn:Hp.
  - rewrite (@getByToken_found tok dom d r pg Hf Hp).
    destruct (negb (domain_passes dom pg)); [discriminate|].
    cbn [fst]. intros E. inversion E; subst s. cbn.
    split; [reflexivity|]. split; [reflexivity|]. exists r. auto 10.
  - unfold getSubscriptionByToken.
    unfold bind at 1. unfold query at 1. rewrite Hf.
    cbn [option_map with_page_components]. rewrite Hp.
    unfold domain_rejected. svc_unfold.
    destruct dom as [x|]; [destruct (truthy x)|]; discriminate.
Qed.

(** X5. With every subscriber's page stored, getSubscriptionByToken finds
    nothing exactly when verifySubscription finds nothing: for an unknown
    token and for a non-empty domain that is not the page's. *)
Theorem getSubscriptionByToken_null_as_verify now tok dom d :
  fk_subscriber_page d ->
  (fst (getSubscriptionByToken tok dom d) = inr None <->
   fst (verifySubscription now tok dom d) = inr None).
Proof.
  intros Hfk. destruct (find_by_token d tok) as [r|] eqn:Hf.
  2:{ rewrite getByToken_unknown, verify_unknown by assumption. tauto. }
  assert (Hin : In r (pageSubscriber d)).
  { unfold find_by_token in Hf. apply find_some in Hf. tauto. }
  destruct (find_page d (PS.pageId r)) as [pg|] eqn:Hp;
    [|exfalso; now apply (Hfk r Hin)].
  rewrite (@getByToken_found tok dom d r pg Hf Hp),
    (@verify_found now tok dom d r pg Hf Hp).
  destruct (negb (domain_passes dom pg)); [tauto|].
  destruct (PS.acceptedAt r); [cbn; split; discriminate|].
  destruct (match PS.expiresAt r with Some e => e <? now | None => false end);
    [cbn; split; discriminate|].
  cbn [fst].
  destruct (filter (fun x => PS.id x =? PS.id r) (pageSubscriber d));
    split; discriminate.
Qed.

Lemma getSubscriptionByToken_null_as_verify_witness :
  fk_subscriber_page ex_db /\
  fst (getSubscriptionByToken "tok-a" (Some "Wrong"%string) ex_db)
    = inr None.
Proof.
  split; [exact ex_db_fk|].
  apply (proj2 (@getSubscriptionByToken_null_as_verify 5000 "tok-a"
                  (Some "Wrong"%string) ex_db ex_db_fk)).
  reflexivity.
Defined.

(** ** Looking up what upsert has stored *)

Lemma find_by_token_unique d r t :
  token_unique (pageSubscriber d) ->
  In r (pageSubscriber d) -> PS.token r = Some t ->
  find_by_token d t = Some r.
Proof.
  intros Hu Hin Ht. unfold find_by_token.
  destruct (find (fun x => col_eq_str (PS.token x) t) (pageSubscriber d))
    as [r0|] eqn:Hf.
  - apply find_some in Hf. destruct Hf as [Hr0 Hc].
    apply col_eq_str_true in Hc.
    apply In_nth_error in Hr0. destruct Hr0 as [n1 Hn1].
    apply In_nth_error in Hin. destruct Hin as [n2 Hn2].
    assert (n1 = n2) by (apply (Hu n1 n2 r0 r t); assumption).
    subst n2. congruence.
  - exfalso. apply (find_none _ _ Hf) in Hin.
    assert (Hc : col_eq_str (PS.token r) t = true)
      by now apply col_eq_str_true.
    congruence.
Qed.

Lemma token_unique_update f i rows :
  (forall r, PS.token (f r) = PS.token r) ->
  token_unique rows -> token_unique (update_rows f i rows).
Proof.
  intros Hf Hu n1 n2 r1 r2 t H1 H2 T1 T2.
  rewrite update_rows_nth in H1, H2.
  destruct (nth_error rows n1) as [a|] eqn:Ea; [|discriminate].
  destruct (nth_error rows n2) as [b|] eqn:Eb; [|discriminate].
  simpl in H1, H2. inversion H1; inversion H2; subst r1 r2.
  apply (Hu n1 n2 a b t); try assumption.
  - destruct (PS.id a =? i); [now rewrite Hf in T1|assumption].
  - destruct (PS.id b =? i); [now rewrite Hf in T2|assumption].
Qed.

Lemma token_unique_insert rows n :
  token_unique rows ->
  (forall r, In r rows -> PS.token r <> PS.token n) ->
  token_unique (rows ++ [n]).
Proof.
  intros Hu Hfresh n1 n2 r1 r2 t H1 H2 T1 T2.
  destruct (Nat.lt_ge_cases n1 (List.length rows)) as [L1|L1];
    destruct (Nat.lt_ge_cases n2 (List.length rows)) as [L2|L2].
  - rewrite nth_error_app1 in H1, H2 by assumption.
    now apply (Hu n1 n2 r1 r2 t).
  - rewrite nth_error_app1 in H1 by assumption.
    rewrite nth_error_app2 in H2 by assumption.
    destruct (n2 - List.length rows)%nat as [|m]; simpl in H2;
      [|destruct m; discriminate].
    inversion H2; subst r2. exfalso.
    apply (Hfresh r1 (nth_error_In _ _ H1)). congruence.
  - rewrite nth_error_app2 in H1 by assumption.
    rewrite nth_error_app1 in H2 by assumption.
    destruct (n1 - List.length rows)%nat as [|m]; simpl in H1;
      [|destruct m; discriminate].
    inversion H1; subst r1. exfalso.
    apply (Hfresh r2 (nth_error_In _ _ H2)). congruence.
  - rewrite nth_error_app2 in H1, H2 by assumption.
    destruct (n1 - List.length rows)%nat as [|m1] eqn:E1; simpl in H1;
      [|destruct m1; discriminate].
    destruct (n2 - List.length rows)%nat as [|m2] eqn:E2; simpl in H2;
      [|destruct m2; discriminate].
    lia.
Qed.

Lemma insert_links_into_some vs : forall tbl t,
  insert_links_into tbl vs = Some t -> t = tbl ++ vs.
Proof.
  induction vs as [|v r IH]; intros tbl t H; simpl in H.
  - inversion H. now rewrite app_nil_r.
  - destruct (existsb (link_eqb v) tbl); [discriminate|].
    apply IH in H. now rewrite <- app_assoc in H.
Qed.

(** The row a successful upsert has returned sits in the table. *)
Lemma upsert_success_row now uuid input d s d' :
  token_unique (pageSubscriber d) ->
  (forall r, In r (pageSubscriber d) -> PS.token r <> Some uuid) ->
  fk_link_subscriber d ->
  upsertEmailSubscription now uuid input d = (inr s, d') ->
  token_unique (pageSubscriber d') /\
  exists r pg,
    In r (pageSubscriber d') /\
    find_page d' (PS.pageId r) = Some pg /\
    PS.id r = Subscription.id s /\
    PS.pageId r = in_pageId input /\
    PS.token r = Subscription.token s /\
    PS.email r = Subscription.email s /\
    PS.acceptedAt r = Subscription.acceptedAt s /\
    PS.unsubscribedAt r = None /\
    (forall c, In c (components_of d' (PS.id r)) <->
               In c (Subscription.componentIds s)).
Proof.
  intros Hu Hfresh Hfk H. apply upsert_success in H.
  destruct H as [pg [Hp [Hv [H|[H|H]]]]].
  - destruct H as [ex [acc [Hf [Ha [-> ->]]]]].
    unfold find_active_email in Hf. apply find_some in Hf.
    destruct Hf as [Hin Hact]. apply is_active_email_spec in Hact.
    destruct Hact as [A1 [A2 [A3 A4]]].
    split; [assumption|]. exists ex, pg. rewrite A2.
    repeat split; auto; cbn; tauto.
  - destruct H as [ex [Hf [Ha [-> ->]]]].
    unfold find_active_email in Hf. apply find_some in Hf.
    destruct Hf as [Hin Hact]. apply is_active_email_spec in Hact.
    destruct Hact as [A1 [A2 [A3 A4]]].
    split.
    { cbn [pageSubscriber]. now apply token_unique_update. }
    exists (set_expiresAt (now + VERIFICATION_EXPIRY_MS) now ex), pg.
    split.
    { cbn [pageSubscriber].
      apply (update_rows_in
               (set_expiresAt (now + VERIFICATION_EXPIRY_MS) now)
               (PS.id ex)) in Hin.
      now rewrite Z.eqb_refl in Hin. }
    split; [cbn; now rewrite A2|].
    repeat split; auto.
    + intros Hc. apply merged_ids_in.
      now apply (pending_components_in d (PS.id ex) (upsert_ids input) c).
    + intros Hc. apply merged_ids_in in Hc.
      now apply (pending_components_in d (PS.id ex) (upsert_ids input) c).
  - destruct H as [t [Hf [Hc [Hi [Hid [He [Ht [Ha [Hids ->]]]]]]]]].
    set (n := new_subscriber now uuid (in_email input) (in_pageId input)
                (pageSubscriber d)) in *.
    split.
    { cbn [pageSubscriber]. apply token_unique_insert; [assumption|].
      intros r Hr. now apply Hfresh. }
    exists n, pg. split; [cbn; apply in_or_app; right; now left|].
    split; [exact Hp|].
    split; [now symmetry|]. split; [reflexivity|].
    split; [now symmetry|]. split; [now symmetry|].
    split; [now symmetry|]. split; [reflexivity|].
    intros c. rewrite Hids. apply insert_links_into_some in Hi. subst t.
    unfold components_of at 1. cbn [pageSubscriberToPageComponent].
    rewrite components_of_app, links_for_filter_same.
    rewrite (@components_of_fresh d (PS.id n) Hfk (next_id_fresh _)).
    reflexivity.
Qed.

(** X6. What a successful upsert answers can be read back through its
    token: when tokens are unique, the generated one is not yet stored and
    no association dangles, getSubscriptionByToken with the returned token
    (no domain) finds a subscription with the same id, the page of the
    call, the same acceptedAt, no unsubscribedAt, the same component ids
    and the masked address, and itself changes nothing. *)
Theorem upsert_then_getSubscriptionByToken now uuid input d s d' t :
  token_unique (pageSubscriber d) ->
  (forall r, In r (pageSubscriber d) -> PS.token r <> Some uuid) ->
  fk_link_subscriber d ->
  upsertEmailSubscription now uuid input d = (inr s, d') ->
  Subscription.token s = Some t ->
  exists s',
    getSubscriptionByToken t None d' = (inr (Some s'), d') /\
    Subscription.id s' = Subscription.id s /\
    Subscription.pageId s' = in_pageId input /\
    Subscription.acceptedAt s' = Subscription.acceptedAt s /\
    Subscription.unsubscribedAt s' = None /\
    Subscription.token s' = None /\
    Subscription.email s' = shown_email (Subscription.email s) /\
    (forall c, In c (Subscription.componentIds s') <->
               In c (Subscription.componentIds s)).
Proof.
  intros Hu Hfresh Hfk H Ht.
  destruct (@upsert_success_row now uuid input d s d' Hu Hfresh Hfk H)
    as [Hu' [r [pg [Hin [Hp [Hid [Hpage [Htok [Hmail [Hacc [Hun Hc]]]]]]]]]]].
  assert (Hf : find_by_token d' t = Some r).
  { apply find_by_token_unique; auto. congruence. }
  rewrite (@getByToken_found t None d' r pg Hf Hp). cbn [domain_passes negb].
  eexists. split; [reflexivity|]. cbn.
  repeat split; auto; try congruence; apply Hc.
Qed.

Lemma upsert_then_getSubscriptionByToken_witness :
  token_unique (pageSubscriber ex_db0) /\
  fk_link_subscriber ex_db0 /\
  exists s',
    getSubscriptionByToken "uuid-1" None (snd ex_first)
      = (inr (Some s'), snd ex_first) /\
    Subscription.email s' = Some "u***@example.com"%string.
Proof.
  assert (Hu : token_unique (pageSubscriber ex_db0)).
  { intros n1 n2 r1 r2 t H1. destruct n1; discriminate. }
  assert (Hfresh : forall r, In r (pageSubscriber ex_db0) ->
                             PS.token r <> Some "uuid-1"%string)
    by (intros r []).
  assert (Hfk : fk_link_subscriber ex_db0) by (intros l []).
  split; [exact Hu|]. split; [exact Hfk|].
  destruct (@upsert_then_getSubscriptionByToken 1000 "uuid-1"%string
              (mkUpsert "User@Example.com" 1 None) ex_db0
              (the_value (fst ex_first) no_subscription) (snd ex_first)
              "uuid-1"%string Hu Hfresh Hfk eq_refl eq_refl)
    as [s' [E [_ [_ [_ [_ [_ [M _]]]]]]]].
  exists s'. split; [exact E|exact M].
Defined.

(** ** hasPendingUnexpiredSubscription *)

Lemma is_pending_email_spec mail pid r :
  is_pending_email mail pid r = true <->
  is_active_email mail pid r = true /\ PS.acceptedAt r = None.
Proof.
  unfold is_pending_email, is_active_email.
  rewrite !andb_true_iff, !is_null_true. tauto.
Qed.

Lemma hasPending_value now e p d :
  hasPendingUnexpiredSubscription now e p d =
  (inr match find (is_pending_email (toLowerCase e) p) (pageSubscriber d)
       with
       | Some r => match PS.expiresAt r with
                   | Some x => now <? x
                   | None => false
                   end
       | None => false
       end, d).
Proof. reflexivity. Qed.

Lemma active_subscription_is_active d e p r :
  active_subscription d e p r ->
  is_active_email (toLowerCase e) p r = true.
Proof.
  intros [_ [H2 [H3 [H4 H5]]]]. apply is_active_email_spec. auto.
Qed.

Lemma active_rows_same_position rows k1 k2 r1 r2 mail pid :
  active_unique rows ->
  nth_error rows k1 = Some r1 -> nth_error rows k2 = Some r2 ->
  is_active_email mail pid r1 = true ->
  is_active_email mail pid r2 = true ->
  k1 = k2.
Proof.
  intros Hu H1 H2 A1 A2.
  apply is_active_email_spec in A1. apply is_active_email_spec in A2.
  destruct A1 as [E1 [P1 [C1 U1]]]. destruct A2 as [E2 [P2 [C2 U2]]].
  apply (Hu k1 k2 r1 r2 mail mail); try assumption; try congruence.
  - unfold identity. now rewrite C1.
  - unfold identity. now rewrite C2.
Qed.

Lemma find_pending_unique d e p r :
  active_unique (pageSubscriber d) ->
  active_subscription d e p r -> PS.acceptedAt r = None ->
  find (is_pending_email (toLowerCase e) p) (pageSubscriber d) = Some r.
Proof.
  intros Hu Hr Ha. pose proof (active_subscription_is_active Hr) as Hact.
  destruct Hr as [Hin _].
  destruct (find _ (pageSubscriber d)) as [r0|] eqn:Hf.
  - apply find_some in Hf. destruct Hf as [Hin0 Hp0].
    apply is_pending_email_spec in Hp0. destruct Hp0 as [Hact0 _].
    apply In_nth_error in Hin0. destruct Hin0 as [k0 Hk0].
    apply In_nth_error in Hin. destruct Hin as [k Hk].
    assert (k0 = k)
      by (eapply active_rows_same_position; eauto).
    subst k0. congruence.
  - exfalso. apply (find_none _ _ Hf) in Hin.
    assert (Ht : is_pending_email (toLowerCase e) p r = true)
      by (apply is_pending_email_spec; auto).
    congruence.
Qed.

(** X7. hasPendingUnexpiredSubscription changes nothing and, on a table
    with at most one active row per address, answers true exactly when the
    active email subscription of the address (letter case aside) on the
    page is unverified and its expiresAt lies after now. *)
Theorem hasPendingUnexpiredSubscription_spec now e p d :
  active_unique (pageSubscriber d) ->
  exists b,
    hasPendingUnexpiredSubscription now e p d = (inr b, d) /\
    (b = true <->
     exists r x, active_subscription d e p r /\ PS.acceptedAt r = None /\
                 PS.expiresAt r = Some x /\ now < x).
Proof.
  intros Hu. rewrite hasPending_value. eexists. split; [reflexivity|].
  split.
  - destruct (find _ (pageSubscriber d)) as [r|] eqn:Hf; [|discriminate].
    destruct (PS.expiresAt r) as [x|] eqn:Hx; [|discriminate].
    intros Hlt. apply Z.ltb_lt in Hlt.
    apply find_some in Hf. destruct Hf as [Hin Hp].
    apply is_pending_email_spec in Hp. destruct Hp as [Hact Ha].
    apply is_active_email_spec in Hact.
    exists r, x. unfold active_subscription. tauto.
  - intros [r [x [Hr [Ha [Hx Hlt]]]]].
    rewrite (find_pending_unique Hu Hr Ha), Hx. now apply Z.ltb_lt.
Qed.

Lemma hasPendingUnexpiredSubscription_spec_witness :
  active_unique (pageSubscriber (snd ex_first)) /\
  hasPendingUnexpiredSubscription 5000 "USER@example.com" 1 (snd ex_first)
    = (inr true, snd ex_first).
Proof.
  assert (Hu : active_unique (pageSubscriber (snd ex_first)))
    by (apply active_unique_b_sound; reflexivity).
  split; [exact Hu|].
  destruct (@hasPendingUnexpiredSubscription_spec 5000 "USER@example.com"
              1 (snd ex_first) Hu) as [b [E Hb]].
  assert (Ht : b = true).
  { apply Hb. exists ex_pending, 604801000.
    unfold active_subscription. repeat split; try reflexivity.
    simpl. now left. }
  now rewrite Ht in E.
Defined.

Lemma active_subscription_case d e e' p r :
  toLowerCase e' = toLowerCase e ->
  active_subscription d e p r -> active_subscription d e' p r.
Proof. unfold active_subscription. intros ->. auto. Qed.

Lemma find_active_subscription d e p r :
  find_active_email d (toLowerCase e) p = Some r ->
  active_subscription d e p r.
Proof.
  intros H. apply find_some in H. destruct H as [Hin Ha].
  apply is_active_email_spec in Ha. unfold active_subscription. tauto.
Qed.

(** What an upsert that answers with an unverified subscription leaves in
    the table. *)
Lemma upsert_pending_row now uuid input d s d' :
  active_unique (pageSubscriber d) ->
  upsertEmailSubscription now uuid input d = (inr s, d') ->
  Subscription.acceptedAt s = None ->
  active_unique (pageSubscriber d') /\
  exists r,
    active_subscription d' (in_email input) (in_pageId input) r /\
    PS.acceptedAt r = None /\
    PS.expiresAt r =
      Some (timestamp_column (now + VERIFICATION_EXPIRY_MS)).
Proof.
  intros Hu H Hs.
  destruct (upsert_success _ _ _ _ H) as [pg [Hp [Hv Hc]]].
  destruct Hc as [[ex [acc [_ [_ [E _]]]]]
                 |[[ex [Hf [Ha [_ E]]]]|[t Hn]]].
  - subst s. discriminate.
  - apply find_active_subscription in Hf.
    subst d'. split.
    + exact (@pending_state_unique now d (PS.id ex) (upsert_ids input) Hu).
    + exists (set_expiresAt (now + VERIFICATION_EXPIRY_MS) now ex).
      split; [|split; [exact Ha|reflexivity]].
      exact (@pending_state_subscription now d (in_email input)
               (in_pageId input) ex (upsert_ids input) Hf).
  - cbv zeta in Hn. destruct Hn as [_ [Hx [_ [_ [_ [_ [_ [_ E]]]]]]]].
    subst d'. cbn [pageSubscriber]. split.
    + eapply active_unique_insert; eauto; reflexivity.
    + exists (new_subscriber now uuid (in_email input) (in_pageId input)
                (pageSubscriber d)).
      split; [|split; reflexivity].
      unfold active_subscription. cbn [pageSubscriber].
      split; [apply in_or_app; right; now left|]. now repeat split.
Qed.

(** The Date read back from a timestamp column is the Date written,
    rounded down to the second. *)
Lemma timestamp_column_bounds ms :
  timestamp_column ms <= ms < timestamp_column ms + 1000.
Proof.
  unfold timestamp_column.
  pose proof (Z.div_mod ms 1000). pose proof (Z.mod_pos_bound ms 1000). lia.
Qed.

(** X8. After an upsert that answers with an unverified subscription
    (created or refreshed at instant now), the stored deadline is
    now + 7 days rounded down to the second, and
    hasPendingUnexpiredSubscription, for the same page and any spelling of
    the address that differs only in letter case, answers true at every
    instant before that deadline and false from the deadline on; so it is
    true at least until one second before now + 7 days. *)
Theorem upsert_opens_seven_day_window now uuid input d s d' t e' :
  active_unique (pageSubscriber d) ->
  upsertEmailSubscription now uuid input d = (inr s, d') ->
  Subscription.acceptedAt s = None ->
  toLowerCase e' = toLowerCase (in_email input) ->
  hasPendingUnexpiredSubscription t e' (in_pageId input) d' =
    (inr (t <? timestamp_column (now + 604800000)), d') /\
  (t + 1000 <= now + 604800000 ->
   hasPendingUnexpiredSubscription t e' (in_pageId input) d' =
     (inr true, d')).
Proof.
  intros Hu H Hs He.
  destruct (@upsert_pending_row now uuid input d s d' Hu H Hs)
    as [Hu' [r [Hr [Ha Hx]]]].
  rewrite hasPending_value.
  pose proof (@active_subscription_case d' (in_email input) e'
                (in_pageId input) r He Hr) as Hr'.
  rewrite (@find_pending_unique d' e' (in_pageId input) r Hu' Hr' Ha), Hx.
  change (now + VERIFICATION_EXPIRY_MS) with (now + 604800000).
  split; [reflexivity|]. intros Ht.
  pose proof (timestamp_column_bounds (now + 604800000)) as Hb.
  assert (Hlt : (t <? timestamp_column (now + 604800000)) = true)
    by (apply Z.ltb_lt; lia).
  now rewrite Hlt.
Qed.

(** An upsert at 1500 ms stores the deadline 604801000 ms: the check is
    true one millisecond before it and false at 604801499 ms, which is
    still less than seven days after the upsert. *)
Lemma upsert_opens_seven_day_window_witness :
  hasPendingUnexpiredSubscription 604800999 "USER@EXAMPLE.COM" 1
    (snd (upsertEmailSubscription 1500 "uuid-1"
            (mkUpsert "User@Example.com" 1 None) ex_db0))
  = (inr true,
     snd (upsertEmailSubscription 1500 "uuid-1"
            (mkUpsert "User@Example.com" 1 None) ex_db0)) /\
  hasPendingUnexpiredSubscription 604801499 "USER@EXAMPLE.COM" 1
    (snd (upsertEmailSubscription 1500 "uuid-1"
            (mkUpsert "User@Example.com" 1 None) ex_db0))
  = (inr false,
     snd (upsertEmailSubscription 1500 "uuid-1"
            (mkUpsert "User@Example.com" 1 None) ex_db0)).
Proof.
  assert (Hu : active_unique (pageSubscriber ex_db0))
    by (apply active_unique_b_sound; reflexivity).
  split.
  - exact (proj1 (@upsert_opens_seven_day_window 1500 "uuid-1"
                    (mkUpsert "User@Example.com" 1 None) ex_db0
                    (the_value
                       (fst (upsertEmailSubscription 1500 "uuid-1"
                               (mkUpsert "User@Example.com" 1 None) ex_db0))
                       no_subscription)
                    (snd (upsertEmailSubscription 1500 "uuid-1"
                            (mkUpsert "User@Example.com" 1 None) ex_db0))
                    604800999 "USER@EXAMPLE.COM"
                    Hu eq_refl eq_refl eq_refl)).
  - exact (proj1 (@upsert_opens_seven_day_window 1500 "uuid-1"
                    (mkUpsert "User@Example.com" 1 None) ex_db0
                    (the_value
                       (fst (upsertEmailSubscription 1500 "uuid-1"
                               (mkUpsert "User@Example.com" 1 None) ex_db0))
                       no_subscription)
                    (snd (upsertEmailSubscription 1500 "uuid-1"
                            (mkUpsert "User@Example.com" 1 None) ex_db0))
                    604801499 "USER@EXAMPLE.COM"
                    Hu eq_refl eq_refl eq_refl)).
Defined.

(** ** The guard of the public upsert procedure *)

(** X9. Once the public upsert procedure has answered with an unverified
    subscription at instant now, a further call of it for the same page
    and the same address up to letter case is refused with BAD_REQUEST and
    the fixed message about the confirmation link, leaving the store as it
    is (neither the token expiry nor the component links are touched),
    exactly as long as the call is made before the stored deadline, which
    is now + 7 days rounded down to the second; from the deadline on the
    call reaches upsertEmailSubscription and gets its answer. *)
Theorem router_upsert_refuses_repeat now uuid input d a d' t uuid' input' :
  active_unique (pageSubscriber d) ->
  pageSubscriberRouter.upsert now uuid input d = (inr a, d') ->
  an_acceptedAt a = None ->
  in_pageId input' = in_pageId input ->
  toLowerCase (in_email input') = toLowerCase (in_email input) ->
  (t < timestamp_column (now + 604800000) ->
   pageSubscriberRouter.upsert t uuid' input' d' =
   (inl (TRPCError BAD_REQUEST
           (Literal "A confirmation link was already sent. Please check your email or wait until it expires to request a new one.")),
    d')) /\
  (timestamp_column (now + 604800000) <= t ->
   pageSubscriberRouter.upsert t uuid' input' d' =
   match upsertEmailSubscription t uuid' input' d' with
   | (inr subscription, d2) =>
       (inr (mkAnswer (Subscription.id subscription)
               (Subscription.acceptedAt subscription) None None None
               (Subscription.componentIds subscription)), d2)
   | (inl error, d2) => (inl (TRPCError BAD_REQUEST (MessageOf error)), d2)
   end).
Proof.
  intros Hu H Ha Hp He.
  unfold pageSubscriberRouter.upsert in H. rewrite hasPending_value in H.
  match type of H with
  | context [match ?b with true => _ | false => _ end] => destruct b
  end; [discriminate|].
  destruct (upsertEmailSubscription now uuid input d) as [[e|s] d2] eqn:Hup;
    [discriminate|].
  injection H as <- <-. cbn [an_acceptedAt] in Ha.
  destruct (@upsert_pending_row now uuid input d s d2 Hu Hup Ha)
    as [Hu' [r [Hr [Hacc Hx]]]].
  pose proof (@active_subscription_case d2 (in_email input)
                (in_email input') (in_pageId input) r He Hr) as Hr'.
  unfold pageSubscriberRouter.upsert. rewrite Hp, hasPending_value.
  rewrite (@find_pending_unique d2 (in_email input') (in_pageId input) r
             Hu' Hr' Hacc), Hx.
  change (now + VERIFICATION_EXPIRY_MS) with (now + 604800000).
  split; intros Ht.
  - apply Z.ltb_lt in Ht. now rewrite Ht.
  - apply Z.ltb_ge in Ht. now rewrite Ht.
Qed.

(** The first call is made at 1500 ms, so the deadline is 604801000 ms:
    a second call one millisecond before it is refused. *)
Lemma router_upsert_refuses_repeat_witness :
  exists e,
    pageSubscriberRouter.upsert 604800999 "uuid-2"
      (mkUpsert "user@example.com" 1 (Some [1]))
      (snd (pageSubscriberRouter.upsert 1500 "uuid-1"
              (mkUpsert "User@Example.com" 1 None) ex_db0))
    = (inl (TRPCError BAD_REQUEST (Literal e)),
       snd (pageSubscriberRouter.upsert 1500 "uuid-1"
              (mkUpsert "User@Example.com" 1 None) ex_db0)).
Proof.
  eexists.
  apply (proj1 (@router_upsert_refuses_repeat 1500 "uuid-1"
                  (mkUpsert "User@Example.com" 1 None) ex_db0
                  (mkAnswer 1 None None None None [])
                  (snd (pageSubscriberRouter.upsert 1500 "uuid-1"
                          (mkUpsert "User@Example.com" 1 None) ex_db0))
                  604800999 "uuid-2"
                  (mkUpsert "user@example.com" 1 (Some [1]))
                  (active_unique_b_sound (pageSubscriber ex_db0) eq_refl)
                  eq_refl eq_refl eq_refl eq_refl)).
  reflexivity.
Defined.

(** ** Verifying or unsubscribing ends the pending state *)

Lemma no_pending_beside rows r mail pid :
  active_unique rows -> In r rows ->
  is_active_email mail pid r = true ->
  is_pending_email mail pid r = false ->
  find (is_pending_email mail pid) rows = None.
Proof.
  intros Hu Hin Hact Hnp.
  destruct (find _ rows) as [r0|] eqn:Hf; [exfalso|reflexivity].
  apply find_some in Hf. destruct Hf as [Hin0 Hp0].
  pose proof Hp0 as Hp0'.
  apply is_pending_email_spec in Hp0. destruct Hp0 as [Hact0 _].
  apply In_nth_error in Hin0. destruct Hin0 as [k0 Hk0].
  apply In_nth_error in Hin. destruct Hin as [k Hk].
  assert (k0 = k) by (eapply active_rows_same_position; eauto).
  subst k0. congruence.
Qed.

Lemma update_clears_pending rows r mail pid f :
  active_unique rows -> In r rows ->
  is_active_email mail pid r = true ->
  (forall a, is_pending_email mail pid (f a) = false) ->
  find (is_pending_email mail pid) (update_rows f (PS.id r) rows) = None.
Proof.
  intros Hu Hin Hact Hf.
  destruct (find _ (update_rows f (PS.id r) rows)) as [r0|] eqn:E;
    [exfalso|reflexivity].
  apply find_some in E. destruct E as [Hin0 Hp0].
  unfold update_rows in Hin0. apply in_map_iff in Hin0.
  destruct Hin0 as [a [Ea Hina]].
  destruct (PS.id a =? PS.id r) eqn:Hid.
  - subst r0. rewrite Hf in Hp0. discriminate.
  - subst r0. pose proof Hp0 as Hp0'.
    apply is_pending_email_spec in Hp0. destruct Hp0 as [Hact0 _].
    apply In_nth_error in Hina. destruct Hina as [k0 Hk0].
    apply In_nth_error in Hin. destruct Hin as [k Hk].
    assert (k0 = k) by (eapply active_rows_same_position; eauto).
    subst k0. assert (a = r) by congruence. subst a.
    rewrite Z.eqb_refl in Hid. discriminate.
Qed.

Lemma pending_false_accepted mail pid r :
  PS.acceptedAt r <> None -> is_pending_email mail pid r = false.
Proof.
  intros H. destruct (is_pending_email mail pid r) eqn:E; [|reflexivity].
  apply is_pending_email_spec in E. tauto.
Qed.

Lemma pending_false_unsubscribed mail pid r :
  PS.unsubscribedAt r <> None -> is_pending_email mail pid r = false.
Proof.
  intros H. destruct (is_pending_email mail pid r) eqn:E; [|reflexivity].
  apply is_pending_email_spec in E. destruct E as [E _].
  apply is_active_email_spec in E. tauto.
Qed.

(** X10. Let a token name the active email subscription of an address on
    a page, in a table with at most one active row per address.  After a
    verifySubscription that returns the subscription, and likewise after
    an unsubscribe that succeeds, hasPendingUnexpiredSubscription answers
    false for the address at every instant: the guard of the public upsert
    no longer holds the address back. *)
Theorem settled_subscription_not_pending now tok dom d r pg e p :
  active_unique (pageSubscriber d) ->
  find_by_token d tok = Some r ->
  active_subscription d e p r ->
  find_page d p = Some pg ->
  (forall s d', verifySubscription now tok dom d = (inr (Some s), d') ->
     forall t, hasPendingUnexpiredSubscription t e p d' = (inr false, d'))
  /\
  (forall d', unsubscribe now tok dom d = (inr tt, d') ->
     forall t, hasPendingUnexpiredSubscription t e p d' = (inr false, d')).
Proof.
  intros Hu Hf Hr Hp.
  pose proof (active_subscription_is_active Hr) as Hact.
  destruct Hr as [Hin [He [Hpid [Hc Hun]]]]. subst p.
  split.
  - intros s d' H t.
    rewrite (@verify_found now tok dom d r pg Hf Hp) in H.
    destruct (negb (domain_passes dom pg)); [discriminate|].
    destruct (PS.acceptedAt r) as [acc|] eqn:Hacc.
    + injection H as _ <-. rewrite hasPending_value.
      rewrite (@no_pending_beside (pageSubscriber d) r (toLowerCase e)
                 (PS.pageId r) Hu Hin Hact); [reflexivity|].
      apply pending_false_accepted. congruence.
    + match type of H with
      | context [if ?b then _ else _] => destruct b
      end; [discriminate|].
      injection H as _ <-. rewrite hasPending_value.
      cbn [set_pageSubscriber pageSubscriber].
      rewrite (@update_clears_pending (pageSubscriber d) r (toLowerCase e)
                 (PS.pageId r) (set_acceptedAt now now) Hu Hin Hact);
        [reflexivity|].
      intros a. apply pending_false_accepted. discriminate.
  - intros d' H t.
    rewrite (@unsubscribe_found now tok dom d r pg Hf Hp) in H.
    destruct (negb (domain_passes dom pg)); [discriminate|].
    rewrite Hun in H. cbn [is_some] in H.
    injection H as <-. rewrite hasPending_value.
    cbn [set_pageSubscriber pageSubscriber].
    rewrite (@update_clears_pending (pageSubscriber d) r (toLowerCase e)
               (PS.pageId r) (set_unsubscribedAt now now) Hu Hin Hact);
      [reflexivity|].
    intros a. apply pending_false_unsubscribed. discriminate.
Qed.

Lemma settled_subscription_not_pending_witness :
  hasPendingUnexpiredSubscription 3000 "user@example.com" 1
    (snd (verifySubscription 2000 "uuid-1" None (snd ex_first)))
  = (inr false, snd (verifySubscription 2000 "uuid-1" None (snd ex_first))).
Proof.
  assert (Hu : active_unique (pageSubscriber (snd ex_first)))
    by (apply active_unique_b_sound; reflexivity).
  assert (Hr : active_subscription (snd ex_first) "user@example.com" 1
                 ex_pending).
  { unfold active_subscription. repeat split; try reflexivity.
    simpl. now left. }
  destruct (@settled_subscription_not_pending 2000 "uuid-1" None
              (snd ex_first) ex_pending ex_page "user@example.com" 1
              Hu eq_refl Hr eq_refl) as [Hv _].
  eapply Hv. reflexivity.
Defined.

Lemma getSubscriptionByToken_reads_and_masks_witness :
  exists s,
    fst (getSubscriptionByToken "tok-b" None ex_db) = inr (Some s) /\
    Subscription.token s = None /\
    Subscription.email s = Some "b***@example.com"%string /\
    Subscription.componentIds s = [1].
Proof.
  eexists. split; [reflexivity|].
  destruct (@getSubscriptionByToken_reads_and_masks "tok-b" None ex_db)
    as [_ H].
  destruct (H _ eq_refl) as [Ht [_ [r [Hf [_ [He [_ [_ Hc]]]]]]]].
  split; [exact Ht|].
  injection Hf as <-. split; [exact He|exact Hc].
Defined.

(** ** Runs of the lifecycle manager *)

Lemma same_subscriber_refl r : same_subscriber r r.
Proof. unfold same_subscriber. tauto. Qed.

Lemma same_subscriber_trans a b c :
  same_subscriber a b -> same_subscriber b c -> same_subscriber a c.
Proof. unfold same_subscriber. intuition congruence. Qed.

Lemma row_evolves_refl r : row_evolves r r.
Proof. split; [apply same_subscriber_refl|tauto]. Qed.

Lemma row_evolves_trans a b c :
  row_evolves a b -> row_evolves b c -> row_evolves a c.
Proof.
  intros [S1 [A1 U1]] [S2 [A2 U2]]. split.
  - eapply same_subscriber_trans; eauto.
  - split; intros H.
    + rewrite <- (A1 H). apply A2. rewrite (A1 H). exact H.
    + rewrite <- (U1 H). apply U2. rewrite (U1 H). exact H.
Qed.

Lemma table_evolves_refl rows : table_evolves rows rows.
Proof. intros n r H. exists r. split; [exact H|apply row_evolves_refl]. Qed.

Lemma table_evolves_trans x y z :
  table_evolves x y -> table_evolves y z -> table_evolves x z.
Proof.
  intros H1 H2 n r Hr. destruct (H1 n r Hr) as [r1 [Hr1 E1]].
  destruct (H2 n r1 Hr1) as [r2 [Hr2 E2]]. exists r2.
  split; [exact Hr2|]. eapply row_evolves_trans; eauto.
Qed.

Lemma step_shape_refl d : step_shape d d.
Proof. unfold step_shape. auto 10. Qed.

Lemma touch_set_expiresAt r x y : touch r (set_expiresAt x y).
Proof. unfold touch, same_subscriber. simpl. auto 20. Qed.

Lemma touch_set_updatedAt r y : touch r (set_updatedAt y).
Proof. unfold touch, same_subscriber. simpl. auto 20. Qed.

Lemma touch_set_acceptedAt r x y :
  PS.acceptedAt r = None -> touch r (set_acceptedAt x y).
Proof.
  intros H. unfold touch, same_subscriber. simpl.
  split; [auto 20|]. split; [congruence|auto].
Qed.

Lemma touch_set_unsubscribedAt r x y :
  PS.unsubscribedAt r = None -> touch r (set_unsubscribedAt x y).
Proof.
  intros H. unfold touch, same_subscriber. simpl.
  split; [|split; [auto|congruence]].
  intros a. split; [auto 20|discriminate].
Qed.

Lemma NoDup_snoc {A} (l : list A) (a : A) :
  NoDup l -> ~ In a l -> NoDup (l ++ [a]).
Proof.
  induction 1 as [|x xs Hx Hxs IH]; intros Ha; simpl.
  - constructor; [tauto|constructor].
  - constructor.
    + rewrite in_app_iff. simpl in *. intuition.
    + apply IH. simpl in Ha. tauto.
Qed.

Lemma insert_links_skip_NoDup vs : forall tbl,
  NoDup tbl -> NoDup (insert_links_skip tbl vs).
Proof.
  induction vs as [|v r IH]; intros tbl H; simpl; [exact H|].
  destruct (existsb (link_eqb v) tbl) eqn:E; [now apply IH|].
  apply IH. apply NoDup_snoc; [exact H|].
  intros Hin. apply existsb_link_in in Hin. congruence.
Qed.

Lemma insert_links_into_NoDup vs : forall tbl t,
  NoDup tbl -> insert_links_into tbl vs = Some t -> NoDup t.
Proof.
  induction vs as [|v r IH]; intros tbl t H E; simpl in E.
  - now inversion E; subst.
  - destruct (existsb (link_eqb v) tbl) eqn:Ex; [discriminate|].
    apply (IH (tbl ++ [v]) t); [|exact E].
    apply NoDup_snoc; [exact H|].
    intros Hin. apply existsb_link_in in Hin. congruence.
Qed.

Lemma pk_same_id rows a b :
  NoDup (map PS.id rows) -> In a rows -> In b rows ->
  PS.id a = PS.id b -> a = b.
Proof.
  intros Hnd Ha Hb E.
  pose proof (@filter_id_unique rows b Hnd Hb) as Hf.
  assert (Hin : In a (filter (fun x => PS.id x =? PS.id b) rows)).
  { apply filter_In. split; [exact Ha|]. now apply Z.eqb_eq. }
  rewrite Hf in Hin. simpl in Hin. destruct Hin as [H|[]]. now symmetry.
Qed.

Lemma upsert_shape now uuid input d :
  pk_component d ->
  step_shape d (snd (upsertEmailSubscription now uuid input d)).
Proof.
  intros Hpk.
  destruct (find_page d (in_pageId input)) as [pg|] eqn:Hp.
  2:{ rewrite upsert_page_missing by assumption. apply step_shape_refl. }
  destruct (components_accepted d (in_pageId input) (upsert_ids input))
    eqn:Hv.
  2:{ destruct (@upsert_invalid now uuid input d pg Hp Hv) as [ids ->].
      apply step_shape_refl. }
  destruct (proj1 (@components_accepted_spec d (in_pageId input)
                     (upsert_ids input) Hpk) Hv) as [Hnd Hon].
  destruct (find_active_email d (toLowerCase (in_email input))
              (in_pageId input)) as [ex|] eqn:Hf.
  - destruct (PS.acceptedAt ex) as [acc|] eqn:Ha.
    + rewrite (@upsert_accepted now uuid input d pg ex acc Hp Hv Hf Ha).
      apply step_shape_refl.
    + rewrite (@upsert_pending now uuid input d pg ex Hp Hv Hf Ha).
      destruct (@find_active_subscription d (in_email input)
                  (in_pageId input) ex Hf) as [Hin [_ [Hpid _]]].
      unfold step_shape.
      cbn [snd page pageComponent pageSubscriber
           pageSubscriberToPageComponent].
      split; [reflexivity|]. split; [reflexivity|]. split.
      { right. left.
        exists ex, (set_expiresAt (now + VERIFICATION_EXPIRY_MS) now).
        split; [exact Hin|]. split; [apply touch_set_expiresAt|reflexivity]. }
      split; [apply insert_links_skip_NoDup|].
      intros l Hl. apply insert_links_skip_in in Hl.
      destruct Hl as [Hl|Hl]; [now left|]. right.
      apply links_for_in in Hl. destruct Hl as [Hs Hc].
      apply added_ids_in in Hc. destruct Hc as [Hc _].
      exists (set_expiresAt (now + VERIFICATION_EXPIRY_MS) now ex).
      split.
      { apply (@update_rows_in
                 (set_expiresAt (now + VERIFICATION_EXPIRY_MS) now)
                 (PS.id ex)) in Hin.
        now rewrite Z.eqb_refl in Hin. }
      split; [simpl; congruence|]. simpl. rewrite Hpid. now apply Hon.
  - rewrite (@upsert_new now uuid input d pg Hp Hv Hf). cbv zeta.
    destruct (existsb _ (pageSubscriber d)) eqn:Hx; [apply step_shape_refl|].
    destruct (insert_links_into _ _) as [t|] eqn:Hi;
      [|apply step_shape_refl].
    unfold step_shape.
    cbn [snd page pageComponent pageSubscriber
         pageSubscriberToPageComponent].
    split; [reflexivity|]. split; [reflexivity|]. split.
    { right. right.
      exists (new_subscriber now uuid (in_email input) (in_pageId input)
                (pageSubscriber d)).
      split; [reflexivity|]. split; [reflexivity|]. split; [reflexivity|].
      split; [eexists; reflexivity|]. split; [exact Hx|].
      simpl. congruence. }
    split.
    { intros Hl. eapply insert_links_into_NoDup; eauto. }
    intros l Hl. rewrite (insert_links_into_some _ _ Hi) in Hl.
    apply in_app_iff in Hl. destruct Hl as [Hl|Hl]; [now left|]. right.
    apply links_for_in in Hl. destruct Hl as [Hs Hc].
    exists (new_subscriber now uuid (in_email input) (in_pageId input)
              (pageSubscriber d)).
    split; [apply in_or_app; right; now left|].
    split; [simpl in *; congruence|]. simpl. now apply Hon.
Qed.

Lemma verify_shape now tok dom d :
  fk_subscriber_page d ->
  step_shape d (snd (verifySubscription now tok dom d)).
Proof.
  intros Hfk. destruct (find_by_token d tok) as [r|] eqn:Hf.
  2:{ rewrite verify_unknown by assumption. apply step_shape_refl. }
  assert (Hin : In r (pageSubscriber d)) by (apply find_some in Hf; tauto).
  destruct (find_page d (PS.pageId r)) as [pg|] eqn:Hp;
    [|now apply Hfk in Hin].
  rewrite (@verify_found now tok dom d r pg Hf Hp).
  destruct (negb (domain_passes dom pg)); [apply step_shape_refl|].
  destruct (PS.acceptedAt r) as [acc|] eqn:Ha; [apply step_shape_refl|].
  match goal with
  | |- context [if ?b then _ else _] => destruct b
  end; [apply step_shape_refl|].
  unfold step_shape.
  cbn [snd set_pageSubscriber page pageComponent pageSubscriber
       pageSubscriberToPageComponent].
  split; [reflexivity|]. split; [reflexivity|]. split; [|auto].
  right. left. exists r, (set_acceptedAt now now).
  split; [exact Hin|]. split; [now apply touch_set_acceptedAt|reflexivity].
Qed.

Lemma unsubscribe_shape now tok dom d :
  fk_subscriber_page d ->
  step_shape d (snd (unsubscribe now tok dom d)).
Proof.
  intros Hfk. destruct (find_by_token d tok) as [r|] eqn:Hf.
  2:{ rewrite unsubscribe_unknown by assumption. apply step_shape_refl. }
  assert (Hin : In r (pageSubscriber d)) by (apply find_some in Hf; tauto).
  destruct (find_page d (PS.pageId r)) as [pg|] eqn:Hp;
    [|now apply Hfk in Hin].
  rewrite (@unsubscribe_found now tok dom d r pg Hf Hp).
  destruct (negb (domain_passes dom pg)); [apply step_shape_refl|].
  destruct (PS.unsubscribedAt r) as [u|] eqn:Hu;
    [apply step_shape_refl|].
  unfold step_shape.
  cbn [is_some snd set_pageSubscriber page pageComponent pageSubscriber
       pageSubscriberToPageComponent].
  split; [reflexivity|]. split; [reflexivity|]. split; [|auto].
  right. left. exists r, (set_unsubscribedAt now now).
  split; [exact Hin|].
  split; [now apply touch_set_unsubscribedAt|reflexivity].
Qed.

Lemma updateScope_shape now input d :
  pk_component d -> fk_subscriber_page d ->
  step_shape d (snd (updateSubscriptionScope now input d)).
Proof.
  intros Hpk Hfk. destruct (find_by_token d (sc_token input)) as [r|] eqn:Hf.
  2:{ rewrite updateScope_unknown by assumption. apply step_shape_refl. }
  assert (Hin : In r (pageSubscriber d)) by (apply find_some in Hf; tauto).
  destruct (find_page d (PS.pageId r)) as [pg|] eqn:Hp;
    [|now apply Hfk in Hin].
  rewrite (@updateScope_cases now input d r pg Hpk Hf Hp).
  destruct (negb (domain_passes (sc_domain input) pg));
    [apply step_shape_refl|].
  destruct (PS.acceptedAt r) as [acc|] eqn:Ha; [|apply step_shape_refl].
  destruct (is_some (PS.unsubscribedAt r)); [apply step_shape_refl|].
  destruct (components_accepted d (PS.pageId r) (sc_componentIds input))
    eqn:Hv; [|apply step_shape_refl].
  destruct (proj1 (@components_accepted_spec d (PS.pageId r)
                     (sc_componentIds input) Hpk) Hv) as [Hnd Hon].
  unfold step_shape.
  cbn [negb snd page pageComponent pageSubscriber
       pageSubscriberToPageComponent].
  split; [reflexivity|]. split; [reflexivity|]. split.
  { right. left. exists r, (set_updatedAt now).
    split; [exact Hin|]. split; [apply touch_set_updatedAt|reflexivity]. }
  unfold replaced_links. split.
  - intros Hl. apply NoDup_app.
    + now apply NoDup_filter.
    + now apply links_for_NoDup.
    + intros l H1 H2. apply filter_In in H1. destruct H1 as [_ H1].
      apply links_for_in in H2. destruct H2 as [H2 _].
      rewrite H2, Z.eqb_refl in H1. discriminate.
  - intros l Hl. apply in_app_iff in Hl. destruct Hl as [Hl|Hl].
    + left. apply filter_In in Hl. tauto.
    + right. apply links_for_in in Hl. destruct Hl as [Hs Hc].
      exists (set_updatedAt now r). split.
      { apply (@update_rows_in (set_updatedAt now) (PS.id r)) in Hin.
        now rewrite Z.eqb_refl in Hin. }
      split; [simpl; congruence|]. simpl. now apply Hon.
Qed.

Lemma lifecycle_step_shape d d' :
  pk_component d -> fk_subscriber_page d ->
  lifecycle_step d d' -> step_shape d d'.
Proof.
  intros Hpk Hfk [now uuid input|now tok dom|now input|now tok dom].
  - now apply upsert_shape.
  - now apply verify_shape.
  - now apply updateScope_shape.
  - now apply unsubscribe_shape.
Qed.

Lemma update_rows_ids f i rows :
  (forall a, PS.id (f a) = PS.id a) ->
  map PS.id (update_rows f i rows) = map PS.id rows.
Proof.
  intros Hf. unfold update_rows. rewrite map_map. apply map_ext.
  intros a. destruct (PS.id a =? i); [apply Hf|reflexivity].
Qed.

Lemma touch_same r f a : touch r f -> same_subscriber a (f a).
Proof. intros [H _]. apply H. Qed.

Lemma shape_rows_keep d d' r :
  step_shape d d' -> In r (pageSubscriber d) ->
  exists r', In r' (pageSubscriber d') /\
             PS.id r' = PS.id r /\ PS.pageId r' = PS.pageId r.
Proof.
  intros [_ [_ [Hrows _]]] Hin.
  destruct Hrows as [E|[[r0 [f [_ [Ht E]]]]|[n [E _]]]]; rewrite E.
  - exists r. auto.
  - exists (if PS.id r =? PS.id r0 then f r else r).
    split; [now apply update_rows_in|].
    destruct (PS.id r =? PS.id r0); [|auto].
    destruct (@touch_same r0 f r Ht) as [H1 [_ [H3 _]]]. auto.
  - exists r. split; [apply in_or_app; now left|auto].
Qed.

Lemma shape_store_ok d d' : store_ok d -> step_shape d d' -> store_ok d'.
Proof.
  intros [Hps [Hpc [Hpl [Hau [Hfk Hlp]]]]] Hs.
  pose proof (fun r => @shape_rows_keep d d' r Hs) as Hkeep.
  destruct Hs as [Epage [Ecomp [Hrows [Hnd Hlinks]]]].
  assert (Hon : forall p c, on_page d p c -> on_page d' p c)
    by (intros p c; unfold on_page; now rewrite Ecomp).
  assert (Hfind : forall p, find_page d' p = find_page d p)
    by (intros p; unfold find_page; now rewrite Epage).
  unfold store_ok, pk_subscriber, pk_component, pk_link.
  split; [|split; [now rewrite Ecomp|split; [now apply Hnd|]]].
  { destruct Hrows as [E|[[r0 [f [_ [Ht E]]]]|[n [E [Hid _]]]]]; rewrite E.
    - exact Hps.
    - rewrite update_rows_ids; [exact Hps|].
      intros a. now destruct (@touch_same r0 f a Ht) as [H1 _].
    - rewrite map_app. simpl. apply NoDup_snoc; [exact Hps|].
      rewrite Hid. apply next_id_fresh. }
  split.
  { destruct Hrows as [E|[[r0 [f [_ [Ht E]]]]
                         |[n [E [_ [Hc [[mail He] [Hx _]]]]]]]]; rewrite E.
    - exact Hau.
    - apply active_unique_update; [|exact Hau].
      intros a. destruct Ht as [Ht _]. destruct (Ht a) as [Hsame Hun].
      destruct Hsame as [_ [H2 [H3 [H4 [H5 _]]]]].
      unfold identity. rewrite H2, H4, H5. auto.
    - now apply (@active_unique_insert (pageSubscriber d) n mail). }
  split.
  { intros r Hr. rewrite Hfind.
    destruct Hrows as [E|[[r0 [f [_ [Ht E]]]]|[n [E [_ [_ [_ [_ Hp]]]]]]]];
      rewrite E in Hr.
    - now apply Hfk.
    - unfold update_rows in Hr. apply in_map_iff in Hr.
      destruct Hr as [a [Ea Ha]]. subst r.
      destruct (PS.id a =? PS.id r0); [|now apply Hfk].
      destruct (@touch_same r0 f a Ht) as [_ [_ [H3 _]]]. rewrite H3.
      now apply Hfk.
    - apply in_app_iff in Hr. destruct Hr as [Hr|[<-|[]]];
        [now apply Hfk|exact Hp]. }
  intros l Hl. destruct (Hlinks l Hl) as [Hold|[r [Hr [Hid Hc]]]].
  - destruct (Hlp l Hold) as [r [Hr [Hid Hc]]].
    destruct (Hkeep r Hr) as [r' [Hr' [Hid' Hp']]].
    exists r'. split; [exact Hr'|]. split; [congruence|].
    rewrite Hp'. now apply Hon.
  - exists r. split; [exact Hr|]. split; [exact Hid|now apply Hon].
Qed.

Lemma shape_evolves d d' :
  pk_subscriber d -> step_shape d d' ->
  table_evolves (pageSubscriber d) (pageSubscriber d').
Proof.
  intros Hps [_ [_ [Hrows _]]].
  destruct Hrows as [E|[[r0 [f [Hin [Ht E]]]]|[n [E _]]]]; rewrite E.
  - apply table_evolves_refl.
  - intros k a Ha. rewrite update_rows_nth, Ha. simpl.
    eexists. split; [reflexivity|].
    destruct (PS.id a =? PS.id r0) eqn:Hid; [|apply row_evolves_refl].
    apply Z.eqb_eq in Hid.
    assert (a = r0).
    { apply (@pk_same_id (pageSubscriber d)); auto.
      eapply nth_error_In; eauto. }
    subst a. destruct Ht as [Hs [Hacc Hun]].
    split; [apply Hs|]. auto.
  - intros k a Ha. exists a. split; [|apply row_evolves_refl].
    rewrite nth_error_app1; [exact Ha|].
    apply nth_error_Some. congruence.
Qed.

Lemma ex_db_store_ok : store_ok ex_db.
Proof.
  unfold store_ok. split.
  { unfold pk_subscriber. simpl.
    repeat constructor; simpl; intuition discriminate. }
  split.
  { unfold pk_component. simpl.
    repeat constructor; simpl; intuition discriminate. }
  split.
  { unfold pk_link. simpl.
    repeat constructor; simpl; intuition discriminate. }
  split; [apply ex_db_active_unique|].
  split.
  { intros r Hr. simpl in Hr.
    destruct Hr as [<-|[<-|[<-|[]]]]; discriminate. }
  intros l Hl. simpl in Hl. destruct Hl as [<-|[<-|[]]].
  - exists ex_rowB. split; [simpl; auto|]. split; [reflexivity|].
    exists (PageComponent.mk 1 1 "API"). simpl. auto.
  - exists ex_rowC. split; [simpl; auto|]. split; [reflexivity|].
    exists (PageComponent.mk 2 1 "Web"). simpl. auto.
Qed.

(** X11. The keys and references of the store survive every run of the
    lifecycle manager: if subscriber ids, component ids and links are
    without duplicates, every subscriber's page is stored, every link joins
    a stored subscriber to a component of that subscriber's own page, and
    no two active rows share an address, then the same holds after any
    sequence of upsert, verify, updateScope and unsubscribe calls, with any
    arguments, whether they return or throw. *)
Theorem lifecycle_run_keeps_store_ok d d' :
  store_ok d -> lifecycle_run d d' -> store_ok d'.
Proof.
  intros Hok Hrun. induction Hrun as [|d1 d2 Hrun IH Hstep]; [exact Hok|].
  apply (@shape_store_ok d1 d2 IH).
  destruct IH as [_ [Hpc [_ [_ [Hfk _]]]]].
  now apply lifecycle_step_shape.
Qed.

Lemma lifecycle_run_keeps_store_ok_witness :
  store_ok
    (snd (unsubscribe 50 "tok-b" None
            (snd (upsertEmailSubscription 40 "uuid-9"
                    (mkUpsert "New@Example.com" 1 (Some [2])) ex_db)))).
Proof.
  apply (@lifecycle_run_keeps_store_ok ex_db).
  - exact ex_db_store_ok.
  - eapply run_more; [eapply run_more; [apply run_done|]|].
    + apply (@step_upsert ex_db 40 "uuid-9"
               (mkUpsert "New@Example.com" 1 (Some [2]))).
    + apply step_unsubscribe.
Defined.

(** X12. The lifecycle manager never forgets: across any sequence of
    upsert, verify, updateScope and unsubscribe calls on a store that
    satisfies its keys and references, pages and components are left
    alone, no subscriber row is deleted or moved, no row changes its id,
    address, page, channel, webhook URL, channel configuration, token or
    creation date, and an acceptance date or unsubscription date, once
    set, is never changed or cleared. *)
Theorem lifecycle_run_keeps_history d d' :
  store_ok d -> lifecycle_run d d' ->
  page d' = page d /\ pageComponent d' = pageComponent d /\
  table_evolves (pageSubscriber d) (pageSubscriber d').
Proof.
  intros Hok Hrun.
  assert (H : store_ok d' /\ page d' = page d /\
              pageComponent d' = pageComponent d /\
              table_evolves (pageSubscriber d) (pageSubscriber d')).
  { induction Hrun as [|d1 d2 Hrun IH Hstep].
    - split; [exact Hok|]. split; [reflexivity|]. split; [reflexivity|].
      apply table_evolves_refl.
    - destruct IH as [Hok1 [Ep [Ec Hev]]].
      assert (Hs : step_shape d1 d2).
      { destruct Hok1 as [_ [Hpc [_ [_ [Hfk _]]]]].
        now apply lifecycle_step_shape. }
      split; [now apply (@shape_store_ok d1 d2)|].
      destruct Hs as [Ep2 [Ec2 Hrest]].
      split; [congruence|]. split; [congruence|].
      eapply table_evolves_trans; [exact Hev|].
      apply shape_evolves; [apply Hok1|].
      unfold step_shape. auto. }
  tauto.
Qed.

Lemma lifecycle_run_keeps_history_witness :
  table_evolves (pageSubscriber ex_db)
    (pageSubscriber
       (snd (unsubscribe 50 "tok-b" None
               (snd (upsertEmailSubscription 40 "uuid-9"
                       (mkUpsert "New@Example.com" 1 (Some [2])) ex_db))))).
Proof.
  apply (@lifecycle_run_keeps_history ex_db).
  - exact ex_db_store_ok.
  - eapply run_more; [eapply run_more; [apply run_done|]|].
    + apply (@step_upsert ex_db 40 "uuid-9"
               (mkUpsert "New@Example.com" 1 (Some [2]))).
    + apply step_unsubscribe.
Defined.

(** ** The groups and the sends of a dispatch *)

Lemma group_of_push k acc x :
  group_of k (push_own acc x) =
  if on_channel k x
  then Some (match group_of k acc with
             | Some g => g ++ [x]
             | None => [x]
             end)
  else group_of k acc.
Proof.
  unfold group_of, on_channel.
  induction acc as [|[k' v] r IH]; simpl.
  - rewrite String.eqb_sym. destruct (String.eqb k _); reflexivity.
  - destruct (String.eqb_spec k' (Subscription.channelType x)) as [E1|E1];
      simpl.
    + destruct (String.eqb_spec k' k) as [E2|E2]; simpl.
      * subst. now rewrite String.eqb_refl.
      * destruct (String.eqb_spec k (Subscription.channelType x));
          [congruence|reflexivity].
    + destruct (String.eqb_spec k' k) as [E2|E2]; simpl.
      * destruct (String.eqb_spec k (Subscription.channelType x));
          [congruence|reflexivity].
      * exact IH.
Qed.

Lemma push_own_keys acc x k :
  In k (map fst (push_own acc x)) <->
  k = Subscription.channelType x \/ In k (map fst acc).
Proof.
  induction acc as [|[k' v] r IH]; simpl.
  - intuition.
  - destruct (String.eqb_spec k' (Subscription.channelType x)) as [E|E];
      simpl.
    + subst. intuition.
    + rewrite IH. intuition.
Qed.

Lemma push_own_NoDup acc x :
  NoDup (map fst acc) -> NoDup (map fst (push_own acc x)).
Proof.
  induction acc as [|[k' v] r IH]; simpl; intros H.
  - constructor; [tauto|constructor].
  - inversion H as [|? ? Hk Hr]; subst.
    destruct (String.eqb_spec k' (Subscription.channelType x)) as [E|E];
      simpl.
    + constructor; assumption.
    + constructor; [|now apply IH].
      rewrite push_own_keys. intuition.
Qed.

Lemma fold_push_own_NoDup subs : forall acc,
  NoDup (map fst acc) -> NoDup (map fst (fold_left push_own subs acc)).
Proof.
  induction subs as [|x r IH]; intros acc H; simpl; [exact H|].
  apply IH. now apply push_own_NoDup.
Qed.

Lemma fold_group_of k subs : forall acc,
  group_of k (fold_left push_own subs acc) =
  match group_of k acc with
  | Some g => Some (g ++ filter (on_channel k) subs)
  | None => match filter (on_channel k) subs with
            | [] => None
            | f => Some f
            end
  end.
Proof.
  induction subs as [|x r IH]; intros acc; simpl.
  - destruct (group_of k acc); [now rewrite app_nil_r|reflexivity].
  - rewrite IH, group_of_push.
    destruct (on_channel k x); [|reflexivity].
    destruct (group_of k acc) as [g|]; [|reflexivity].
    now rewrite <- app_assoc.
Qed.

Lemma grouped_group_of k subs :
  group_of k (grouped subs) =
  match filter (on_channel k) subs with
  | [] => None
  | f => Some f
  end.
Proof. unfold grouped. now rewrite fold_group_of. Qed.

Lemma grouped_NoDup subs : NoDup (map fst (grouped subs)).
Proof. apply fold_push_own_NoDup. constructor. Qed.

Lemma concat_all_nil {A B} (h : A -> list B) (l : list A) :
  (forall e, In e l -> h e = []) -> List.concat (map h l) = [].
Proof.
  induction l as [|e r IH]; intros H; simpl; [reflexivity|].
  rewrite (H e) by now left. apply IH. intros x Hx. apply H. now right.
Qed.

Lemma concat_one_key {B} (h : string * list Subscription.t -> list B) k :
  forall groups,
  NoDup (map fst groups) ->
  (forall e, In e groups -> fst e <> k -> h e = []) ->
  List.concat (map h groups) =
  match group_of k groups with
  | Some g => h (k, g)
  | None => []
  end.
Proof.
  unfold group_of.
  induction groups as [|[k' v] r IH]; intros Hnd Hh; simpl; [reflexivity|].
  inversion Hnd as [|? ? Hk Hr]; subst. simpl in Hk.
  destruct (String.eqb_spec k' k) as [E|E]; simpl.
  - subst k'. rewrite concat_all_nil; [now rewrite app_nil_r|].
    intros e He. apply Hh; [now right|].
    intros Hf. apply Hk. rewrite <- Hf. now apply in_map.
  - rewrite (Hh (k', v)); [|now left|exact E]. simpl.
    apply IH; [exact Hr|]. intros e He. apply Hh. now right.
Qed.

Lemma webhook_task_no_email w pu n sub :
  filter is_email_batch (fst (webhook_task w pu n sub)) = [].
Proof.
  unfold webhook_task, parse_channelConfig.
  destruct (Subscription.channelConfig sub) as [c|]; simpl.
  - destruct (truthy c); simpl.
    + destruct (JSON_parse w c) as [[| |]|]; simpl;
        try reflexivity;
        match goal with
        | |- context [fetch w n ?r] => destruct (fetch w n r)
        end; reflexivity.
    + destruct (fetch w n _); reflexivity.
  - destruct (fetch w n _); reflexivity.
Qed.

Lemma mapi_from_no_email w pu l : forall k,
  filter is_email_batch
    (List.concat (map fst (mapi_from (webhook_task w pu) k l))) = [].
Proof.
  induction l as [|x r IH]; intros k; simpl; [reflexivity|].
  now rewrite filter_app, webhook_task_no_email, IH.
Qed.

Lemma sendWebhookNotifications_no_email w pu subs :
  filter is_email_batch (fst (sendWebhookNotifications subs pu w)) = [].
Proof.
  unfold sendWebhookNotifications.
  destruct (negb (nonempty (filter hasWebhookUrl subs))); [reflexivity|].
  unfold allSettled. cbn [fst]. apply mapi_from_no_email.
Qed.

Lemma channel_task_email_batch w pu k g :
  filter is_email_batch (fst (channel_task w pu (k, g))) =
  if String.eqb k "email"
  then filter is_email_batch (fst (sendEmailNotifications g pu w))
  else [].
Proof.
  unfold channel_task, getChannel.
  destruct (String.eqb k "email").
  - cbn [SubscriptionChannel.sendNotifications emailChannel].
    destruct (sendEmailNotifications g pu w) as [eff [|]]; cbn [fst];
      rewrite filter_app; simpl; now rewrite app_nil_r.
  - destruct (String.eqb k "webhook"); [|reflexivity].
    cbn [SubscriptionChannel.sendNotifications webhookChannel].
    pose proof (sendWebhookNotifications_no_email w pu g) as H.
    destruct (sendWebhookNotifications g pu w) as [eff [|]]; cbn [fst] in *;
      rewrite filter_app, H; reflexivity.
Qed.

Lemma matching_page_fields d pg pu s :
  In s (matchingSubscriptions d pg pu) ->
  Subscription.pageName s = Page.title pg /\
  Subscription.pageSlug s = Page.slug pg /\
  Subscription.customDomain s = Page.customDomain pg.
Proof.
  intros H. apply matchingSubscriptions_spec in H.
  destruct H as [r [_ [-> _]]]. simpl. auto.
Qed.

(** X13. The email side of a dispatch, in full, no selected subscription
    having an inherited property name for channel type (the CHECK
    constraint of the table guarantees it): a dispatch for a stored
    page calls the email provider at most once; it does so exactly when
    some subscription selected for the update is an email subscription
    with an address and a token and an email client can be built; and the
    one call then names exactly those subscriptions, in table order, each
    with its own address and token, together with the title, slug and
    custom domain of the page and the title, status, message, date and
    component names of the update. *)
Theorem dispatch_email_batch d w pu pg :
  find_page d (PageUpdate.pageId pu) = Some pg ->
  own_channel_types d pu ->
  filter is_email_batch (fst (dispatchPageUpdate d w pu)) =
  match email_audience d pg pu, getEmailClient w with
  | _ :: _, Resolved =>
      [EmailBatch
         (mkProps (map email_recipient (email_audience d pg pu))
            (Page.title pg) (Page.slug pg) (Page.customDomain pg)
            (PageUpdate.title pu) (PageUpdate.status pu)
            (PageUpdate.message pu) (PageUpdate.date pu)
            (PageUpdate.pageComponents pu))]
  | _, _ => []
  end.
Proof.
  intros Hp Hown. rewrite (@dispatchPageUpdate_unfold d w pu pg Hp Hown).
  rewrite (@dispatch_groups_own d pu pg Hp Hown).
  unfold email_audience.
  set (m := matchingSubscriptions d pg pu).
  assert (Hm : forall s, In s m ->
            Subscription.pageName s = Page.title pg /\
            Subscription.pageSlug s = Page.slug pg /\
            Subscription.customDomain s = Page.customDomain pg)
    by (intros s; apply matching_page_fields).
  destruct (Nat.eqb (List.length m) 0) eqn:Hlen.
  { apply length_zero_eqb in Hlen. rewrite Hlen. reflexivity. }
  unfold allSettled. cbn [fst]. rewrite filter_concat, !map_map.
  rewrite (@concat_one_key Effect
             (fun x => filter is_email_batch (fst (channel_task w pu x)))
             "email" (grouped m) (grouped_NoDup m)).
  2:{ intros [k g] _ Hk. rewrite channel_task_email_batch.
      simpl in Hk. destruct (String.eqb_spec k "email"); [contradiction|].
      reflexivity. }
  rewrite grouped_group_of.
  destruct (filter (on_channel "email") m) as [|s0 g0] eqn:Hg;
    [reflexivity|].
  rewrite channel_task_email_batch. cbn [String.eqb Ascii.eqb Bool.eqb].
  unfold sendEmailNotifications. cbn [nonempty negb].
  destruct (filter hasEmailAndToken (s0 :: g0)) as [|f0 v0] eqn:Hv;
    [reflexivity|].
  destruct (getEmailClient w); [|reflexivity].
  assert (Hf : In f0 m).
  { assert (H0 : In f0 (filter hasEmailAndToken (s0 :: g0)))
      by (rewrite Hv; now left).
    apply filter_In in H0. destruct H0 as [H0 _].
    rewrite <- Hg in H0. apply filter_In in H0. tauto. }
  destruct (Hm f0 Hf) as [-> [-> ->]]. reflexivity.
Qed.

Lemma dispatch_email_batch_witness :
  exists p,
    filter is_email_batch (fst (dispatchPageUpdate ex_db ex_world
                                  (ex_update [1]))) = [EmailBatch p] /\
    subscribers p = [("a@example.com", "tok-a"); ("b@example.com", "tok-b")]%string.
Proof.
  eexists. split.
  - apply (@dispatch_email_batch ex_db ex_world (ex_update [1]) ex_page).
    + reflexivity.
    + apply channel_checked_own_types. exact ex_db_channel_checked.
  - reflexivity.
Defined.

Lemma webhook_task_post_in w pu n sub m req :
  In (HttpPost m req) (fst (webhook_task w pu n sub)) <->
  m = n /\ snd (parse_channelConfig w sub) <> HeadersThrow /\
  req = webhook_request sub pu (request_headers w sub).
Proof.
  unfold webhook_task, request_headers.
  assert (Hparsed : forall e, In e (fst (parse_channelConfig w sub)) ->
                      is_post e = false).
  { intros e. unfold parse_channelConfig.
    destruct (Subscription.channelConfig sub) as [c|]; [|intros []].
    destruct (truthy c); [|intros []].
    destruct (JSON_parse w c); simpl; [intros []|].
    intros [<-|[]]. reflexivity. }
  assert (Hno : ~ In (HttpPost m req) (fst (parse_channelConfig w sub))).
  { intros H. apply Hparsed in H. discriminate. }
  destruct (snd (parse_channelConfig w sub)) eqn:Hs.
  - destruct (fetch w n _); cbn [fst]; rewrite in_app_iff; simpl;
      split;
      try (intros [H|H]; [contradiction|];
           repeat (destruct H as [H|H]; try discriminate; try contradiction);
           inversion H; subst; repeat split; discriminate);
      intros [-> [_ ->]]; right; now left.
  - destruct (fetch w n _); cbn [fst]; rewrite in_app_iff; simpl;
      split;
      try (intros [H|H]; [contradiction|];
           repeat (destruct H as [H|H]; try discriminate; try contradiction);
           inversion H; subst; repeat split; discriminate);
      intros [-> [_ ->]]; right; now left.
  - cbn [fst]. split; [intros H; contradiction|].
    intros [_ [H _]]. now elim H.
Qed.

Lemma mapi_from_in {A B} (f : nat -> A -> list B) (l : list A) :
  forall k e,
  In e (List.concat (mapi_from f k l)) <->
  exists i x, nth_error l i = Some x /\ In e (f (k + i)%nat x).
Proof.
  induction l as [|y r IH]; intros k e; simpl.
  - split; [intros []|]. intros [i [x [H _]]]. destruct i; discriminate.
  - rewrite in_app_iff, IH. split.
    + intros [H|[i [x [Hi He]]]].
      * exists 0%nat, y. rewrite Nat.add_0_r. auto.
      * exists (S i), x. split; [exact Hi|].
        now replace (k + S i)%nat with (S k + i)%nat by lia.
    + intros [[|i] [x [Hi He]]]; simpl in Hi.
      * inversion Hi; subst. rewrite Nat.add_0_r in He. now left.
      * right. exists i, x. split; [exact Hi|].
        now replace (S k + i)%nat with (k + S i)%nat by lia.
Qed.

Lemma map_mapi_from {A B C} (g : B -> C) (f : nat -> A -> B) l : forall k,
  map g (mapi_from f k l) = mapi_from (fun n x => g (f n x)) k l.
Proof.
  induction l as [|x r IH]; intros k; simpl; [reflexivity|].
  now rewrite IH.
Qed.

Lemma sendWebhookNotifications_post_in w pu subs n req :
  In (HttpPost n req) (fst (sendWebhookNotifications subs pu w)) <->
  exists sub,
    nth_error (filter hasWebhookUrl subs) n = Some sub /\
    snd (parse_channelConfig w sub) <> HeadersThrow /\
    req = webhook_request sub pu (request_headers w sub).
Proof.
  unfold sendWebhookNotifications.
  destruct (filter hasWebhookUrl subs) as [|v0 vs] eqn:Hv.
  - simpl. split; [intros []|]. intros [sub [H _]].
    destruct n; discriminate.
  - cbn [nonempty negb]. unfold allSettled. cbn [fst].
    rewrite map_mapi_from, mapi_from_in. split.
    + intros [i [x [Hi He]]]. apply webhook_task_post_in in He.
      destruct He as [-> He]. exists x. simpl in Hi. tauto.
    + intros [sub [Hn He]]. exists n, sub. split; [exact Hn|].
      apply webhook_task_post_in. tauto.
Qed.

(** X14. The POSTs of the webhook channel, in full.  For any list of
    subscriptions handed to sendWebhookNotifications: a POST numbered n is
    issued only for the n-th subscription of the list that has a URL, and
    only if its configured headers can be read; it goes to that
    subscription's URL with method POST, a 10 s timeout, the payload of
    the page and the update, and the headers that the defaults and the
    configuration give; such a subscription does get its POST, and no
    number gets two; and the POSTs are the same whatever the outcomes of
    the requests.  (The table as it stands admits no webhook row: the
    channel is reached only by callers that build the subscriptions
    themselves.) *)
Theorem sendWebhookNotifications_posts_exactly subs pu w n :
  (forall req,
     In (HttpPost n req) (fst (sendWebhookNotifications subs pu w)) ->
     exists sub,
       nth_error (filter hasWebhookUrl subs) n = Some sub /\
       snd (parse_channelConfig w sub) <> HeadersThrow /\
       Some (rq_url req) = Subscription.webhookUrl sub /\
       rq_method req = "POST"%string /\ rq_timeout req = 10000 /\
       rq_body req = webhook_payload sub pu /\
       forall k, get_header (rq_headers req) k =
                 get_header (request_headers w sub) k) /\
  (forall sub,
     nth_error (filter hasWebhookUrl subs) n = Some sub ->
     snd (parse_channelConfig w sub) <> HeadersThrow ->
     exists req,
       In (HttpPost n req) (fst (sendWebhookNotifications subs pu w))) /\
  (forall req1 req2,
     In (HttpPost n req1) (fst (sendWebhookNotifications subs pu w)) ->
     In (HttpPost n req2) (fst (sendWebhookNotifications subs pu w)) ->
     req1 = req2) /\
  (forall f s req,
     In (HttpPost n req)
        (fst (sendWebhookNotifications subs pu (with_outcomes w f s))) <->
     In (HttpPost n req) (fst (sendWebhookNotifications subs pu w))).
Proof.
  split; [|split; [|split]].
  - intros req H. apply sendWebhookNotifications_post_in in H.
    destruct H as [sub [Hn [Hc ->]]]. exists sub.
    split; [exact Hn|]. split; [exact Hc|].
    assert (Hu : hasWebhookUrl sub = true).
    { apply nth_error_In in Hn. apply filter_In in Hn. tauto. }
    unfold hasWebhookUrl in Hu. cbn [webhook_request rq_url rq_method
      rq_timeout rq_body rq_headers].
    destruct (Subscription.webhookUrl sub); [|discriminate].
    auto 10.
  - intros sub Hn Hc. eexists. apply sendWebhookNotifications_post_in.
    exists sub. auto.
  - intros req1 req2 H1 H2.
    apply sendWebhookNotifications_post_in in H1, H2.
    destruct H1 as [s1 [N1 [_ ->]]]. destruct H2 as [s2 [N2 [_ ->]]].
    congruence.
  - intros f s req. rewrite !sendWebhookNotifications_post_in. reflexivity.
Qed.

(** Of two subscriptions with a URL, the second gets the POST numbered 1,
    to its own URL. *)
Lemma sendWebhookNotifications_posts_exactly_witness :
  exists req,
    In (HttpPost 1 req)
       (fst (sendWebhookNotifications [ex_hook1; ex_hook2] (ex_update [1])
               ex_world)) /\
    Some (rq_url req) = Subscription.webhookUrl ex_hook2.
Proof.
  destruct (@sendWebhookNotifications_posts_exactly [ex_hook1; ex_hook2]
              (ex_update [1]) ex_world 1) as [Hs [He _]].
  assert (Hc : snd (parse_channelConfig ex_world ex_hook2) <> HeadersThrow)
    by (cbv; congruence).
  destruct (He ex_hook2 eq_refl Hc) as [req Hreq].
  exists req. split; [exact Hreq|].
  destruct (Hs req Hreq) as [sub [Hn [_ [Hu _]]]].
  injection Hn as <-. exact Hu.
Defined.

(** ** From the lifecycle to the dispatcher *)

Lemma selected_iff d pu r :
  pk_subscriber d -> In r (pageSubscriber d) ->
  find_page d (PS.pageId r) <> None ->
  ((exists s, selected d pu s /\
              Subscription.id s = PS.id r) <->
   spec_matches d pu r).
Proof.
  intros Hpk Hin Hp. split.
  - intros [s [Hs Hid]]. apply selected_spec in Hs.
    destruct Hs as [pg [r0 [_ [Hr0 [-> Hm]]]]]. simpl in Hid.
    now rewrite <- (@pk_same_id (pageSubscriber d) r0 r Hpk Hr0 Hin Hid).
  - intros Hm. pose proof Hm as [Hpid _]. rewrite Hpid in Hp.
    destruct (find_page d (PageUpdate.pageId pu)) as [pg|] eqn:E;
      [|contradiction].
    exists (to_subscription d pg r). split; [|reflexivity].
    apply selected_spec. exists pg, r. auto.
Qed.

Lemma others_selected d d' i pu s :
  page d' = page d ->
  (forall a, PS.id a <> i ->
     (In a (pageSubscriber d') <-> In a (pageSubscriber d))) ->
  (forall o, o <> i -> components_of d' o = components_of d o) ->
  Subscription.id s <> i ->
  (selected d' pu s <->
   selected d pu s).
Proof.
  intros Epage Hrows Hcomp Hs.
  assert (Hfind : forall p, find_page d' p = find_page d p)
    by (intros p; unfold find_page; now rewrite Epage).
  rewrite !selected_spec.
  split; intros [pg [a [Hp [Ha [E Hm]]]]]; subst s; simpl in Hs;
    exists pg, a.
  - rewrite Hfind in Hp. split; [exact Hp|].
    split; [now apply Hrows|].
    unfold to_subscription, spec_matches in *.
    rewrite Hcomp in * by exact Hs. auto.
  - rewrite Hfind. split; [exact Hp|].
    split; [now apply Hrows|].
    unfold to_subscription, spec_matches in *.
    rewrite Hcomp by exact Hs. auto.
Qed.

Lemma update_rows_other f i rows a :
  (forall x, PS.id (f x) = PS.id x) -> PS.id a <> i ->
  (In a (update_rows f i rows) <-> In a rows).
Proof.
  intros Hf Ha. split.
  - intros H. unfold update_rows in H. apply in_map_iff in H.
    destruct H as [x [E Hx]]. destruct (PS.id x =? i) eqn:Hid.
    + apply Z.eqb_eq in Hid. subst a. rewrite Hf in Ha. contradiction.
    + now subst a.
  - intros H. apply (@update_rows_in f i) in H.
    apply Z.eqb_neq in Ha. now rewrite Ha in H.
Qed.

Lemma ex_db0_store_ok : store_ok ex_db0.
Proof.
  unfold store_ok. split; [constructor|].
  split.
  { unfold pk_component. simpl.
    repeat constructor; simpl; intuition discriminate. }
  split; [constructor|].
  split; [intros n1 n2 r1 r2 i1 i2 H; destruct n1; discriminate|].
  split; intros x [].
Qed.

Lemma ex_first_store_ok : store_ok (snd ex_first).
Proof.
  apply (@shape_store_ok ex_db0); [exact ex_db0_store_ok|].
  apply upsert_shape. apply ex_db0_store_ok.
Qed.

(** X15. Unsubscribing takes exactly one subscriber out of every later
    dispatch.  On a store that satisfies its keys and references, after
    unsubscribe has succeeded for the token of row r, the subscriptions
    that dispatchPageUpdate selects for any update are those it selected
    before, less the one of r. *)
Theorem unsubscribe_stops_dispatch now tok dom d r d' :
  store_ok d ->
  find_by_token d tok = Some r ->
  unsubscribe now tok dom d = (inr tt, d') ->
  forall pu s,
    selected d' pu s <->
    selected d pu s /\ Subscription.id s <> PS.id r.
Proof.
  intros [Hpk [_ [_ [_ [Hfk _]]]]] Hf H pu s.
  assert (Hin : In r (pageSubscriber d)) by (apply find_some in Hf; tauto).
  destruct (find_page d (PS.pageId r)) as [pg|] eqn:Hp;
    [|now apply Hfk in Hin].
  rewrite (@unsubscribe_found now tok dom d r pg Hf Hp) in H.
  destruct (negb (domain_passes dom pg)); [discriminate|].
  destruct (PS.unsubscribedAt r) as [u|] eqn:Hu; cbn [is_some] in H;
    injection H as <-.
  - split; [|tauto]. intros Hs. split; [exact Hs|].
    intros Hid. apply selected_spec in Hs.
    destruct Hs as [pg0 [r0 [_ [Hr0 [-> Hm]]]]]. simpl in Hid.
    rewrite (@pk_same_id (pageSubscriber d) r0 r Hpk Hr0 Hin Hid) in Hm.
    destruct Hm as [_ [_ [Hm _]]]. congruence.
  - set (d' := set_pageSubscriber d _).
    assert (Hne : selected d' pu s ->
                  Subscription.id s <> PS.id r).
    { intros Hs Hid. apply selected_spec in Hs.
      destruct Hs as [pg0 [r0 [_ [Hr0 [-> Hm]]]]]. simpl in Hid.
      subst d'. cbn [set_pageSubscriber pageSubscriber] in Hr0.
      unfold update_rows in Hr0. apply in_map_iff in Hr0.
      destruct Hr0 as [a [E Ha]]. destruct (PS.id a =? PS.id r) eqn:Ea.
      - subst r0. destruct Hm as [_ [_ [Hm _]]]. discriminate.
      - subst r0. apply Z.eqb_neq in Ea. contradiction. }
    assert (Hframe : Subscription.id s <> PS.id r ->
              (selected d' pu s <->
               selected d pu s)).
    { intros Hs. apply (@others_selected d d' (PS.id r)); auto.
      intros a Ha. subst d'. cbn [set_pageSubscriber pageSubscriber].
      now apply update_rows_other. }
    split.
    + intros Hs. pose proof (Hne Hs) as Hid. split; [|exact Hid].
      now apply Hframe.
    + intros [Hs Hid]. now apply Hframe.
Qed.

Lemma unsubscribe_stops_dispatch_witness :
  exists s,
    selected (snd (unsubscribe 50 "tok-b" None ex_db)) (ex_update [1]) s /\
    Subscription.id s = 1.
Proof.
  exists (to_subscription ex_db ex_page ex_rowA). split; [|reflexivity].
  apply (proj2 (@unsubscribe_stops_dispatch 50 "tok-b" None ex_db ex_rowB
                  (snd (unsubscribe 50 "tok-b" None ex_db))
                  ex_db_store_ok eq_refl eq_refl (ex_update [1])
                  (to_subscription ex_db ex_page ex_rowA))).
  split; [|simpl; discriminate].
  apply selected_spec. exists ex_page, ex_rowA.
  split; [reflexivity|]. split; [simpl; auto|]. split; [reflexivity|].
  unfold spec_matches. simpl.
  split; [reflexivity|]. split; [discriminate|]. split; [reflexivity|].
  now left.
Defined.

(** X16. Verifying is what makes a subscriber receive updates.  On a store
    that satisfies its keys and references, after verifySubscription has
    returned the subscription of a row r that is not unsubscribed, a
    dispatch selects that subscriber exactly for the updates of its page
    that affect one of the components it chose, or for all updates of the
    page when it chose none; the other subscribers are selected as
    before. *)
Theorem verify_starts_dispatch now tok dom d r s d' :
  store_ok d ->
  find_by_token d tok = Some r ->
  PS.unsubscribedAt r = None ->
  verifySubscription now tok dom d = (inr (Some s), d') ->
  forall pu,
    ((exists s', selected d' pu s' /\
                 Subscription.id s' = PS.id r) <->
     PS.pageId r = PageUpdate.pageId pu /\
     (components_of d (PS.id r) = [] \/
      exists c, In c (components_of d (PS.id r)) /\
                In c (PageUpdate.pageComponentIds pu))) /\
    (forall s', Subscription.id s' <> PS.id r ->
       (selected d' pu s' <->
        selected d pu s')).
Proof.
  intros [Hpk [_ [_ [_ [Hfk _]]]]] Hf Hun H pu.
  assert (Hin : In r (pageSubscriber d)) by (apply find_some in Hf; tauto).
  destruct (find_page d (PS.pageId r)) as [pg|] eqn:Hp;
    [|now apply Hfk in Hin].
  rewrite (@verify_found now tok dom d r pg Hf Hp) in H.
  destruct (negb (domain_passes dom pg)); [discriminate|].
  destruct (PS.acceptedAt r) as [acc|] eqn:Ha.
  - injection H as _ <-. split; [|tauto].
    rewrite (@selected_iff d pu r Hpk Hin) by congruence.
    unfold spec_matches. rewrite Ha, Hun.
    intuition discriminate.
  - match type of H with
    | context [if ?b then _ else _] => destruct b
    end; [discriminate|].
    injection H as _ <-.
    set (d' := set_pageSubscriber d _). split.
    + assert (Hpk' : pk_subscriber d').
      { unfold pk_subscriber. subst d'.
        cbn [set_pageSubscriber pageSubscriber].
        now rewrite update_rows_ids. }
      assert (Hin' : In (set_acceptedAt now now r) (pageSubscriber d')).
      { subst d'. cbn [set_pageSubscriber pageSubscriber].
        apply (@update_rows_in (set_acceptedAt now now) (PS.id r)) in Hin.
        now rewrite Z.eqb_refl in Hin. }
      assert (Hp' : find_page d' (PS.pageId (set_acceptedAt now now r))
                    <> None).
      { subst d'. simpl. unfold find_page in *.
        cbn [set_pageSubscriber page]. congruence. }
      pose proof (@selected_iff d' pu (set_acceptedAt now now r)
                    Hpk' Hin' Hp') as Hsel.
      cbn [set_acceptedAt PS.id] in Hsel. rewrite Hsel.
      unfold spec_matches. cbn [set_acceptedAt PS.id PS.pageId
                                PS.acceptedAt PS.unsubscribedAt].
      rewrite Hun. subst d'. unfold components_of.
      cbn [set_pageSubscriber pageSubscriberToPageComponent].
      intuition discriminate.
    + intros s' Hs'. apply (@others_selected d d' (PS.id r)); auto.
      intros a Ha'. subst d'. cbn [set_pageSubscriber pageSubscriber].
      now apply update_rows_other.
Qed.

Lemma verify_starts_dispatch_witness :
  exists s',
    selected (snd (verifySubscription 2000 "uuid-1" None (snd ex_first)))
      (ex_update [1]) s' /\
    Subscription.id s' = 1.
Proof.
  destruct (@verify_starts_dispatch 2000 "uuid-1" None (snd ex_first)
              ex_pending
              (match fst (verifySubscription 2000 "uuid-1" None
                            (snd ex_first)) with
               | inr (Some x) => x
               | _ => no_subscription
               end)
              (snd (verifySubscription 2000 "uuid-1" None (snd ex_first)))
              ex_first_store_ok eq_refl eq_refl eq_refl (ex_update [1]))
    as [H _].
  apply (proj2 H). split; [reflexivity|]. now left.
Defined.

(** X17. A change of scope redirects the dispatcher for that subscriber
    and for nobody else.  On a store that satisfies its keys and
    references, after updateSubscriptionScope has succeeded for the token
    of row r with the component ids [ids], a dispatch selects that
    subscriber exactly for the updates of its page that affect one of
    [ids], or for all updates of the page when [ids] is empty; the other
    subscribers are selected as before. *)
Theorem updateScope_redirects_dispatch now input d r s d' :
  store_ok d ->
  find_by_token d (sc_token input) = Some r ->
  updateSubscriptionScope now input d = (inr s, d') ->
  forall pu,
    ((exists s', selected d' pu s' /\
                 Subscription.id s' = PS.id r) <->
     PS.pageId r = PageUpdate.pageId pu /\
     (sc_componentIds input = [] \/
      exists c, In c (sc_componentIds input) /\
                In c (PageUpdate.pageComponentIds pu))) /\
    (forall s', Subscription.id s' <> PS.id r ->
       (selected d' pu s' <->
        selected d pu s')).
Proof.
  intros [Hpk [Hpc [_ [_ [Hfk _]]]]] Hf H pu.
  assert (Hin : In r (pageSubscriber d)) by (apply find_some in Hf; tauto).
  destruct (find_page d (PS.pageId r)) as [pg|] eqn:Hp;
    [|now apply Hfk in Hin].
  rewrite (@updateScope_cases now input d r pg Hpc Hf Hp) in H.
  destruct (negb (domain_passes (sc_domain input) pg)); [discriminate|].
  destruct (PS.acceptedAt r) as [acc|] eqn:Ha; [|discriminate].
  destruct (PS.unsubscribedAt r) as [u|] eqn:Hun; [discriminate|].
  cbn [is_some] in H.
  destruct (negb (components_accepted d (PS.pageId r)
                    (sc_componentIds input))); [discriminate|].
  injection H as _ <-.
  set (d' := mkDB _ _ _ _).
  assert (Hsame : components_of d' (PS.id r) = sc_componentIds input)
    by (subst d'; unfold components_of;
        cbn [pageSubscriberToPageComponent]; apply replaced_links_same).
  split.
  - assert (Hpk' : pk_subscriber d').
    { unfold pk_subscriber. subst d'. cbn [pageSubscriber].
      now rewrite update_rows_ids. }
    assert (Hin' : In (set_updatedAt now r) (pageSubscriber d')).
    { subst d'. cbn [pageSubscriber].
      apply (@update_rows_in (set_updatedAt now) (PS.id r)) in Hin.
      now rewrite Z.eqb_refl in Hin. }
    assert (Hp' : find_page d' (PS.pageId (set_updatedAt now r)) <> None).
    { subst d'. simpl. unfold find_page in *. cbn [page]. congruence. }
    pose proof (@selected_iff d' pu (set_updatedAt now r) Hpk' Hin' Hp')
      as Hsel.
    cbn [set_updatedAt PS.id] in Hsel. rewrite Hsel.
    unfold spec_matches.
    cbn [set_updatedAt PS.id PS.pageId PS.acceptedAt PS.unsubscribedAt].
    rewrite Hsame, Ha, Hun. intuition discriminate.
  - intros s' Hs'. apply (@others_selected d d' (PS.id r)); auto.
    + intros a Ha'. subst d'. cbn [pageSubscriber].
      now apply update_rows_other.
    + intros o Ho. subst d'. unfold components_of at 1.
      cbn [pageSubscriberToPageComponent].
      now apply replaced_links_other.
Qed.

Lemma updateScope_redirects_dispatch_witness :
  exists s',
    selected (snd (updateSubscriptionScope 50 (mkScope "tok-b" [2] None)
                 ex_db)) (ex_update [2]) s' /\
    Subscription.id s' = 2.
Proof.
  destruct (@updateScope_redirects_dispatch 50 (mkScope "tok-b" [2] None)
              ex_db ex_rowB
              (match fst (updateSubscriptionScope 50
                            (mkScope "tok-b" [2] None) ex_db) with
               | inr x => x
               | _ => no_subscription
               end)
              (snd (updateSubscriptionScope 50 (mkScope "tok-b" [2] None)
                      ex_db))
              ex_db_store_ok eq_refl eq_refl (ex_update [2]))
    as [H _].
  apply (proj2 H). split; [reflexivity|]. right. exists 2.
  split; simpl; auto.
Defined.

(** ** A wrong domain and an unknown token look the same *)

Lemma truthy_toLowerCase s : truthy (toLowerCase s) = truthy s.
Proof. destruct s; reflexivity. Qed.

Lemma domain_passes_lower dom pg :
  domain_passes (option_map toLowerCase dom) pg = domain_passes dom pg.
Proof.
  destruct dom as [s|]; [|reflexivity].
  unfold domain_passes, domain_differs. cbn [option_map].
  now rewrite truthy_toLowerCase, toLowerCase_idem.
Qed.

(** X18. A caller who presents a valid token with a non-empty domain that
    is, letter case aside, neither the slug nor the custom domain of the
    subscription's page learns nothing from the public procedures:
    verify, getByToken, updateScope and unsubscribe each answer exactly as
    they do for a token that does not exist, and none of them changes the
    store.  The empty domain is no such domain: the four procedures treat
    it as a domain that was not given at all. *)
Theorem wrong_domain_looks_unknown now tok tok' dm comps d r pg :
  find_by_token d tok = Some r ->
  find_page d (PS.pageId r) = Some pg ->
  dm <> EmptyString ->
  toLowerCase dm <> toLowerCase (Page.slug pg) ->
  (forall c, Page.customDomain pg = Some c ->
             toLowerCase dm <> toLowerCase c) ->
  find_by_token d tok' = None ->
  (pageSubscriberRouter.verify now tok (Some dm) d =
   pageSubscriberRouter.verify now tok' (Some dm) d /\
   snd (pageSubscriberRouter.verify now tok (Some dm) d) = d) /\
  (pageSubscriberRouter.getByToken tok (Some dm) d =
   pageSubscriberRouter.getByToken tok' (Some dm) d /\
   snd (pageSubscriberRouter.getByToken tok (Some dm) d) = d) /\
  (pageSubscriberRouter.updateScope now (mkScope tok comps (Some dm)) d =
   pageSubscriberRouter.updateScope now (mkScope tok' comps (Some dm)) d /\
   snd (pageSubscriberRouter.updateScope now (mkScope tok comps (Some dm))
          d) = d) /\
  (pageSubscriberRouter.unsubscribe now tok (Some dm) d =
   pageSubscriberRouter.unsubscribe now tok' (Some dm) d /\
   snd (pageSubscriberRouter.unsubscribe now tok (Some dm) d) = d) /\
  (pageSubscriberRouter.verify now tok (Some EmptyString) d =
   pageSubscriberRouter.verify now tok None d /\
   pageSubscriberRouter.getByToken tok (Some EmptyString) d =
   pageSubscriberRouter.getByToken tok None d /\
   pageSubscriberRouter.updateScope now
     (mkScope tok comps (Some EmptyString)) d =
   pageSubscriberRouter.updateScope now (mkScope tok comps None) d /\
   pageSubscriberRouter.unsubscribe now tok (Some EmptyString) d =
   pageSubscriberRouter.unsubscribe now tok None d).
Proof.
  intros Hf Hp Hne Hslug Hcust Hn.
  assert (Hd : domain_passes (Some dm) pg = false).
  { apply domain_passes_false. exists dm. auto. }
  assert (Hd' : negb (domain_passes (option_map toLowerCase (Some dm)) pg)
                = true)
    by (now rewrite domain_passes_lower, Hd).
  split; [|split; [|split; [|split]]].
  5:{ repeat split; reflexivity. }
  all: unfold pageSubscriberRouter.verify, pageSubscriberRouter.getByToken,
    pageSubscriberRouter.updateScope, pageSubscriberRouter.unsubscribe;
    cbn [sc_token sc_componentIds sc_domain].
  - rewrite (@verify_found now tok (option_map toLowerCase (Some dm)) d r pg
               Hf Hp),
      (@verify_unknown now tok' (option_map toLowerCase (Some dm)) d Hn),
      Hd'. auto.
  - rewrite (@getByToken_found tok (option_map toLowerCase (Some dm)) d r pg
               Hf Hp),
      (@getByToken_unknown tok' (option_map toLowerCase (Some dm)) d Hn),
      Hd'. auto.
  - rewrite (@updateScope_found now
               (mkScope tok comps (option_map toLowerCase (Some dm)))
               d r pg Hf Hp),
      (@updateScope_unknown now
         (mkScope tok' comps (option_map toLowerCase (Some dm))) d Hn).
    cbn [sc_domain]. rewrite Hd'. auto.
  - rewrite (@unsubscribe_found now tok (option_map toLowerCase (Some dm))
               d r pg Hf Hp),
      (@unsubscribe_unknown now tok' (option_map toLowerCase (Some dm)) d
         Hn),
      Hd'. auto.
Qed.

Lemma wrong_domain_looks_unknown_witness :
  pageSubscriberRouter.getByToken "tok-a"
    (Some "Other.example.com"%string) ex_db
  = pageSubscriberRouter.getByToken "no-such-token"
      (Some "Other.example.com"%string) ex_db.
Proof.
  destruct (@wrong_domain_looks_unknown 50 "tok-a" "no-such-token"
              "Other.example.com"%string [] ex_db ex_rowA ex_page
              eq_refl eq_refl) as [_ [[H _] _]].
  - discriminate.
  - discriminate.
  - intros c E. inversion E. discriminate.
  - reflexivity.
  - exact H.
Defined.

(** ** The headers of a webhook request *)

Lemma get_assign_own hs k v k' :
  get_header (assign_own hs k v) k' =
  if String.eqb k k' then Some v else get_header hs k'.
Proof.
  unfold get_header. induction hs as [|[a b] r IH]; simpl.
  - destruct (String.eqb k k'); reflexivity.
  - destruct (String.eqb_spec a k) as [E|E]; simpl.
    + subst a. destruct (String.eqb k k'); reflexivity.
    + destruct (String.eqb_spec a k') as [E'|E']; simpl.
      * subst a. destruct (String.eqb_spec k k'); [congruence|reflexivity].
      * exact IH.
Qed.

Lemma get_header_set hs k v k' :
  get_header (set_header hs k v) k' =
  if String.eqb k "__proto__" then get_header hs k'
  else if String.eqb k k' then Some v else get_header hs k'.
Proof.
  unfold set_header. destruct (String.eqb k "__proto__"); [reflexivity|].
  apply get_assign_own.
Qed.

Lemma get_header_app l1 l2 k :
  get_header (l1 ++ l2) k =
  match get_header l1 k with
  | Some v => Some v
  | None => get_header l2 k
  end.
Proof.
  unfold get_header. induction l1 as [|[a b] r IH]; simpl; [reflexivity|].
  destruct (String.eqb a k); [reflexivity|exact IH].
Qed.

Lemma get_header_fold hs k : forall init,
  k <> "__proto__"%string ->
  get_header
    (fold_left (fun acc h => set_header acc (fst h) (snd h)) hs init) k =
  match get_header (rev hs) k with
  | Some v => Some v
  | None => get_header init k
  end.
Proof.
  induction hs as [|[a b] t IH]; intros init Hk; simpl; [reflexivity|].
  rewrite IH, get_header_app, get_header_set by exact Hk.
  destruct (get_header (rev t) k); [reflexivity|].
  assert (Hone : get_header [(a, b)] k =
                 if String.eqb a k then Some b else None)
    by (unfold get_header; simpl; destruct (String.eqb a k); reflexivity).
  rewrite Hone.
  destruct (String.eqb_spec a "__proto__") as [E|E].
  - subst a. destruct (String.eqb_spec "__proto__" k); [congruence|].
    reflexivity.
  - destruct (String.eqb a k); reflexivity.
Qed.

Lemma get_header_fold_proto hs : forall init,
  get_header
    (fold_left (fun acc h => set_header acc (fst h) (snd h)) hs init)
    "__proto__" = get_header init "__proto__".
Proof.
  induction hs as [|[a b] t IH]; intros init; simpl; [reflexivity|].
  rewrite IH, get_header_set.
  destruct (String.eqb_spec a "__proto__") as [E|E]; [reflexivity|].
  destruct (String.eqb_spec a "__proto__"); [contradiction|reflexivity].
Qed.

Lemma assign_own_keys hs k v x :
  In x (map fst (assign_own hs k v)) <-> x = k \/ In x (map fst hs).
Proof.
  induction hs as [|[a b] r IH]; simpl.
  - intuition.
  - destruct (String.eqb_spec a k) as [E|E]; simpl.
    + subst. intuition.
    + rewrite IH. intuition.
Qed.

Lemma assign_own_NoDup hs k v :
  NoDup (map fst hs) -> NoDup (map fst (assign_own hs k v)).
Proof.
  induction hs as [|[a b] r IH]; simpl; intros H.
  - constructor; [tauto|constructor].
  - inversion H as [|? ? Ha Hr]; subst.
    destruct (String.eqb_spec a k) as [E|E]; simpl.
    + constructor; assumption.
    + constructor; [|now apply IH].
      rewrite assign_own_keys. intuition.
Qed.

Lemma set_header_NoDup hs k v :
  NoDup (map fst hs) -> NoDup (map fst (set_header hs k v)).
Proof.
  intros H. unfold set_header.
  destruct (String.eqb k "__proto__"); [exact H|].
  now apply assign_own_NoDup.
Qed.

Lemma fold_set_header_NoDup hs : forall init,
  NoDup (map fst init) ->
  NoDup (map fst
           (fold_left (fun acc h => set_header acc (fst h) (snd h)) hs
              init)).
Proof.
  induction hs as [|h t IH]; intros init H; simpl; [exact H|].
  apply IH. now apply set_header_NoDup.
Qed.

Lemma default_headers_NoDup : NoDup (map fst default_headers).
Proof.
  simpl. repeat constructor; simpl; intuition discriminate.
Qed.

(** X19. The headers of a webhook request when the stored configuration
    lists headers (pairs of strings): every name occurs once; a name the
    configuration gives, other than "__proto__", carries the value of its
    last occurrence there, also when it is one of the two defaults
    (Content-Type, User-Agent), which it then replaces; any other name has
    its default value, if it has one; and the name "__proto__", for which
    the assignment creates no property, is never a header of the
    request. *)
Theorem webhook_headers_layering w sub hs k :
  snd (parse_channelConfig w sub) = HeadersPairs hs ->
  (k <> "__proto__"%string ->
   get_header (request_headers w sub) k =
   match get_header (rev hs) k with
   | Some v => Some v
   | None => get_header default_headers k
   end) /\
  get_header (request_headers w sub) "__proto__" = None /\
  NoDup (map fst (request_headers w sub)).
Proof.
  intros H. unfold request_headers. rewrite H. split; [|split].
  - intros Hk. now apply get_header_fold.
  - now rewrite get_header_fold_proto.
  - apply fold_set_header_NoDup. apply default_headers_NoDup.
Qed.

Lemma webhook_headers_layering_witness :
  get_header (request_headers ex_world_headers ex_hook_configured)
    "Content-Type" = Some "text/plain"%string /\
  get_header (request_headers ex_world_headers ex_hook_configured)
    "X-Key" = Some "two"%string /\
  get_header (request_headers ex_world_headers ex_hook_configured)
    "User-Agent" = Some "OpenStatus-Webhooks/1.0"%string /\
  get_header (request_headers ex_world_headers ex_hook_configured)
    "__proto__" = None.
Proof.
  destruct (@webhook_headers_layering ex_world_headers ex_hook_configured
              [("Content-Type", "text/plain"); ("__proto__", "x");
               ("X-Key", "one"); ("X-Key", "two")]%string
              "Content-Type" eq_refl) as [H [Hp _]].
  split; [|split; [|split]].
  - rewrite H by discriminate. reflexivity.
  - reflexivity.
  - reflexivity.
  - exact Hp.
Defined.

(** ** Subscribe, confirm, be notified *)

(** The row behind an upsert that answers with an unverified
    subscription. *)
Lemma upsert_unverified_row now uuid input d s d' :
  token_unique (pageSubscriber d) ->
  (forall r, In r (pageSubscriber d) -> PS.token r <> Some uuid) ->
  fk_link_subscriber d ->
  upsertEmailSubscription now uuid input d = (inr s, d') ->
  Subscription.acceptedAt s = None ->
  token_unique (pageSubscriber d') /\
  exists r pg,
    In r (pageSubscriber d') /\
    find_page d' (PS.pageId r) = Some pg /\
    PS.id r = Subscription.id s /\
    PS.pageId r = in_pageId input /\
    PS.token r = Subscription.token s /\
    PS.email r = Some (toLowerCase (in_email input)) /\
    PS.acceptedAt r = None /\
    PS.unsubscribedAt r = None /\
    PS.expiresAt r =
      Some (timestamp_column (now + VERIFICATION_EXPIRY_MS)) /\
    (forall c, In c (components_of d' (PS.id r)) <->
               In c (Subscription.componentIds s)).
Proof.
  intros Hu Hfresh Hfk H Hs. apply upsert_success in H.
  destruct H as [pg [Hp [Hv [H|[H|H]]]]].
  - destruct H as [ex [acc [_ [_ [-> _]]]]]. discriminate.
  - destruct H as [ex [Hf [Ha [-> ->]]]].
    unfold find_active_email in Hf. apply find_some in Hf.
    destruct Hf as [Hin Hact]. apply is_active_email_spec in Hact.
    destruct Hact as [A1 [A2 [A3 A4]]].
    split.
    { cbn [pageSubscriber]. now apply token_unique_update. }
    exists (set_expiresAt (now + VERIFICATION_EXPIRY_MS) now ex), pg.
    split.
    { cbn [pageSubscriber].
      apply (update_rows_in
               (set_expiresAt (now + VERIFICATION_EXPIRY_MS) now)
               (PS.id ex)) in Hin.
      now rewrite Z.eqb_refl in Hin. }
    split; [cbn; now rewrite A2|].
    repeat split; auto.
    + intros Hc. apply merged_ids_in.
      now apply (pending_components_in d (PS.id ex) (upsert_ids input) c).
    + intros Hc. apply merged_ids_in in Hc.
      now apply (pending_components_in d (PS.id ex) (upsert_ids input) c).
  - destruct H as [t [Hf [Hc [Hi [Hid [He [Ht [Ha [Hids ->]]]]]]]]].
    set (n := new_subscriber now uuid (in_email input) (in_pageId input)
                (pageSubscriber d)) in *.
    split.
    { cbn [pageSubscriber]. apply token_unique_insert; [assumption|].
      intros r Hr. now apply Hfresh. }
    exists n, pg. split; [cbn; apply in_or_app; right; now left|].
    split; [exact Hp|].
    split; [now symmetry|]. split; [reflexivity|].
    split; [now symmetry|]. split; [reflexivity|].
    split; [reflexivity|]. split; [reflexivity|].
    split; [reflexivity|].
    intros c. rewrite Hids. apply insert_links_into_some in Hi. subst t.
    unfold components_of at 1. cbn [pageSubscriberToPageComponent].
    rewrite components_of_app, links_for_filter_same.
    rewrite (@components_of_fresh d (PS.id n) Hfk (next_id_fresh _)).
    reflexivity.
Qed.

Lemma links_on_page_fk d : links_on_page d -> fk_link_subscriber d.
Proof.
  intros H l Hl. destruct (H l Hl) as [r [Hr [Hid _]]]. exists r. auto.
Qed.

(** X20. Subscribe, confirm, be notified.  On a store that satisfies its
    keys and references and in which tokens are unique and the new token
    is unused: when an upsert answers with an unverified subscription and
    its token, the subscriber is selected by no dispatch until the token
    is verified; a verifySubscription with that token made no later than
    the stored deadline (the instant of the upsert + 7 days, rounded down
    to the second) succeeds and returns acceptedAt = its own instant
    rounded down to the second, while one made after the stored deadline
    fails with the Expired error and changes nothing; and once verified,
    every dispatch for an update of the page that falls in the answered
    scope (no components, or one of them affected) selects the subscriber,
    with the lowercased address and the token. *)
Theorem subscribe_confirm_notify now uuid input d s d1 t now2 :
  store_ok d ->
  token_unique (pageSubscriber d) ->
  (forall r, In r (pageSubscriber d) -> PS.token r <> Some uuid) ->
  upsertEmailSubscription now uuid input d = (inr s, d1) ->
  Subscription.acceptedAt s = None ->
  Subscription.token s = Some t ->
  now2 <= timestamp_column (now + 604800000) ->
  (forall pu s', selected d1 pu s' ->
                 Subscription.id s' <> Subscription.id s) /\
  (forall late, timestamp_column (now + 604800000) < late ->
     verifySubscription late t None d1 = (inl TokenExpired, d1)) /\
  exists s2 d2,
    verifySubscription now2 t None d1 = (inr (Some s2), d2) /\
    Subscription.id s2 = Subscription.id s /\
    Subscription.acceptedAt s2 = Some (timestamp_column now2) /\
    forall pu,
      PageUpdate.pageId pu = in_pageId input ->
      (Subscription.componentIds s = [] \/
       exists c, In c (Subscription.componentIds s) /\
                 In c (PageUpdate.pageComponentIds pu)) ->
      exists s',
        selected d2 pu s' /\
        Subscription.id s' = Subscription.id s /\
        Subscription.email s' = Some (toLowerCase (in_email input)) /\
        Subscription.token s' = Some t.
Proof.
  intros Hok Htu Hfresh H Hs Ht Hnow.
  assert (Hok1 : store_ok d1).
  { apply (@shape_store_ok d d1 Hok).
    replace d1 with (snd (upsertEmailSubscription now uuid input d))
      by (now rewrite H).
    apply upsert_shape. apply Hok. }
  assert (Hfk : fk_link_subscriber d) by (apply links_on_page_fk; apply Hok).
  destruct (@upsert_unverified_row now uuid input d s d1 Htu Hfresh Hfk H Hs)
    as [Htu1 [r [pg [Hin [Hp [Hid [Hpid [Htok [Hmail [Hacc [Hun
         [Hexp Hc]]]]]]]]]]]].
  destruct Hok1 as [Hpk1 _].
  split.
  { intros pu s' Hs' E. apply selected_spec in Hs'.
    destruct Hs' as [pg0 [r0 [_ [Hr0 [-> Hm]]]]]. simpl in E.
    assert (r0 = r)
      by (apply (@pk_same_id (pageSubscriber d1)); auto; congruence).
    subst r0. destruct Hm as [_ [Hm _]]. contradiction. }
  assert (Hf : find_by_token d1 t = Some r)
    by (apply find_by_token_unique; auto; congruence).
  split.
  { intros late Hlate.
    rewrite (@verify_found late t None d1 r pg Hf Hp).
    cbn [domain_passes negb]. rewrite Hacc, Hexp.
    change (now + VERIFICATION_EXPIRY_MS) with (now + 604800000).
    apply Z.ltb_lt in Hlate. now rewrite Hlate. }
  rewrite (@verify_found now2 t None d1 r pg Hf Hp).
  cbn [domain_passes negb]. rewrite Hacc, Hexp.
  assert (Hlt : (timestamp_column (now + VERIFICATION_EXPIRY_MS) <? now2)
                = false)
    by (apply Z.ltb_ge; exact Hnow).
  rewrite Hlt, (@filter_id_unique (pageSubscriber d1) r Hpk1 Hin).
  eexists. eexists. split; [reflexivity|].
  split; [exact Hid|]. split; [reflexivity|].
  intros pu Hpu Hscope.
  set (d2 := set_pageSubscriber d1 _).
  exists (to_subscription d2 pg (set_acceptedAt now2 now2 r)).
  split; [|simpl; repeat split; congruence].
  apply selected_spec. exists pg, (set_acceptedAt now2 now2 r).
  split.
  { rewrite Hpu, <- Hpid. subst d2. unfold find_page in *.
    cbn [set_pageSubscriber page]. exact Hp. }
  split.
  { subst d2. cbn [set_pageSubscriber pageSubscriber].
    apply (@update_rows_in (set_acceptedAt now2 now2) (PS.id r)) in Hin.
    now rewrite Z.eqb_refl in Hin. }
  split; [reflexivity|].
  unfold spec_matches.
  cbn [set_acceptedAt PS.id PS.pageId PS.acceptedAt PS.unsubscribedAt].
  split; [congruence|]. split; [discriminate|]. split; [exact Hun|].
  assert (Hcomp : components_of d2 (PS.id r) = components_of d1 (PS.id r))
    by reflexivity.
  rewrite Hcomp. destruct Hscope as [Hnil|[c [Hc1 Hc2]]].
  - left. destruct (components_of d1 (PS.id r)) as [|c0 cs] eqn:E;
      [reflexivity|].
    exfalso. assert (Hc0 : In c0 (Subscription.componentIds s))
      by (apply Hc; now left).
    rewrite Hnil in Hc0. destruct Hc0.
  - right. exists c. split; [now apply Hc|exact Hc2].
Qed.

(** An upsert at 1500 ms on the empty sample store has the deadline
    604801000 ms: a verification at 604801400 ms, less than seven days
    after the upsert, is too late, one at 604800500 ms is accepted with
    the date 604800000 ms and the subscriber is then selected. *)
Lemma subscribe_confirm_notify_witness :
  verifySubscription 604801400 "uuid-1" None
    (snd (upsertEmailSubscription 1500 "uuid-1"
            (mkUpsert "User@Example.com" 1 None) ex_db0))
  = (inl TokenExpired,
     snd (upsertEmailSubscription 1500 "uuid-1"
            (mkUpsert "User@Example.com" 1 None) ex_db0)) /\
  exists s2 d2,
    verifySubscription 604800500 "uuid-1" None
      (snd (upsertEmailSubscription 1500 "uuid-1"
              (mkUpsert "User@Example.com" 1 None) ex_db0))
      = (inr (Some s2), d2) /\
    Subscription.acceptedAt s2 = Some 604800000 /\
    exists s',
      selected d2 (ex_update [1]) s' /\
      Subscription.email s' = Some "user@example.com"%string.
Proof.
  destruct (@subscribe_confirm_notify 1500 "uuid-1"
              (mkUpsert "User@Example.com" 1 None) ex_db0
              (the_value
                 (fst (upsertEmailSubscription 1500 "uuid-1"
                         (mkUpsert "User@Example.com" 1 None) ex_db0))
                 no_subscription)
              (snd (upsertEmailSubscription 1500 "uuid-1"
                      (mkUpsert "User@Example.com" 1 None) ex_db0))
              "uuid-1" 604800500 ex_db0_store_ok)
    as [_ [Hlate [s2 [d2 [Hv [_ [Hacc Hd]]]]]]].
  - intros n1 n2 r1 r2 t H. destruct n1; discriminate.
  - intros r [].
  - reflexivity.
  - reflexivity.
  - reflexivity.
  - vm_compute. discriminate.
  - split; [apply Hlate; reflexivity|].
    exists s2, d2. split; [exact Hv|]. split; [exact Hacc|].
    destruct (Hd (ex_update [1]) eq_refl (or_introl eq_refl))
      as [s' [Hs' [_ [He _]]]].
    exists s'. split; [exact Hs'|exact He].
Defined.
